(** * genomeGTFtools: microsynteny.py

    A shallow embedding of [microsynteny.py] (v1.3): the two parsers
    [parse_gtf] and [parse_tabular_blast], the null-model helper
    [randomize_genes], the block walker [synteny_walk] and the dictionary set-up
    of [main], followed by the properties established about them.

    Conventions of the embedding.
    - Python [int] is [Z]; Python [float] (e-values and bit scores, which are only
      stored and compared) is [Q].
    - A Python [dict] is an association list in insertion order: the order is
      observable, because [sorted] is stable and the walker sorts dictionary items.
      Assigning to a key that is present updates the value in place, assigning to
      a new key appends the binding.
    - Exceptions are values of [exn]; code that can raise returns a result that
      carries the exception.  The walker writes to two streams while it runs; its
      result carries the state reached, also when it raises.
    - Text written to [wayout] and to [sys.stderr] is kept as structured lines
      (the arguments of the [format] call); [time.asctime()] is left out. *)

From Stdlib Require Import List String Ascii ZArith QArith Bool Lia.
From Stdlib Require Import Permutation Sorted.
Import ListNotations.
Local Open Scope string_scope.
Local Open Scope Z_scope.
Local Open Scope list_scope.

Set Implicit Arguments.

(** ** Exceptions *)

Inductive exn : Type :=
| KeyError (key : string)
| ValueError
| AttributeError
| TypeError
| NameError
| IndexError
| ZeroDivisionError
| SystemExit (msg : string).

Inductive res (A : Type) : Type :=
| Ok (a : A)
| Err (e : exn).
Arguments Err {A} e.

Definition bind {A B : Type} (m : res A) (k : A -> res B) : res B :=
  match m with
  | Ok a => k a
  | Err e => Err e
  end.

Notation "x <- m ;; k" := (bind m (fun x => k))
  (at level 61, m at next level, right associativity).

(** ** Dictionaries *)

Section Dict.
Variables K V : Type.
Variable eqb : K -> K -> bool.

Fixpoint dict_get (k : K) (d : list (K * V)) : option V :=
  match d with
  | [] => None
  | (k', v) :: d' => if eqb k k' then Some v else dict_get k d'
  end.

Fixpoint dict_set (k : K) (v : V) (d : list (K * V)) : list (K * V) :=
  match d with
  | [] => [(k, v)]
  | (k', v') :: d' =>
      if eqb k k' then (k', v) :: d' else (k', v') :: dict_set k v d'
  end.

Definition dict_get_default (k : K) (dflt : V) (d : list (K * V)) : V :=
  match dict_get k d with
  | Some v => v
  | None => dflt
  end.
End Dict.

Definition dict (V : Type) : Type := list (string * V).

Definition sget {V : Type} (k : string) (d : dict V) : option V :=
  dict_get String.eqb k d.
Definition sset {V : Type} (k : string) (v : V) (d : dict V) : dict V :=
  dict_set String.eqb k v d.

(** [d[k]]: a missing key raises [KeyError]. *)
Definition sindex {V : Type} (k : string) (d : dict V) : res V :=
  match sget k d with
  | Some v => Ok v
  | None => Err (KeyError k)
  end.

(** [d[k] += 1] on a [defaultdict(int)] with integer keys. *)
Definition zincr (k : Z) (d : list (Z * Z)) : list (Z * Z) :=
  dict_set Z.eqb k (dict_get_default Z.eqb k 0 d + 1) d.

(** ** [sorted]

    [sorted] is stable, also with [reverse=True]: items with equal keys keep the
    order of the input.  [insert_sorted before x l] puts [x] behind the items that
    come strictly before it and in front of all others. *)

Section Sorted.
Variable A : Type.
Variable before : A -> A -> bool.

Fixpoint insert_sorted (x : A) (l : list A) : list A :=
  match l with
  | [] => [x]
  | y :: l' => if before y x then y :: insert_sorted x l' else x :: y :: l'
  end.

Definition sorted (l : list A) : list A := fold_right insert_sorted [] l.
End Sorted.

(** [min(...)] and [max(...)] of a sequence; [None] stands for the [ValueError]
    raised on an empty one. *)
Definition py_min (l : list Z) : option Z :=
  match l with
  | [] => None
  | x :: l' => Some (fold_left Z.min l' x)
  end.

Definition py_max (l : list Z) : option Z :=
  match l with
  | [] => None
  | x :: l' => Some (fold_left Z.max l' x)
  end.

Definition py_sum (l : list Z) : Z := fold_left Z.add l 0.

(** ** Gene models *)

Record querygene : Type := mk_querygene
  { qstart : Z; qend : Z; qstrand : string }.

Record refgene : Type := mk_refgene
  { rscaffold : string; rstart : Z; rend : Z; rstrand : string }.

(** ** Strings *)

(** [rfind_head sep s] is [s[:i]] for the last index [i] at which [sep] occurs in
    [s], if it occurs at all. *)
Fixpoint rfind_head (sep s : string) : option string :=
  match s with
  | EmptyString => None
  | String c s' =>
      match rfind_head sep s' with
      | Some h => Some (String c h)
      | None => if String.prefix sep s then Some EmptyString else None
      end
  end.

(** [s.rsplit(sep, 1)[0]] for a non-empty separator: the text in front of the
    last occurrence of [sep], or all of [s] when [sep] does not occur.  An empty
    separator raises [ValueError]. *)
Definition rsplit1_head (sep s : string) : res string :=
  match sep with
  | EmptyString => Err ValueError
  | _ => match rfind_head sep s with
         | Some h => Ok h
         | None => Ok s
         end
  end.

(** ** [parse_gtf] *)

(** The three patterns given to [re.search]; the identifier class is
    [[\w.|-]+] in each:
    - [pat_gene_id]: the text gene_id, a space and the identifier in double quotes;
    - [pat_ID]: the text ID= and the identifier;
    - [pat_name]: the text name, a space and the identifier in double quotes. *)
Inductive pattern : Type := pat_gene_id | pat_ID | pat_name.

(** A feature line of the annotation file: the columns that [parse_gtf] reads,
    after [strip] and [split] on tabs, with columns 3 and 4 read by [int].  Empty
    lines and comment lines are passed over by the guard of the loop and are not
    listed. *)
Record gtfline : Type := mk_gtfline
  { g_scaffold : string;      (* lsplits[0] *)
    g_feature : string;       (* lsplits[2] *)
    g_start : Z;              (* int(lsplits[3]) *)
    g_end : Z;                (* int(lsplits[4]) *)
    g_strand : string;        (* lsplits[6] *)
    g_attributes : string }.  (* lsplits[8] *)

(** What [parse_gtf] returns: with [isref] a dictionary from gene name to
    [refgene], otherwise a dictionary from scaffold to a dictionary from gene name
    to [querygene]. *)
Definition gtf_index (isref : bool) : Type :=
  if isref then dict refgene else dict (dict querygene).

(** The tables that exist only when [exonstogenes] is set. *)
Record exon_tables : Type := mk_exon_tables
  { nametoscaffold : dict string;
    nametostrand : dict string;
    exonboundaries : dict (list (Z * Z)) }.

Definition no_exons : exon_tables := mk_exon_tables [] [] [].

(** [excludedict and excludedict.get(scaffold, False)] *)
Definition excluded (excludedict : option (dict bool)) (scaffold : string) : bool :=
  match excludedict with
  | None => false
  | Some d => dict_get_default String.eqb scaffold false d
  end.

(** [genesbyscaffold[geneid] = refgene(...)] or
    [genesbyscaffold[scaffold][geneid] = querygene(...)] *)
Definition store_gene (isref : bool) (scaffold geneid : string)
    (start end_ : Z) (strand : string) : gtf_index isref -> gtf_index isref :=
  match isref return gtf_index isref -> gtf_index isref with
  | true => fun d => sset geneid (mk_refgene scaffold start end_ strand) d
  | false => fun d =>
      sset scaffold
        (sset geneid (mk_querygene start end_ strand)
           (dict_get_default String.eqb scaffold [] d)) d
  end.

Definition index_len (isref : bool) : gtf_index isref -> nat :=
  match isref return gtf_index isref -> nat with
  | true => fun d => List.length d
  | false => fun d => List.length d
  end.

Definition empty_index (isref : bool) : gtf_index isref :=
  match isref return gtf_index isref with
  | true => []
  | false => []
  end.

Section ParseGtf.
(** [re_search p s] is [re.search(p, s).group(1)]; [None] when there is no
    match, where reading the group raises [AttributeError]. *)
Variable re_search : pattern -> string -> option string.

(** [try: p1 ... except AttributeError: p2] around the two searches. *)
Definition search_id (p1 p2 : pattern) (attributes : string) : res string :=
  match re_search p1 attributes with
  | Some g => Ok g
  | None => match re_search p2 attributes with
            | Some g => Ok g
            | None => Err AttributeError
            end
  end.

(** [if delimiter: geneid = geneid.rsplit(delimiter,1)[0]] *)
Definition trim_id (delimiter : option string) (geneid : string) : res string :=
  match delimiter with
  | None => Ok geneid
  | Some EmptyString => Ok geneid
  | Some sep => rsplit1_head sep geneid
  end.

Definition is_gene_feature (feature : string) : bool :=
  String.eqb feature "gene" || String.eqb feature "transcript"
  || String.eqb feature "mRNA".

(** The body of the loop over the lines of the file. *)
Definition parse_gtf_line (exonstogenes : bool) (excludedict : option (dict bool))
    (delimiter : option string) (isref : bool) (ln : gtfline)
    (acc : gtf_index isref * exon_tables) : res (gtf_index isref * exon_tables) :=
  let (genesbyscaffold, ex) := acc in
  let scaffold := g_scaffold ln in
  if excluded excludedict scaffold then Ok acc
  else
    let feature := g_feature ln in
    let attributes := g_attributes ln in
    if is_gene_feature feature then
      geneid <- search_id pat_gene_id pat_ID attributes ;;
      geneid <- trim_id delimiter geneid ;;
      Ok (store_gene isref scaffold geneid (g_start ln) (g_end ln) (g_strand ln)
            genesbyscaffold, ex)
    else if exonstogenes && String.eqb feature "exon" then
      geneid <- search_id pat_gene_id pat_name attributes ;;
      let exonbounds := (g_start ln, g_end ln) in
      Ok (genesbyscaffold,
          mk_exon_tables
            (sset geneid scaffold (nametoscaffold ex))
            (sset geneid (g_strand ln) (nametostrand ex))
            (sset geneid
               (dict_get_default String.eqb geneid [] (exonboundaries ex)
                  ++ [exonbounds])
               (exonboundaries ex)))
    else Ok acc.

Fixpoint parse_gtf_lines (exonstogenes : bool) (excludedict : option (dict bool))
    (delimiter : option string) (isref : bool) (lines : list gtfline)
    (acc : gtf_index isref * exon_tables) : res (gtf_index isref * exon_tables) :=
  match lines with
  | [] => Ok acc
  | ln :: lines' =>
      acc' <- parse_gtf_line exonstogenes excludedict delimiter isref ln acc ;;
      parse_gtf_lines exonstogenes excludedict delimiter isref lines' acc'
  end.

Definition value_or_error (o : option Z) : res Z :=
  match o with
  | Some z => Ok z
  | None => Err ValueError
  end.

(** The scaffold, bounds and strand of the gene built from [exons], read in the
    order of line 115 (reference) or of lines 118-119 (query). *)
Definition exon_gene_fields (isref : bool) (ex : exon_tables) (gene : string)
    (exons : list (Z * Z)) : res (string * Z * Z * string) :=
  if isref then
    scaffold <- sindex gene (nametoscaffold ex) ;;
    start <- value_or_error (py_min (map fst exons)) ;;
    end_ <- value_or_error (py_max (map snd exons)) ;;
    strand <- sindex gene (nametostrand ex) ;;
    Ok (scaffold, start, end_, strand)
  else
    start <- value_or_error (py_min (map fst exons)) ;;
    end_ <- value_or_error (py_max (map snd exons)) ;;
    strand <- sindex gene (nametostrand ex) ;;
    scaffold <- sindex gene (nametoscaffold ex) ;;
    Ok (scaffold, start, end_, strand).

(** The loop over [exonboundaries.items()] that builds one gene per name. *)
Fixpoint genes_from_exons (isref : bool) (ex : exon_tables)
    (items : list (string * list (Z * Z))) (genesbyscaffold : gtf_index isref)
    : res (gtf_index isref) :=
  match items with
  | [] => Ok genesbyscaffold
  | (gene, exons) :: items' =>
      fields <- exon_gene_fields isref ex gene exons ;;
      let '(scaffold, start, end_, strand) := fields in
      genes_from_exons isref ex items'
        (store_gene isref scaffold gene start end_ strand genesbyscaffold)
  end.

(** [parse_gtf(gtffile, exonstogenes, excludedict, delimiter, isref)] on the
    feature lines of [gtffile].  Without [exonstogenes] the exon tables are
    never bound, and reading [exonboundaries] after a file without gene records
    raises [NameError]. *)
Definition parse_gtf (lines : list gtfline) (exonstogenes : bool)
    (excludedict : option (dict bool)) (delimiter : option string)
    (isref : bool) : res (gtf_index isref) :=
  acc <- parse_gtf_lines exonstogenes excludedict delimiter isref lines
           (empty_index isref, no_exons) ;;
  let (genesbyscaffold, ex) := acc in
  if (0 <? index_len isref genesbyscaffold)%nat then Ok genesbyscaffold
  else if exonstogenes then
    genes_from_exons isref ex (exonboundaries ex) genesbyscaffold
  else Err NameError.
End ParseGtf.

(** ** [parse_tabular_blast] *)

(** A line of the tabular hit file: the four columns that are read. *)
Record blastline : Type := mk_blastline
  { b_qseqid : string;    (* lsplits[0] *)
    b_sseqid : string;    (* lsplits[1] *)
    b_evalue : Q;         (* float(lsplits[10]) *)
    b_bitscore : Q }.     (* float(lsplits[11]) *)

(** The three accumulators of the loop. *)
Record blast_state : Type := mk_blast_state
  { query_to_sub_dict : dict (dict Q);
    query_hits : dict Z;
    evalueRemovals : Z }.

Definition blast_init : blast_state := mk_blast_state [] [] 0.

(** [x > y] on floats. *)
Definition Qgtb (x y : Q) : bool := negb (Qle_bool x y).

(** The trimmed query and subject identifiers of a line. *)
Definition blast_ids (querydelimiter refdelimiter : string) (switchquery : bool)
    (ln : blastline) : res (string * string) :=
  if switchquery then
    queryseq <- rsplit1_head refdelimiter (b_sseqid ln) ;;
    subjectid <- rsplit1_head querydelimiter (b_qseqid ln) ;;
    Ok (queryseq, subjectid)
  else
    queryseq <- rsplit1_head querydelimiter (b_qseqid ln) ;;
    subjectid <- rsplit1_head refdelimiter (b_sseqid ln) ;;
    Ok (queryseq, subjectid).

(** The body of the loop over the lines of the file. *)
Definition parse_blast_line (evaluecutoff : Q) (querydelimiter refdelimiter : string)
    (switchquery : bool) (maxhits : Z) (ln : blastline) (st : blast_state)
    : res blast_state :=
  ids <- blast_ids querydelimiter refdelimiter switchquery ln ;;
  let (queryseq, subjectid) := ids in
  if Qgtb (b_evalue ln) evaluecutoff then
    Ok (mk_blast_state (query_to_sub_dict st) (query_hits st) (evalueRemovals st + 1))
  else if maxhits <=? dict_get_default String.eqb queryseq 0 (query_hits st) then
    Ok st
  else
    let bitscore := b_bitscore ln in
    Ok (mk_blast_state
          (sset queryseq
             (sset subjectid bitscore
                (dict_get_default String.eqb queryseq [] (query_to_sub_dict st)))
             (query_to_sub_dict st))
          (sset queryseq
             (dict_get_default String.eqb queryseq 0 (query_hits st) + 1)
             (query_hits st))
          (evalueRemovals st)).

Fixpoint parse_blast_lines (evaluecutoff : Q) (querydelimiter refdelimiter : string)
    (switchquery : bool) (maxhits : Z) (lines : list blastline) (st : blast_state)
    : res blast_state :=
  match lines with
  | [] => Ok st
  | ln :: lines' =>
      st' <- parse_blast_line evaluecutoff querydelimiter refdelimiter
               switchquery maxhits ln st ;;
      parse_blast_lines evaluecutoff querydelimiter refdelimiter
        switchquery maxhits lines' st'
  end.

(** [parse_tabular_blast(blasttabfile, evaluecutoff, querydelimiter, refdelimiter,
    switchquery, maxhits)] on the lines of [blasttabfile].  The closing message
    on line 158 reads [queryseq], [subjectid] and [lsplits], which only the
    body of the loop binds: after a file without lines the read raises
    [UnboundLocalError], a [NameError].  The text of the three closing messages
    is not part of the model. *)
Definition parse_tabular_blast (lines : list blastline) (evaluecutoff : Q)
    (querydelimiter refdelimiter : string) (switchquery : bool) (maxhits : Z)
    : res (dict (dict Q)) :=
  st <- parse_blast_lines evaluecutoff querydelimiter refdelimiter
          switchquery maxhits lines blast_init ;;
  match lines with
  | [] => Err NameError
  | _ :: _ => Ok (query_to_sub_dict st)
  end.

(** ** [randomize_genes] *)

Section Randomize.
(** The rearrangement made by [random.shuffle] in this run. *)
Variable shuffle : list string -> list string.

(** First pass: the names in iteration order and their positions by name. *)
Fixpoint collect_genes (refdict : dict (dict querygene))
    (acc : list string * dict querygene) : list string * dict querygene :=
  match refdict with
  | [] => acc
  | (scaffold, genedict) :: refdict' =>
      collect_genes refdict'
        (fold_left
           (fun a kv => (fst a ++ [fst kv], sset (fst kv) (snd kv) (snd a)))
           genedict acc)
  end.

(** Second pass over one scaffold. *)
Fixpoint reassign_scaffold (randomgenelist : list string)
    (genepositions : dict querygene) (scaffold : string)
    (genedict : dict querygene)
    (acc : dict (dict querygene) * nat) : res (dict (dict querygene) * nat) :=
  match genedict with
  | [] => Ok acc
  | (genename, bounds) :: genedict' =>
      let (randomgenesbyscaf, genecounter) := acc in
      match nth_error randomgenelist genecounter with
      | None => Err IndexError
      | Some randomname =>
          pos <- sindex genename genepositions ;;
          reassign_scaffold randomgenelist genepositions scaffold genedict'
            (sset scaffold
               (sset randomname pos
                  (dict_get_default String.eqb scaffold [] randomgenesbyscaf))
               randomgenesbyscaf,
             S genecounter)
      end
  end.

Fixpoint reassign_genes (randomgenelist : list string)
    (genepositions : dict querygene) (refdict : dict (dict querygene))
    (acc : dict (dict querygene) * nat) : res (dict (dict querygene) * nat) :=
  match refdict with
  | [] => Ok acc
  | (scaffold, genedict) :: refdict' =>
      acc' <- reassign_scaffold randomgenelist genepositions scaffold genedict acc ;;
      reassign_genes randomgenelist genepositions refdict' acc'
  end.

Definition randomize_genes (refdict : dict (dict querygene))
    : res (dict (dict querygene)) :=
  let (names, genepositions) := collect_genes refdict ([], []) in
  let randomgenelist := shuffle names in
  acc <- reassign_genes randomgenelist genepositions refdict ([], O) ;;
  Ok (fst acc).
End Randomize.

(** ** [synteny_walk]: streams and state *)

(** Lines written to [sys.stderr]; the comment gives the opening of the text. *)
Inductive message : Type :=
| MsgSearching (min_block max_span : Z)          (* searching for colinear blocks *)
| MsgScanning (scaffold : string) (genes : Z)    (* #1 Scanning scaffold *)
| MsgSkipScaffold (scaffold : string) (genes : Z) (* #1 Only .. genes on scaffold *)
| MsgNoBlast (gene : string)                     (* #2 No blast matches for *)
| MsgAlready (gene scaffold : string)            (* #2 Gene .. already has match *)
| MsgStartWalk (gene scaffold blast_refgene : string) (* #3 Starting walk from *)
| MsgNextTooFar (dist : Z) (next_gene : string)  (* #4 Next gene .. bases away *)
| MsgNoBlastNext (next_gene : string)            (* #4 No blast matches for *)
| MsgMatchTooFar (next_gene next_match : string) (dist : Z) (* #4 .. is too far *)
| MsgMatchFound (next_match next_gene scaffold : string)    (* #5 Match .. found *)
| MsgWrongContig (next_gene next_match next_ref_scaf : string) (* #4 wrong contig *)
| MsgLimit (next_gene startingtrans : string)    (* #3 Limit reached at *)
| MsgFoundBlock (blocklen : Z) (startingtrans scaffold : string) (* # Found block *)
| MsgNewLongest (blocknum blocklen : Z) (scaffold : string) (* New longest block *)
| MsgIgnoreBlock (blocklen : Z)                  (* # Block only contained *)
| MsgTooFew (startingtrans scaffold : string)    (* # Too few genes left from *)
| MsgSplitGenes (splitgenes : Z)                 (* # Found .. possible split genes *)
| MsgMostGenes (genes : Z)                       (* # Most genes on a query scaffold *)
| MsgTotalBlocks (blocks genetotal : Z)          (* # Found .. total putative *)
| MsgAverage (genetotal blocks longest : Z)      (* # Average block is *)
| MsgTotalSpan (basetotal : Z)                   (* # Total block span was *)
| MsgHistogram (blocklen count : Z).             (* one line of the histogram *)

(** Lines written to [wayout]: a pair in the tabular format, and the parent and
    [match_part] features of the GFF format. *)
Inductive outline : Type :=
| TabLine (scaffold refscaffold : string) (blocknum : Z)
    (qgene : string) (qs qe : Z) (qstr : string)
    (rgene : string) (rs re : Z) (rstr : string) (score : Q)
| GffBlock (scaffold : string) (qblockstart qblockend blocklen : Z)
    (strand : string) (blocknum : Z) (refscaffold : string)
    (sblockstart sblockend : Z)
| GffPart (scaffold : string) (qs qe : Z) (score : Q) (qstr : string)
    (blocknum : Z) (rgene : string) (rs re : Z) (rstr : string)
    (j : Z) (qgene : string).

(** The variables of [synteny_walk] that are assigned while it runs, and the two
    streams.  ([accounted_matches] is assigned and never read.) *)
Record wstate : Type := mk_wstate
  { syntenylist : list (string * string);
    blocknum : Z;
    blocklengths : list (Z * Z);
    scaffoldgenecounts : list (Z * Z);
    splitgenes : Z;
    basetotal : Z;
    lastmatch : string;
    querypos : Z * Z;
    subjectpos : Z * Z;
    accounted_query_genes : list string;
    walksteps : Z;
    wayout : list outline;
    stderr : list message }.

Definition set_syntenylist (v : list (string * string)) (s : wstate) : wstate :=
  mk_wstate v (blocknum s) (blocklengths s) (scaffoldgenecounts s) (splitgenes s)
    (basetotal s) (lastmatch s) (querypos s) (subjectpos s)
    (accounted_query_genes s) (walksteps s) (wayout s) (stderr s).

Definition set_blocknum (v : Z) (s : wstate) : wstate :=
  mk_wstate (syntenylist s) v (blocklengths s) (scaffoldgenecounts s) (splitgenes s)
    (basetotal s) (lastmatch s) (querypos s) (subjectpos s)
    (accounted_query_genes s) (walksteps s) (wayout s) (stderr s).

Definition set_blocklengths (v : list (Z * Z)) (s : wstate) : wstate :=
  mk_wstate (syntenylist s) (blocknum s) v (scaffoldgenecounts s) (splitgenes s)
    (basetotal s) (lastmatch s) (querypos s) (subjectpos s)
    (accounted_query_genes s) (walksteps s) (wayout s) (stderr s).

Definition set_scaffoldgenecounts (v : list (Z * Z)) (s : wstate) : wstate :=
  mk_wstate (syntenylist s) (blocknum s) (blocklengths s) v (splitgenes s)
    (basetotal s) (lastmatch s) (querypos s) (subjectpos s)
    (accounted_query_genes s) (walksteps s) (wayout s) (stderr s).

Definition set_splitgenes (v : Z) (s : wstate) : wstate :=
  mk_wstate (syntenylist s) (blocknum s) (blocklengths s) (scaffoldgenecounts s) v
    (basetotal s) (lastmatch s) (querypos s) (subjectpos s)
    (accounted_query_genes s) (walksteps s) (wayout s) (stderr s).

Definition set_basetotal (v : Z) (s : wstate) : wstate :=
  mk_wstate (syntenylist s) (blocknum s) (blocklengths s) (scaffoldgenecounts s)
    (splitgenes s) v (lastmatch s) (querypos s) (subjectpos s)
    (accounted_query_genes s) (walksteps s) (wayout s) (stderr s).

Definition set_lastmatch (v : string) (s : wstate) : wstate :=
  mk_wstate (syntenylist s) (blocknum s) (blocklengths s) (scaffoldgenecounts s)
    (splitgenes s) (basetotal s) v (querypos s) (subjectpos s)
    (accounted_query_genes s) (walksteps s) (wayout s) (stderr s).

Definition set_querypos (v : Z * Z) (s : wstate) : wstate :=
  mk_wstate (syntenylist s) (blocknum s) (blocklengths s) (scaffoldgenecounts s)
    (splitgenes s) (basetotal s) (lastmatch s) v (subjectpos s)
    (accounted_query_genes s) (walksteps s) (wayout s) (stderr s).

Definition set_subjectpos (v : Z * Z) (s : wstate) : wstate :=
  mk_wstate (syntenylist s) (blocknum s) (blocklengths s) (scaffoldgenecounts s)
    (splitgenes s) (basetotal s) (lastmatch s) (querypos s) v
    (accounted_query_genes s) (walksteps s) (wayout s) (stderr s).

Definition set_accounted_query_genes (v : list string) (s : wstate) : wstate :=
  mk_wstate (syntenylist s) (blocknum s) (blocklengths s) (scaffoldgenecounts s)
    (splitgenes s) (basetotal s) (lastmatch s) (querypos s) (subjectpos s)
    v (walksteps s) (wayout s) (stderr s).

Definition set_walksteps (v : Z) (s : wstate) : wstate :=
  mk_wstate (syntenylist s) (blocknum s) (blocklengths s) (scaffoldgenecounts s)
    (splitgenes s) (basetotal s) (lastmatch s) (querypos s) (subjectpos s)
    (accounted_query_genes s) v (wayout s) (stderr s).

(** [wayout.write(line)] *)
Definition write_out (line : outline) (s : wstate) : wstate :=
  mk_wstate (syntenylist s) (blocknum s) (blocklengths s) (scaffoldgenecounts s)
    (splitgenes s) (basetotal s) (lastmatch s) (querypos s) (subjectpos s)
    (accounted_query_genes s) (walksteps s) (wayout s ++ [line]) (stderr s).

(** [sys.stderr.write(line)] *)
Definition write_err (line : message) (s : wstate) : wstate :=
  mk_wstate (syntenylist s) (blocknum s) (blocklengths s) (scaffoldgenecounts s)
    (splitgenes s) (basetotal s) (lastmatch s) (querypos s) (subjectpos s)
    (accounted_query_genes s) (walksteps s) (wayout s) (stderr s ++ [line]).

(** [if is_verbose: sys.stderr.write(line)] *)
Definition verbose (is_verbose : bool) (line : message) (s : wstate) : wstate :=
  if is_verbose then write_err line s else s.

(** The state at the first line of the function body. *)
Definition initial_state : wstate :=
  mk_wstate [] 1 [] [] 0 0 "" (0, 1) (0, 1) [] 0 [] [].

(** How a piece of the walker ends: normally, or by an exception that leaves the
    function; both carry the state reached. *)
Inductive outcome : Type :=
| Normal (s : wstate)
| Raised (e : exn) (s : wstate).

Definition final_state (o : outcome) : wstate :=
  match o with
  | Normal s => s
  | Raised _ s => s
  end.

Definition and_then (o : outcome) (k : wstate -> outcome) : outcome :=
  match o with
  | Normal s => k s
  | Raised e s => Raised e s
  end.

(** A dictionary lookup inside the walker. *)
Definition lookup_or_raise {V : Type} (k : string) (d : dict V) (s : wstate)
    (cont : V -> outcome) : outcome :=
  match sget k d with
  | Some v => cont v
  | None => Raised (KeyError k) s
  end.

(** How the body of a loop ends: [Next] goes on with the following item
    ([continue], or the end of the body), [Break] leaves the loop, [Raise] leaves
    the function.  As the result of a whole [for] loop, [Next] says that the loop
    ran out of items, which is when its [else] clause runs. *)
Inductive flow : Type :=
| Next (s : wstate)
| Break (s : wstate)
| Raise (e : exn) (s : wstate).

(** ** [synteny_walk]: the walk *)

Definition by_name {V : Type} (y x : string * V) : bool :=
  String.ltb (fst y) (fst x).

Definition by_start (y x : string * querygene) : bool :=
  qstart (snd y) <? qstart (snd x).

(** [key=lambda x: x[1], reverse=True] *)
Definition by_score_desc (y x : string * Q) : bool := Qgtb (snd y) (snd x).

Definition by_blocklen (y x : Z * Z) : bool := fst y <? fst x.

Definition last_error {A : Type} (l : list A) : option A :=
  match l with
  | [] => None
  | x :: l' => Some (last l' x)
  end.

Definition no_synteny_message : string :=
  "### NO SYNTENY DETECTED, CHECK GENE ID FORMAT PARAMTERS -Q -D".

Section Walk.
Variable blastdict : dict (dict Q).
Variable refdict : dict refgene.
Variables min_block max_span max_distance : Z.
Variables is_verbose make_gff : bool.

(** *** Lines 259-284: one blast hit of the next gene *)
Definition scan_match (scaffold blast_refgene refscaffold next_gene : string)
    (next_match : string) (s : wstate) : flow :=
  if String.eqb next_match blast_refgene then
    Next (set_accounted_query_genes (accounted_query_genes s ++ [next_gene]) s)
  else
    match sget next_match refdict with
    | None => Raise (KeyError next_match) s
    | Some r =>
        let next_ref_scaf := rscaffold r in
        let next_ref_pos := (rstart r, rend r) in
        if String.eqb next_ref_scaf refscaffold then
          let dist_to_next_ref := fst next_ref_pos - snd (subjectpos s) in
          let dist_to_prev_ref := fst (subjectpos s) - snd next_ref_pos in
          if (max_distance <? dist_to_next_ref)
             || (max_distance <? dist_to_prev_ref) then
            Next (verbose is_verbose
                    (MsgMatchTooFar next_gene next_match
                       (Z.max dist_to_next_ref dist_to_prev_ref)) s)
          else
            let s1 := verbose is_verbose
                        (MsgMatchFound next_match next_gene scaffold) s in
            let s2 := set_walksteps max_span s1 in
            let s3 := set_subjectpos next_ref_pos s2 in
            let s4 := set_accounted_query_genes
                        (accounted_query_genes s3 ++ [next_gene]) s3 in
            Break (set_syntenylist
                     (syntenylist s4 ++ [(next_gene, next_match)]) s4)
        else
          Next (verbose is_verbose
                  (MsgWrongContig next_gene next_match next_ref_scaf) s)
    end.

(** *** Line 258: the loop over the sorted hits of the next gene *)
Fixpoint scan_matches (scaffold blast_refgene refscaffold next_gene : string)
    (matches : list (string * Q)) (s : wstate) : flow :=
  match matches with
  | [] => Next s
  | (next_match, bitscoreN) :: matches' =>
      match scan_match scaffold blast_refgene refscaffold next_gene next_match s with
      | Next s' =>
          scan_matches scaffold blast_refgene refscaffold next_gene matches' s'
      | Break s' => Break s'
      | Raise e s' => Raise e s'
      end
  end.

(** *** Lines 242-290: one step of the walk *)
Definition walk_gene (scaffold startingtrans blast_refgene refscaffold : string)
    (next : string * querygene) (s : wstate) : flow :=
  let (next_gene, next_gene_info) := next in
  if 0 <? walksteps s then
    let dist_to_next_query := qstart next_gene_info - snd (querypos s) in
    if max_distance <? dist_to_next_query then
      Break (verbose is_verbose (MsgNextTooFar dist_to_next_query next_gene) s)
    else
      let s1 := set_querypos (qstart next_gene_info, qend next_gene_info) s in
      match sget next_gene blastdict with
      | None =>
          let s2 := verbose is_verbose (MsgNoBlastNext next_gene) s1 in
          Next (set_walksteps (walksteps s2 - 1) s2)
      | Some next_match_dict =>
          match scan_matches scaffold blast_refgene refscaffold next_gene
                  (sorted by_score_desc next_match_dict) s1 with
          | Break s2 => Next s2
          | Next s2 => Next (set_walksteps (walksteps s2 - 1) s2)
          | Raise e s2 => Raise e s2
          end
      end
  else Break (verbose is_verbose (MsgLimit next_gene startingtrans) s).

(** *** Line 241: the loop over [orderedtranslist[i+1:]] *)
Fixpoint walk_genes (scaffold startingtrans blast_refgene refscaffold : string)
    (genes : list (string * querygene)) (s : wstate) : outcome :=
  match genes with
  | [] => Normal s
  | next :: genes' =>
      match walk_gene scaffold startingtrans blast_refgene refscaffold next s with
      | Next s' =>
          walk_genes scaffold startingtrans blast_refgene refscaffold genes' s'
      | Break s' => Normal s'
      | Raise e s' => Raised e s'
      end
  end.

(** *** Lines 325-327: the lines of a block in the tabular format *)
Fixpoint write_tab_lines (scaffold refscaffold : string)
    (transdict : dict querygene) (pairs : list (string * string))
    (s : wstate) : outcome :=
  match pairs with
  | [] => Normal s
  | pr :: pairs' =>
      lookup_or_raise (fst pr) transdict s (fun q =>
      lookup_or_raise (snd pr) refdict s (fun r =>
      lookup_or_raise (fst pr) blastdict s (fun hits =>
      lookup_or_raise (snd pr) hits s (fun score =>
        write_tab_lines scaffold refscaffold transdict pairs'
          (write_out
             (TabLine scaffold refscaffold (blocknum s) (fst pr)
                (qstart q) (qend q) (qstrand q) (snd pr)
                (rstart r) (rend r) (rstrand r) score) s)))))
  end.

(** *** Lines 319-321: the [match_part] lines of a block *)
Fixpoint write_gff_parts (scaffold : string) (transdict : dict querygene)
    (j : Z) (pairs : list (string * string)) (s : wstate) : outcome :=
  match pairs with
  | [] => Normal s
  | pr :: pairs' =>
      lookup_or_raise (fst pr) transdict s (fun q =>
      lookup_or_raise (fst pr) blastdict s (fun hits =>
      lookup_or_raise (snd pr) hits s (fun score =>
      lookup_or_raise (snd pr) refdict s (fun r =>
        write_gff_parts scaffold transdict (j + 1) pairs'
          (write_out
             (GffPart scaffold (qstart q) (qend q) score (qstrand q)
                (blocknum s) (snd pr) (rstart r) (rend r) (rstrand r)
                (j + 1) (fst pr)) s)))))
  end.

(** *** Lines 292-331: keep the chain as a block, or drop it *)
Definition write_block (scaffold startingtrans refscaffold : string)
    (transdict : dict querygene) (s : wstate) : outcome :=
  let blocklen := Z.of_nat (List.length (syntenylist s)) in
  if min_block <=? blocklen then
    let s1 := verbose is_verbose (MsgFoundBlock blocklen startingtrans scaffold) s in
    let s2 :=
      match py_max (map fst (blocklengths s1)) with
      | Some longest =>
          if longest <? blocklen
          then write_err (MsgNewLongest (blocknum s1) blocklen scaffold) s1
          else s1
      | None => write_err (MsgNewLongest (blocknum s1) blocklen scaffold) s1
      end in
    match hd_error (syntenylist s2), last_error (syntenylist s2) with
    | Some first, Some final =>
        lookup_or_raise (fst first) transdict s2 (fun qfirst =>
        lookup_or_raise (fst final) transdict s2 (fun qfinal =>
        lookup_or_raise (snd first) refdict s2 (fun rfirst =>
        lookup_or_raise (snd final) refdict s2 (fun rfinal =>
          let qblockstart := qstart qfirst in
          let qblockend := qend qfinal in
          let sblockstart := rstart rfirst in
          let sblockend := rend rfinal in
          let s3 := set_basetotal (basetotal s2 + (qblockend - qblockstart)) s2 in
          let s4 := set_blocklengths (zincr blocklen (blocklengths s3)) s3 in
          let forward := sblockstart <? sblockend in
          let strand := if forward then "+" else "-" in
          let sblockstart' := if forward then sblockstart else sblockend in
          let sblockend' := if forward then sblockend else sblockstart in
          and_then
            (if make_gff then
               write_gff_parts scaffold transdict 0 (syntenylist s4)
                 (write_out
                    (GffBlock scaffold qblockstart qblockend blocklen strand
                       (blocknum s4) refscaffold sblockstart' sblockend') s4)
             else
               write_tab_lines scaffold refscaffold transdict (syntenylist s4) s4)
            (fun s5 => Normal (set_blocknum (blocknum s5 + 1) s5))))))
    | _, _ => Raised IndexError s2
    end
  else Normal (verbose is_verbose (MsgIgnoreBlock blocklen) s).

(** *** Lines 222-335: one blast hit of the starting gene *)
Definition try_candidate (scaffold : string) (transdict : dict querygene)
    (orderedtranslist : list (string * querygene)) (i : nat) (genesonscaff : Z)
    (startingtrans blast_refgene : string) (s : wstate) : outcome :=
  let s1 := if String.eqb blast_refgene (lastmatch s)
            then set_splitgenes (splitgenes s + 1) s else s in
  if existsb (String.eqb startingtrans) (accounted_query_genes s1) then
    Normal (verbose is_verbose (MsgAlready startingtrans scaffold) s1)
  else
    let s2 := set_syntenylist [(startingtrans, blast_refgene)] s1 in
    and_then
      (if Z.of_nat i <? genesonscaff - 1 then
         let s3 := verbose is_verbose
                     (MsgStartWalk startingtrans scaffold blast_refgene) s2 in
         lookup_or_raise blast_refgene refdict s3 (fun r =>
           let refscaffold := rscaffold r in
           let s4 := set_subjectpos (rstart r, rend r) s3 in
           and_then
             (walk_genes scaffold startingtrans blast_refgene refscaffold
                (skipn (S i) orderedtranslist) s4)
             (write_block scaffold startingtrans refscaffold transdict))
       else Normal (verbose is_verbose (MsgTooFew startingtrans scaffold) s2))
      (fun s5 => Normal (set_lastmatch blast_refgene s5)).

(** *** Line 221: the loop over the sorted hits of the starting gene *)
Fixpoint try_candidates (scaffold : string) (transdict : dict querygene)
    (orderedtranslist : list (string * querygene)) (i : nat) (genesonscaff : Z)
    (startingtrans : string) (hits : list (string * Q)) (s : wstate) : outcome :=
  match hits with
  | [] => Normal s
  | (blast_refgene, bitscore1) :: hits' =>
      and_then
        (try_candidate scaffold transdict orderedtranslist i genesonscaff
           startingtrans blast_refgene s)
        (try_candidates scaffold transdict orderedtranslist i genesonscaff
           startingtrans hits')
  end.

(** *** Lines 209-335: one starting gene *)
Definition walk_anchor (scaffold : string) (transdict : dict querygene)
    (orderedtranslist : list (string * querygene)) (genesonscaff : Z)
    (i : nat) (querygene_tuple : string * querygene) (s : wstate) : outcome :=
  let s1 := set_walksteps max_span s in
  let startingtrans := fst querygene_tuple in
  let s2 := set_querypos
              (qstart (snd querygene_tuple), qend (snd querygene_tuple)) s1 in
  match sget startingtrans blastdict with
  | None => Normal (verbose is_verbose (MsgNoBlast startingtrans) s2)
  | Some blastrefmatch_dict =>
      try_candidates scaffold transdict orderedtranslist i genesonscaff
        startingtrans (sorted by_score_desc blastrefmatch_dict) s2
  end.

(** *** Line 208: the loop over [enumerate(orderedtranslist)] *)
Fixpoint walk_anchors (scaffold : string) (transdict : dict querygene)
    (orderedtranslist : list (string * querygene)) (genesonscaff : Z)
    (i : nat) (genes : list (string * querygene)) (s : wstate) : outcome :=
  match genes with
  | [] => Normal s
  | querygene_tuple :: genes' =>
      and_then
        (walk_anchor scaffold transdict orderedtranslist genesonscaff
           i querygene_tuple s)
        (walk_anchors scaffold transdict orderedtranslist genesonscaff
           (S i) genes')
  end.

(** *** Lines 198-335: one query scaffold *)
Definition walk_scaffold (scaffold : string) (transdict : dict querygene)
    (s : wstate) : outcome :=
  let orderedtranslist := sorted by_start transdict in
  let genesonscaff := Z.of_nat (List.length orderedtranslist) in
  let s1 := set_scaffoldgenecounts
              (zincr genesonscaff (scaffoldgenecounts s)) s in
  let s2 := verbose is_verbose (MsgScanning scaffold genesonscaff) s1 in
  if genesonscaff <? min_block then
    Normal (verbose is_verbose (MsgSkipScaffold scaffold genesonscaff) s2)
  else
    walk_anchors scaffold transdict orderedtranslist genesonscaff
      O orderedtranslist (set_accounted_query_genes [] s2).

(** *** Line 197: the loop over the sorted scaffolds *)
Fixpoint walk_scaffolds (scaffolds : list (string * dict querygene))
    (s : wstate) : outcome :=
  match scaffolds with
  | [] => Normal s
  | (scaffold, transdict) :: scaffolds' =>
      and_then (walk_scaffold scaffold transdict s) (walk_scaffolds scaffolds')
  end.

(** *** Lines 336-347: the summary and the exit without blocks *)
Definition report (s : wstate) : outcome :=
  let s1 := write_err (MsgSplitGenes (splitgenes s)) s in
  match py_max (map fst (scaffoldgenecounts s1)) with
  | None => Raised ValueError s1
  | Some most =>
      let s2 := write_err (MsgMostGenes most) s1 in
      let genetotal := py_sum (map (fun xy => fst xy * snd xy) (blocklengths s2)) in
      let blocks := py_sum (map snd (blocklengths s2)) in
      let s3 := write_err (MsgTotalBlocks blocks genetotal) s2 in
      if (List.length (blocklengths s3) =? 0)%nat then
        Raised (SystemExit no_synteny_message) s3
      else if blocks =? 0 then Raised ZeroDivisionError s3
      else
        match py_max (map fst (blocklengths s3)) with
        | None => Raised ValueError s3
        | Some longest =>
            let s4 := write_err (MsgAverage genetotal blocks longest) s3 in
            let s5 := write_err (MsgTotalSpan (basetotal s4)) s4 in
            Normal
              (fold_left
                 (fun st kv => write_err (MsgHistogram (fst kv) (snd kv)) st)
                 (sorted by_blocklen (blocklengths s5)) s5)
        end
  end.

(** *** [synteny_walk(querydict, blastdict, refdict, min_block, max_span,
    max_distance, is_verbose, wayout, make_gff)] *)
Definition synteny_walk (querydict : dict (dict querygene)) : outcome :=
  let s := write_err (MsgSearching min_block max_span) initial_state in
  and_then (walk_scaffolds (sorted by_name querydict) s) report.
End Walk.

(** ** [main] *)

(** The parsed command line together with the contents of the files it names.
    The progress lines that [main] and the parsers write to [sys.stderr] are not
    part of the model. *)
Record invocation : Type := mk_invocation
  { query_gtf : list gtfline;               (* -q *)
    db_gtf : list gtfline;                  (* -d *)
    blast : list blastline;                 (* -b *)
    query_delimiter : option string;        (* -Q *)
    db_delimiter : option string;           (* -D *)
    blast_query_delimiter : string;
    blast_db_delimiter : string;
    evalue : Q;                             (* -e *)
    exclude : option (list string);         (* -E: the stripped lines of the file *)
    no_genes : bool;                        (* -g *)
    minimum : Z;                            (* -m *)
    span : Z;                               (* -s *)
    distance : Z;                           (* -z *)
    make_gff_flag : bool;                   (* -G *)
    randomize : bool;                       (* -R *)
    switch_query : bool;                    (* -S *)
    verbose_flag : bool }.                  (* -v *)

(** An argument of a call: given, or left out. *)
Inductive argument (A : Type) : Type :=
| Given (a : A)
| Missing.
Arguments Missing {A}.

(** What the name [querydict] is bound to in [main]: the dictionary returned by
    [parse_gtf], or a 2-tuple of such a dictionary and a delimiter. *)
Inductive query_value : Type :=
| QueryDict (d : dict (dict querygene))
| QueryTuple (d : dict (dict querygene)) (delimiter : option string).

(** [querydict.items()]: a tuple has no attribute [items]. *)
Definition items (q : query_value) : res (dict (dict querygene)) :=
  match q with
  | QueryDict d => Ok d
  | QueryTuple _ _ => Err AttributeError
  end.

(** Lines 382-387: the exclusion list.  [term[0]] of an empty line raises
    [IndexError]. *)
Fixpoint read_exclusions (terms : list string) (exclusionDict : dict bool)
    : res (dict bool) :=
  match terms with
  | [] => Ok exclusionDict
  | term :: terms' =>
      match term with
      | EmptyString => Err IndexError
      | String c rest =>
          let term' := if Ascii.eqb c ">" then rest else term in
          read_exclusions terms' (sset term' true exclusionDict)
      end
  end.

Section Main.
Variable re_search : pattern -> string -> option string.
Variable shuffle : list string -> list string.

(** A call of [parse_gtf].  Its parameters [gtffile], [exonstogenes],
    [excludedict] and [delimiter] have no default value: a call that leaves
    [delimiter] out raises [TypeError] before the body runs. *)
Definition call_parse_gtf (gtffile : list gtfline) (exonstogenes : bool)
    (excludedict : option (dict bool)) (delimiter : argument (option string))
    (isref : bool) : res (gtf_index isref) :=
  match delimiter with
  | Missing => Err TypeError
  | Given d => parse_gtf re_search gtffile exonstogenes excludedict d isref
  end.

(** Lines 380-390 *)
Definition load_exclusions (a : invocation) : res (option (dict bool)) :=
  match exclude a with
  | Some terms => d <- read_exclusions terms [] ;; Ok (Some d)
  | None => Ok None
  end.

(** Lines 393-400: the three dictionaries.  With [-S] the call on line 394
    passes three arguments and pairs the result with the delimiter. *)
Definition setup_dictionaries (a : invocation) (exclusionDict : option (dict bool))
    : res (query_value * dict refgene * dict (dict Q)) :=
  if switch_query a then
    d <- call_parse_gtf (db_gtf a) (no_genes a) exclusionDict Missing false ;;
    let querydict := QueryTuple d (db_delimiter a) in
    refdict <- call_parse_gtf (query_gtf a) (no_genes a) exclusionDict
                 (Given (query_delimiter a)) true ;;
    blastdict <- parse_tabular_blast (blast a) (evalue a)
                   (blast_query_delimiter a) (blast_db_delimiter a)
                   (switch_query a) 100 ;;
    Ok (querydict, refdict, blastdict)
  else
    d <- call_parse_gtf (query_gtf a) (no_genes a) exclusionDict
           (Given (query_delimiter a)) false ;;
    let querydict := QueryDict d in
    refdict <- call_parse_gtf (db_gtf a) (no_genes a) exclusionDict
                 (Given (db_delimiter a)) true ;;
    blastdict <- parse_tabular_blast (blast a) (evalue a)
                   (blast_query_delimiter a) (blast_db_delimiter a)
                   false 100 ;;
    Ok (querydict, refdict, blastdict).

(** Lines 403-404 *)
Definition maybe_randomize (a : invocation) (querydict : query_value)
    : res query_value :=
  if randomize a then
    d <- items querydict ;;
    d' <- randomize_genes shuffle d ;;
    Ok (QueryDict d')
  else Ok querydict.

(** [main(argv, wayout)] after the command line has been parsed.  An exception
    raised before [synteny_walk] is entered leaves both streams of the walker
    empty. *)
Definition main (a : invocation) : outcome :=
  let minimum' := if minimum a <? 2 then 2 else minimum a in
  let prepared :=
    exclusionDict <- load_exclusions a ;;
    dicts <- setup_dictionaries a exclusionDict ;;
    let '(querydict, refdict, blastdict) := dicts in
    querydict' <- maybe_randomize a querydict ;;
    Ok (querydict', refdict, blastdict) in
  match prepared with
  | Err e => Raised e initial_state
  | Ok (querydict, refdict, blastdict) =>
      match items querydict with
      | Err e =>
          Raised e (write_err (MsgSearching minimum' (span a)) initial_state)
      | Ok d =>
          synteny_walk blastdict refdict minimum' (span a) (distance a)
            (verbose_flag a) (make_gff_flag a) d
      end
  end.
End Main.

(** * Notions used in the statements *)

(** The [#3 Starting walk] lines of the diagnostic stream: one per chain that is
    started. *)
Definition is_start_walk (m : message) : bool :=
  match m with
  | MsgStartWalk _ _ _ => true
  | _ => false
  end.

Definition walks_started (log : list message) : list message :=
  filter is_start_walk log.

(** The block counters and the output stream agree between two states. *)
Definition same_books (s s' : wstate) : Prop :=
  blocknum s' = blocknum s /\
  blocklengths s' = blocklengths s /\
  wayout s' = wayout s /\
  scaffoldgenecounts s' = scaffoldgenecounts s.

(** From [s] to [s'] blocks were only added: the block number did not go down; if
    it is the same, the histogram and the output are the same; if it went up,
    neither is empty. *)
Definition grows (s s' : wstate) : Prop :=
  blocknum s <= blocknum s' /\
  (blocknum s' = blocknum s ->
     blocklengths s' = blocklengths s /\ wayout s' = wayout s) /\
  (blocknum s < blocknum s' -> blocklengths s' <> [] /\ wayout s' <> []) /\
  (scaffoldgenecounts s <> [] -> scaffoldgenecounts s' <> []).

(** What a walk over the genes [names] may change: the block counters and the
    output stay as they are, no chain is started, and only genes among [names]
    are added to [accounted_query_genes]. *)
Definition walk_frame (names : list string) (s s' : wstate) : Prop :=
  same_books s s' /\
  walks_started (stderr s') = walks_started (stderr s) /\
  (forall g, In g (accounted_query_genes s') ->
             In g (accounted_query_genes s) \/ In g names).

(** What writing the lines of a block changes: only the output, by as many
    lines as there are pairs. *)
Definition lines_frame (pairs : list (string * string)) (s s' : wstate) : Prop :=
  blocknum s' = blocknum s /\
  blocklengths s' = blocklengths s /\
  scaffoldgenecounts s' = scaffoldgenecounts s /\
  stderr s' = stderr s /\
  accounted_query_genes s' = accounted_query_genes s /\
  exists lines, wayout s' = wayout s ++ lines /\
                List.length lines = List.length pairs.

(** What writing a chain as a block, or dropping it, may change. *)
Definition block_frame (s s' : wstate) : Prop :=
  grows s s' /\
  walks_started (stderr s') = walks_started (stderr s) /\
  accounted_query_genes s' = accounted_query_genes s.

(** The number of blocks kept so far: [blocknum] starts at 1 and goes up by one
    with each block. *)
Definition blocks_found (s : wstate) : Z := blocknum s - 1.

(** The exon lines that [parse_gtf] collects for the gene name [gene]: lines
    outside the excluded scaffolds with feature exon whose attributes yield
    [gene]. *)
Definition collects (re_search : pattern -> string -> option string)
    (excludedict : option (dict bool)) (gene : string) (ln : gtfline) : bool :=
  negb (excluded excludedict (g_scaffold ln))
  && String.eqb (g_feature ln) "exon"
  && match search_id re_search pat_gene_id pat_name (g_attributes ln) with
     | Ok g => String.eqb g gene
     | Err _ => false
     end.

Definition exon_records (re_search : pattern -> string -> option string)
    (excludedict : option (dict bool)) (lines : list gtfline) (gene : string)
    : list gtfline :=
  filter (collects re_search excludedict gene) lines.

(** A line that [parse_gtf] reads as a gene record. *)
Definition gene_record (excludedict : option (dict bool)) (ln : gtfline) : bool :=
  negb (excluded excludedict (g_scaffold ln)) && is_gene_feature (g_feature ln).

(** The entry of the index returned by [parse_gtf] for [gene]: in a reference
    index the name alone is the key, in a query index the scaffold and the name. *)
Definition index_entry (isref : bool) : gtf_index isref ->
    string -> string -> Z -> Z -> string -> Prop :=
  match isref return gtf_index isref -> string -> string -> Z -> Z -> string -> Prop
  with
  | true => fun d scaffold gene start end_ strand =>
      sget gene d = Some (mk_refgene scaffold start end_ strand)
  | false => fun d scaffold gene start end_ strand =>
      exists genes, sget scaffold d = Some genes /\
                    sget gene genes = Some (mk_querygene start end_ strand)
  end.

(** The bounds kept for an exon line. *)
Definition exon_bounds (ln : gtfline) : Z * Z := (g_start ln, g_end ln).

(** The exon tables hold what the lines read so far say: the bounds of the exon
    lines of each gene in file order, and the strand and scaffold of the last
    one. *)
Definition tables_hold (re_search : pattern -> string -> option string)
    (excludedict : option (dict bool)) (lines : list gtfline) (ex : exon_tables)
    : Prop :=
  NoDup (map fst (exonboundaries ex)) /\
  forall gene,
    match last_error (exon_records re_search excludedict lines gene) with
    | None => sget gene (exonboundaries ex) = None
    | Some final =>
        sget gene (exonboundaries ex)
        = Some (map exon_bounds (exon_records re_search excludedict lines gene)) /\
        sget gene (nametostrand ex) = Some (g_strand final) /\
        sget gene (nametoscaffold ex) = Some (g_scaffold final)
    end.

(** The hits stored for a query, the score stored for a pair, and the hits
    counted for a query in a state of [parse_tabular_blast]. *)
Definition candidates (st : blast_state) (queryseq : string) : dict Q :=
  dict_get_default String.eqb queryseq [] (query_to_sub_dict st).

Definition stored_score (st : blast_state) (queryseq subjectid : string)
    : option Q :=
  sget subjectid (candidates st queryseq).

Definition hits_counted (st : blast_state) (queryseq : string) : Z :=
  dict_get_default String.eqb queryseq 0 (query_hits st).

(** No query has more subjects stored than hits counted. *)
Definition stored_le_counted (st : blast_state) : Prop :=
  forall queryseq,
    Z.of_nat (List.length (candidates st queryseq)) <= hits_counted st queryseq.

(** * Inputs used in the examples *)

Definition gene (s e : Z) : querygene := mk_querygene s e "+".
Definition ref_on (scaffold : string) (s e : Z) : refgene :=
  mk_refgene scaffold s e "+".

(** Three genes; [g1] and [g3] have hits on reference scaffold S1, [g2] and [g3]
    have hits on S2. *)
Definition shared_querydict : dict (dict querygene) :=
  [("X", [("g1", gene 1 100); ("g2", gene 200 300); ("g3", gene 400 500)])].
Definition shared_refdict : dict refgene :=
  [("r1", ref_on "S1" 100 200); ("r3", ref_on "S1" 300 400);
   ("q2", ref_on "S2" 100 200); ("q3", ref_on "S2" 300 400)].
Definition shared_blastdict : dict (dict Q) :=
  [("g1", [("r1", 50#1)]); ("g2", [("q2", 50#1)]);
   ("g3", [("r3", 60#1); ("q3", 40#1)])].

(** Three genes; the only hit of [g2] is r1, the hit of [g1]. *)
Definition split_querydict : dict (dict querygene) := shared_querydict.
Definition split_refdict : dict refgene :=
  [("r1", ref_on "S1" 100 200); ("r3", ref_on "S1" 300 400)].
Definition split_blastdict : dict (dict Q) :=
  [("g1", [("r1", 50#1)]); ("g2", [("r1", 50#1)]); ("g3", [("r3", 60#1)])].

(** Four genes; [g1] and [g2] chain on S1, [g2], [g3] and [g4] chain on S2. *)
Definition four_querydict : dict (dict querygene) :=
  [("X", [("g1", gene 1 100); ("g2", gene 200 300);
          ("g3", gene 400 500); ("g4", gene 600 700)])].
Definition discard_refdict : dict refgene :=
  [("r1", ref_on "S1" 100 200); ("r2", ref_on "S1" 300 400);
   ("q2", ref_on "S2" 100 200); ("q3", ref_on "S2" 300 400);
   ("q4", ref_on "S2" 500 600)].
Definition discard_blastdict : dict (dict Q) :=
  [("g1", [("r1", 50#1)]); ("g2", [("r2", 50#1); ("q2", 40#1)]);
   ("g3", [("q3", 60#1)]); ("g4", [("q4", 60#1)])].

Definition four_genes : list (string * querygene) :=
  [("g1", gene 1 100); ("g2", gene 200 300);
   ("g3", gene 400 500); ("g4", gene 600 700)].


(** Two genes with two hits each, one pair of hits on S1 and one on S2. *)
Definition twin_querydict : dict (dict querygene) :=
  [("X", [("g1", gene 1 100); ("g2", gene 200 300)])].
Definition twin_refdict : dict refgene :=
  [("rA", ref_on "S1" 100 200); ("rA2", ref_on "S1" 300 400);
   ("rB", ref_on "S2" 100 200); ("rB2", ref_on "S2" 300 400)].
Definition twin_blastdict : dict (dict Q) :=
  [("g1", [("rA", 90#1); ("rB", 80#1)]); ("g2", [("rA2", 90#1); ("rB2", 80#1)])].

Definition scenario_blastdict (c1 c2 c4 : Q) : dict (dict Q) :=
  [("g1", [("r1", c1)]); ("g2", [("r2", c2)]); ("g4", [("r4", c4)])].

(** A command line with [-S]: one exon line in each annotation file, one hit. *)
Definition switched_invocation : invocation :=
  mk_invocation
    [mk_gtfline "X" "exon" 1 100 "+" "g1"]
    [mk_gtfline "S" "exon" 100 200 "+" "r1"]
    [mk_blastline "g1" "r1" (1#100000) (50#1)]
    None None "|" "|" (1#10000) None true 3 5 30000 false false true false.

(** Two hits of one query against one subject, named by transcript, and a third
    hit against another subject. *)
Definition first_hit : blastline := mk_blastline "g1.t1" "r1.t1" (1#100000) (50#1).
Definition second_hit : blastline := mk_blastline "g1.t2" "r1.t2" (1#100000) (60#1).
Definition third_hit : blastline := mk_blastline "g1.t1" "r2.t1" (1#100000) (70#1).

(** Two exon lines of one gene; the second starts first and is on the other
    strand. *)
Definition two_exon_lines : list gtfline :=
  [mk_gtfline "X" "exon" 10 50 "+" "g1"; mk_gtfline "X" "exon" 5 20 "-" "g1"].

(** A stand-in for [re.search] in the examples: the attributes are the name. *)
Definition whole_attribute (p : pattern) (attributes : string) : option string :=
  Some attributes.

(** * Further notions: the output of the walker *)

(** The block number on a line of the output. *)
Definition line_block (l : outline) : Z :=
  match l with
  | TabLine _ _ n _ _ _ _ _ _ _ _ _ => n
  | GffBlock _ _ _ _ _ n _ _ _ => n
  | GffPart _ _ _ _ _ n _ _ _ _ _ _ => n
  end.

(** The lines that stand for one pair of a block. *)
Definition is_pair_line (l : outline) : bool :=
  match l with
  | GffBlock _ _ _ _ _ _ _ _ _ => false
  | _ => true
  end.

Definition pair_lines (out : list outline) : list outline :=
  filter is_pair_line out.

(** The pair lines of block [n]. *)
Definition block_lines (n : Z) (out : list outline) : list outline :=
  filter (fun l => line_block l =? n) (pair_lines out).

(** The query scaffold named on a line of the output. *)
Definition line_scaffold (l : outline) : string :=
  match l with
  | TabLine scaffold _ _ _ _ _ _ _ _ _ _ _ => scaffold
  | GffBlock scaffold _ _ _ _ _ _ _ _ => scaffold
  | GffPart scaffold _ _ _ _ _ _ _ _ _ _ _ => scaffold
  end.

(** The reference scaffold named on a line, if the line names one. *)
Definition line_refscaffold (l : outline) : option string :=
  match l with
  | TabLine _ refscaffold _ _ _ _ _ _ _ _ _ _ => Some refscaffold
  | GffBlock _ _ _ _ _ _ refscaffold _ _ => Some refscaffold
  | GffPart _ _ _ _ _ _ _ _ _ _ _ _ => None
  end.

(** The start of the query gene on a line for a pair. *)
Definition line_qstart (l : outline) : Z :=
  match l with
  | TabLine _ _ _ _ qs _ _ _ _ _ _ _ => qs
  | GffBlock _ qblockstart _ _ _ _ _ _ _ => qblockstart
  | GffPart _ qs _ _ _ _ _ _ _ _ _ _ => qs
  end.

(** [l1] is [l2] with some of its elements left out. *)
Inductive subseq {A : Type} : list A -> list A -> Prop :=
| subseq_nil : subseq [] []
| subseq_skip (x : A) (l1 l2 : list A) : subseq l1 l2 -> subseq l1 (x :: l2)
| subseq_take (x : A) (l1 l2 : list A) : subseq l1 l2 -> subseq (x :: l1) (x :: l2).

(** The block counters and the output agree between two states. *)
Definition same_output (s s' : wstate) : Prop :=
  blocknum s' = blocknum s /\
  blocklengths s' = blocklengths s /\
  wayout s' = wayout s.

(** Every reference gene of the chain is in the reference index, on the scaffold
    [refscaffold]. *)
Definition chain_on (refdict : dict refgene) (refscaffold : string)
    (chain : list (string * string)) : Prop :=
  Forall (fun p => exists r, sget (snd p) refdict = Some r /\
                             rscaffold r = refscaffold) chain.

(** [l] is the line written for the pair [p] of block [n]: its fields are those
    of the query gene in [transdict], of the reference gene in [refdict] and of
    the hit in [blastdict]. *)
Definition pair_line (blastdict : dict (dict Q)) (refdict : dict refgene)
    (scaffold refscaffold : string) (transdict : dict querygene) (n : Z)
    (p : string * string) (l : outline) : Prop :=
  exists q r hits score,
    sget (fst p) transdict = Some q /\
    sget (snd p) refdict = Some r /\
    sget (fst p) blastdict = Some hits /\
    sget (snd p) hits = Some score /\
    (l = TabLine scaffold refscaffold n (fst p) (qstart q) (qend q) (qstrand q)
           (snd p) (rstart r) (rend r) (rstrand r) score \/
     exists j,
       l = GffPart scaffold (qstart q) (qend q) score (qstrand q) n (snd p)
             (rstart r) (rend r) (rstrand r) j (fst p)).

(** A pair line is backed by the three inputs: the query gene is a gene of the
    named scaffold of [querydict] with these bounds and strand, the reference
    gene is in [refdict] with these bounds and strand (in the tabular format: on
    the named reference scaffold), and the score is the one stored for the pair
    in [blastdict]. *)
Definition line_backed (querydict : dict (dict querygene))
    (blastdict : dict (dict Q)) (refdict : dict refgene) (l : outline) : Prop :=
  match l with
  | TabLine scaffold refscaffold _ qgene qs qe qstr rgene rs re rstr score =>
      (exists transdict, In (scaffold, transdict) querydict /\
                         sget qgene transdict = Some (mk_querygene qs qe qstr)) /\
      sget rgene refdict = Some (mk_refgene refscaffold rs re rstr) /\
      (exists hits, sget qgene blastdict = Some hits /\
                    sget rgene hits = Some score)
  | GffPart scaffold qs qe score qstr _ rgene rs re rstr _ qgene =>
      (exists transdict, In (scaffold, transdict) querydict /\
                         sget qgene transdict = Some (mk_querygene qs qe qstr)) /\
      (exists refscaffold,
          sget rgene refdict = Some (mk_refgene refscaffold rs re rstr)) /\
      (exists hits, sget qgene blastdict = Some hits /\
                    sget rgene hits = Some score)
  | GffBlock _ _ _ _ _ _ _ _ _ => True
  end.

(** * Further notions: the hit file *)

(** A line of the hit file with its first two columns exchanged. *)
Definition swap_columns (ln : blastline) : blastline :=
  mk_blastline (b_sseqid ln) (b_qseqid ln) (b_evalue ln) (b_bitscore ln).

(** The line passes the e-value filter and names the pair [(q, sbj)]. *)
Definition names_pair (evaluecutoff : Q) (querydelimiter refdelimiter : string)
    (switchquery : bool) (q sbj : string) (ln : blastline) : Prop :=
  blast_ids querydelimiter refdelimiter switchquery ln = Ok (q, sbj) /\
  Qgtb (b_evalue ln) evaluecutoff = false.

(** * Further notions: identifiers, the exclusion list and randomized names *)

(** [sep] occurs in [s] at some index. *)
Fixpoint occurs (sep s : string) : bool :=
  match s with
  | EmptyString => false
  | String _ s' => String.prefix sep s || occurs sep s'
  end.

(** A line of the exclusion list without its leading mark. *)
Definition unmarked (term : string) : string :=
  match term with
  | String ">" rest => rest
  | _ => term
  end.

(** The gene names of a query index in the order of iteration. *)
Definition all_names (refdict : dict (dict querygene)) : list string :=
  List.concat (map (fun kv => map fst (snd kv)) refdict).

(** The positions of a query index: for each scaffold with a gene, the bounds
    and strands of its genes in the order of iteration. *)
Definition positions (refdict : dict (dict querygene))
    : list (string * list querygene) :=
  map (fun kv => (fst kv, map snd (snd kv)))
      (filter (fun kv => negb (Nat.eqb (List.length (snd kv)) 0)) refdict).

(** The accumulator of the second pass of [randomize_genes] while [scaffold] is
    rewritten: the scaffolds done and, once it has a gene, [scaffold] with the
    genes it has so far. *)
Definition with_scaffold (done : dict (dict querygene)) (scaffold : string)
    (cur : dict querygene) : dict (dict querygene) :=
  match cur with
  | [] => done
  | _ => done ++ [(scaffold, cur)]
  end.

(** The index that the second pass builds from the names [rs]: each scaffold
    with a gene takes as many names as it has genes and keeps their positions. *)
Fixpoint relabel (rs : list string) (refdict : dict (dict querygene))
    : dict (dict querygene) :=
  match refdict with
  | [] => []
  | (scaffold, genedict) :: rest =>
      with_scaffold [] scaffold
        (combine (firstn (List.length genedict) rs) (map snd genedict))
      ++ relabel (skipn (List.length genedict) rs) rest
  end.

(** * Further inputs *)

(** A gene record with an exon line of its own, and a record on another
    scaffold. *)
Definition gene_and_exon_lines : list gtfline :=
  [mk_gtfline "X" "gene" 5 50 "+" "g1.t1";
   mk_gtfline "X" "exon" 5 20 "+" "g1.t1";
   mk_gtfline "Y" "mRNA" 7 90 "-" "g2.t1"].

(** A command line with an exclusion list and [-m 1]: two query genes on X with
    one hit each on the reference scaffold S, and a gene on the excluded S9. *)
Definition excluding_invocation : invocation :=
  mk_invocation
    [mk_gtfline "X" "gene" 1 100 "+" "g1"; mk_gtfline "X" "gene" 200 300 "+" "g2";
     mk_gtfline "S9" "gene" 1 100 "+" "g9"]
    [mk_gtfline "S" "gene" 100 200 "+" "r1"; mk_gtfline "S" "gene" 400 500 "+" "r2"]
    [mk_blastline "g1" "r1" (1#100000) (50#1);
     mk_blastline "g2" "r2" (1#100000) (60#1)]
    None None "|" "|" (1#10000) (Some [">S9"; "S8"]) false 1 5 30000 false false
    false false.

(** A command line whose exclusion list has a blank line. *)
Definition blank_line_invocation : invocation :=
  mk_invocation [] [] [] None None "|" "|" (1#10000) (Some ["S9"; ""]) false 3 5
    30000 false false false false.

(** Two reference genes on one scaffold; the third query gene of
    [shared_querydict] hits the first of them again. *)
Definition returning_refdict : dict refgene :=
  [("r1", ref_on "S" 100 200); ("r2", ref_on "S" 300 400)].
Definition returning_blastdict : dict (dict Q) :=
  [("g1", [("r1", 50#1)]); ("g2", [("r2", 50#1)]); ("g3", [("r1", 60#1)])].

(** A query index with two scaffolds. *)
Definition two_scaffold_index : dict (dict querygene) :=
  [("X", [("g1", gene 1 100); ("g2", gene 200 300)]); ("Y", [("g3", gene 5 50)])].

(** * Properties *)

Unset Implicit Arguments.

(** ** Runs on the example inputs *)

(** Evaluation of a run: the state is read off the computed result, then each
    stated field is computed. *)
Ltac conj_split :=
  match goal with
  | |- _ /\ _ => split
  end.

Ltac run_walk :=
  eexists;
  repeat (conj_split; [vm_compute; reflexivity|]);
  try (vm_compute; reflexivity).

(** C1 (block exclusivity over query genes), evaluated on the code.  With three
    genes on scaffold X, a minimum block size of 2 and a span of 2, the chain
    started from [g1] skips [g2] and takes [g3], and the chain started from [g2]
    takes [g3] again: the walk over the next genes never consults
    [accounted_query_genes].  Blocks 1 and 2 of scaffold X both hold [g3]. *)
Theorem shared_gene_in_two_blocks :
  exists s,
    synteny_walk shared_blastdict shared_refdict 2 2 1000 false false
      shared_querydict = Normal s /\
    wayout s =
      [TabLine "X" "S1" 1 "g1" 1 100 "+" "r1" 100 200 "+" (50#1);
       TabLine "X" "S1" 1 "g3" 400 500 "+" "r3" 300 400 "+" (60#1);
       TabLine "X" "S2" 2 "g2" 200 300 "+" "q2" 100 200 "+" (50#1);
       TabLine "X" "S2" 2 "g3" 400 500 "+" "q3" 300 400 "+" (40#1)].
Proof.
  run_walk.
Qed.

(** C4 (same-homolog continuation), evaluated on the code.  The only hit of [g2]
    is r1, the hit of the starting gene [g1].  [g2] is put on
    [accounted_query_genes] and no pair is added, but the loop over its hits then
    runs out and its [else] clause takes one step from the budget: with a span
    of 1 the walk stops in front of [g3] and the chain is dropped with one pair.
    With the budget untouched [g3] would have been reached and taken. *)
Theorem same_homolog_spends_budget :
  exists s,
    synteny_walk split_blastdict split_refdict 2 1 1000 true false
      split_querydict = Raised (SystemExit no_synteny_message) s /\
    accounted_query_genes s = ["g2"] /\
    wayout s = [] /\
    stderr s =
      [MsgSearching 2 1; MsgScanning "X" 3;
       MsgStartWalk "g1" "X" "r1"; MsgLimit "g3" "g1"; MsgIgnoreBlock 1;
       MsgAlready "g2" "X"; MsgTooFew "g3" "X";
       MsgSplitGenes 1; MsgMostGenes 3; MsgTotalBlocks 0 0].
Proof.
  run_walk.
Qed.

(** C5 (genes of a discarded chain), evaluated on the code.  With a minimum block
    size of 3 the chain [g1, g2] is dropped with two pairs, yet [g2] stays on
    [accounted_query_genes]: both of its hits are passed over when it becomes the
    starting gene, no walk starts from it, and the block [g2, g3, g4] on S2 is
    never found. *)
Theorem discarded_chain_consumes_genes :
  exists s,
    synteny_walk discard_blastdict discard_refdict 3 3 1000 true false
      four_querydict = Raised (SystemExit no_synteny_message) s /\
    wayout s = [] /\
    stderr s =
      [MsgSearching 3 3; MsgScanning "X" 4;
       MsgStartWalk "g1" "X" "r1"; MsgMatchFound "r2" "g2" "X";
       MsgWrongContig "g3" "q3" "S2"; MsgWrongContig "g4" "q4" "S2";
       MsgIgnoreBlock 2;
       MsgAlready "g2" "X"; MsgAlready "g2" "X";
       MsgStartWalk "g3" "X" "q3"; MsgMatchFound "q4" "g4" "X";
       MsgIgnoreBlock 2; MsgAlready "g4" "X";
       MsgSplitGenes 0; MsgMostGenes 4; MsgTotalBlocks 0 0].
Proof.
  run_walk.
Qed.

(** The same input without the hit of [g1]: [g2] starts a walk for each of its
    hits and the second one is kept as a block of three. *)
Example free_gene_seeds_block :
  exists s,
    synteny_walk (tl discard_blastdict) discard_refdict 3 3 1000 false false
      four_querydict = Normal s /\
    wayout s =
      [TabLine "X" "S2" 1 "g2" 200 300 "+" "q2" 100 200 "+" (40#1);
       TabLine "X" "S2" 1 "g3" 400 500 "+" "q3" 300 400 "+" (60#1);
       TabLine "X" "S2" 1 "g4" 600 700 "+" "q4" 500 600 "+" (60#1)].
Proof.
  run_walk.
Qed.

(** With a span of 2 the walk over the same input does reach [g3]. *)
Example same_homolog_with_span_two :
  exists s,
    synteny_walk split_blastdict split_refdict 2 2 1000 false false
      split_querydict = Normal s /\
    wayout s =
      [TabLine "X" "S1" 1 "g1" 1 100 "+" "r1" 100 200 "+" (50#1);
       TabLine "X" "S1" 1 "g3" 400 500 "+" "r3" 300 400 "+" (60#1)].
Proof.
  run_walk.
Qed.

(** C2 (candidate acceptance rule), evaluated on the code.  The chain started
    from [g1] with its hit r1 takes [g2] with r2: the last reference gene of
    the chain is r2 and the reference position is that of r2.  The hit r1 of
    [g3] lies on the scaffold S of the chain, both distances to the reference
    position are at most [max_distance], and it is not the last reference gene
    of the chain; yet line 259 sets it aside, because it tests the hit against
    [blast_refgene], the hit of the starting gene: [g3] is put on
    [accounted_query_genes], no pair is added, and the block that is written
    holds [g1] and [g2] only. *)
Theorem starting_hit_candidate_not_chained :
  (exists s,
      synteny_walk returning_blastdict returning_refdict 2 2 1000 false false
        shared_querydict = Normal s /\
      wayout s =
        [TabLine "X" "S" 1 "g1" 1 100 "+" "r1" 100 200 "+" (50#1);
         TabLine "X" "S" 1 "g2" 200 300 "+" "r2" 300 400 "+" (50#1)] /\
      accounted_query_genes s = ["g2"; "g3"]) /\
  (forall is_verbose : bool,
      let st := set_subjectpos (300, 400)
                  (set_syntenylist [("g1", "r1"); ("g2", "r2")]
                     (set_accounted_query_genes ["g2"]
                        (set_walksteps 2 initial_state))) in
      last_error (syntenylist st) = Some ("g2", "r2") /\
      sget "r1" returning_refdict = Some (ref_on "S" 100 200) /\
      rscaffold (ref_on "S" 100 200) = "S" /\
      rstart (ref_on "S" 100 200) - snd (subjectpos st) <= 1000 /\
      fst (subjectpos st) - rend (ref_on "S" 100 200) <= 1000 /\
      scan_match returning_refdict 2 1000 is_verbose "X" "r1" "S" "g3" "r1" st
      = Next (set_accounted_query_genes ["g2"; "g3"] st)).
Proof.
  split.
  - run_walk.
  - intros is_verbose. cbv zeta.
    repeat conj_split; vm_compute; congruence.
Qed.

(** The chain started from the best hit r2 of [g2] is dropped with one pair, and
    the second hit q2 of [g2] is tried next; its chain is kept. *)
Lemma second_hit_tried_after_discard :
  exists s,
    synteny_walk (tl discard_blastdict) discard_refdict 3 3 1000 true false
      four_querydict = Normal s /\
    stderr s =
      [MsgSearching 3 3; MsgScanning "X" 4; MsgNoBlast "g1";
       MsgStartWalk "g2" "X" "r2";
       MsgWrongContig "g3" "q3" "S2"; MsgWrongContig "g4" "q4" "S2";
       MsgIgnoreBlock 1;
       MsgStartWalk "g2" "X" "q2";
       MsgMatchFound "q3" "g3" "X"; MsgMatchFound "q4" "g4" "X";
       MsgFoundBlock 3 "g2" "X"; MsgNewLongest 1 3 "X";
       MsgAlready "g3" "X"; MsgAlready "g4" "X";
       MsgSplitGenes 0; MsgMostGenes 4; MsgTotalBlocks 1 3;
       MsgAverage 3 1 3; MsgTotalSpan 500; MsgHistogram 3 1].
Proof.
  run_walk.
Qed.

(** Both hits of [g1] start a chain, and both chains are kept: after block 1 has
    been written the loop goes on with the second hit, and blocks 1 and 2 share
    both genes. *)
Lemma anchor_seeds_two_chains :
  exists s,
    synteny_walk twin_blastdict twin_refdict 2 1 1000 true false twin_querydict
      = Normal s /\
    walks_started (stderr s) =
      [MsgStartWalk "g1" "X" "rA"; MsgStartWalk "g1" "X" "rB"] /\
    wayout s =
      [TabLine "X" "S1" 1 "g1" 1 100 "+" "rA" 100 200 "+" (90#1);
       TabLine "X" "S1" 1 "g2" 200 300 "+" "rA2" 300 400 "+" (90#1);
       TabLine "X" "S2" 2 "g1" 1 100 "+" "rB" 100 200 "+" (80#1);
       TabLine "X" "S2" 2 "g2" 200 300 "+" "rB2" 300 400 "+" (80#1)].
Proof.
  run_walk.
Qed.


(** An empty query index ends the run with [ValueError] on line 337, in front of
    the test for an empty histogram. *)
Example empty_query_index_value_error :
  synteny_walk (scenario_blastdict (50#1) (50#1) (60#1)) discard_refdict
    3 1 1000 false false []
  = Raised ValueError
      (write_err (MsgSplitGenes 0) (write_err (MsgSearching 3 1) initial_state)).
Proof. vm_compute; reflexivity. Qed.


(** ** Dictionaries *)

Lemma dict_set_nonempty {K V : Type} (eqb : K -> K -> bool) k v (d : list (K * V)) :
  dict_set eqb k v d <> [].
Proof.
  destruct d as [|[k' v'] d]; simpl; [discriminate|].
  destruct (eqb k k'); discriminate.
Qed.

Lemma sget_sset_same {V : Type} k (v : V) d : sget k (sset k v d) = Some v.
Proof.
  unfold sget, sset. induction d as [|[k' v'] d IH]; simpl.
  - now rewrite String.eqb_refl.
  - destruct (String.eqb_spec k k') as [->|Hne]; simpl.
    + now rewrite String.eqb_refl.
    + apply String.eqb_neq in Hne. now rewrite Hne.
Qed.

Lemma sget_sset_other {V : Type} k k' (v : V) d :
  k <> k' -> sget k' (sset k v d) = sget k' d.
Proof.
  intros Hne. unfold sget, sset. induction d as [|[k0 v0] d IH]; simpl.
  - destruct (String.eqb_spec k' k); [congruence|reflexivity].
  - destruct (String.eqb_spec k k0) as [->|Hk]; simpl.
    + destruct (String.eqb_spec k' k0); [congruence|reflexivity].
    + destruct (String.eqb_spec k' k0); [reflexivity|exact IH].
Qed.

Lemma sset_length_present {V : Type} k (v old : V) d :
  sget k d = Some old -> List.length (sset k v d) = List.length d.
Proof.
  unfold sget, sset. induction d as [|[k0 v0] d IH]; simpl; [discriminate|].
  destruct (String.eqb k k0); simpl; [reflexivity|].
  intros H. now rewrite IH.
Qed.

Lemma sset_length_le {V : Type} k (v : V) d :
  (List.length (sset k v d) <= S (List.length d))%nat.
Proof.
  unfold sset. induction d as [|[k0 v0] d IH]; simpl; [lia|].
  destruct (String.eqb k k0); simpl; lia.
Qed.

Lemma sset_keys {V : Type} k (v : V) d x :
  In x (map fst (sset k v d)) <-> x = k \/ In x (map fst d).
Proof.
  unfold sset. induction d as [|[k0 v0] d IH]; simpl.
  - intuition.
  - destruct (String.eqb_spec k k0) as [->|Hk]; simpl; [intuition|].
    rewrite IH. intuition.
Qed.

Lemma sset_NoDup {V : Type} k (v : V) d :
  NoDup (map fst d) -> NoDup (map fst (sset k v d)).
Proof.
  unfold sset. induction d as [|[k0 v0] d IH]; simpl; intros Hnd.
  - constructor; [intros []|constructor].
  - destruct (String.eqb_spec k k0) as [->|Hk]; simpl; [exact Hnd|].
    inversion Hnd as [|? ? Hnotin Hnd']; subst.
    constructor; [|now apply IH].
    intros Hin. apply (sset_keys k v d k0) in Hin.
    destruct Hin as [Heq|Hin]; [congruence|contradiction].
Qed.

Lemma sget_In {V : Type} k (v : V) d : sget k d = Some v -> In (k, v) d.
Proof.
  unfold sget. induction d as [|[k0 v0] d IH]; simpl; [discriminate|].
  destruct (String.eqb_spec k k0) as [->|Hk].
  - intros H; inversion H; subst; now left.
  - intros H; right; now apply IH.
Qed.

Lemma In_sget {V : Type} k (v : V) d :
  NoDup (map fst d) -> In (k, v) d -> sget k d = Some v.
Proof.
  unfold sget. induction d as [|[k0 v0] d IH]; simpl; [intros _ []|].
  intros Hnd Hin. inversion Hnd as [|? ? Hnotin Hnd']; subst.
  destruct Hin as [Heq|Hin].
  - inversion Heq; subst. now rewrite String.eqb_refl.
  - destruct (String.eqb_spec k k0) as [->|Hk].
    + exfalso. apply Hnotin. change k0 with (fst (k0, v)). now apply in_map.
    + now apply IH.
Qed.

Lemma sget_None_keys {V : Type} k (d : dict V) :
  sget k d = None <-> ~ In k (map fst d).
Proof.
  unfold sget. induction d as [|[k0 v0] d IH]; simpl; [intuition|].
  destruct (String.eqb_spec k k0) as [->|Hk].
  - split; [discriminate|]. intros H; exfalso; apply H; now left.
  - rewrite IH. intuition congruence.
Qed.

(** ** The hits of the next gene (lines 258-286) *)

(** The acceptance rule for a hit other than the hit of the starting gene, which
    line 259 sets aside before the rule is reached.  Such a hit
    [next_match] of the next gene, found in the reference index as [r], is taken
    (the loop over the hits is left by [break]) if and only if [r] lies on the
    scaffold of the chain and both distances to the current reference position
    are at most [max_distance].  When it is taken, the pair is appended to
    [syntenylist], the gene is appended to [accounted_query_genes], [walksteps]
    is [max_span] again, [subjectpos] holds the bounds of [r], and the hits behind
    it are not looked at, whatever they are.  A hit on another scaffold goes on to
    the next hit with the chain as it was. *)
Theorem candidate_acceptance_rule :
  forall (refdict : dict refgene) (max_span max_distance : Z) (is_verbose : bool)
         (scaffold blast_refgene refscaffold next_gene next_match : string)
         (bitscoreN : Q) (matches : list (string * Q)) (s : wstate) (r : refgene),
    next_match <> blast_refgene ->
    sget next_match refdict = Some r ->
    ((exists s', scan_match refdict max_span max_distance is_verbose scaffold
                   blast_refgene refscaffold next_gene next_match s = Break s')
     <-> (rscaffold r = refscaffold /\
          rstart r - snd (subjectpos s) <= max_distance /\
          fst (subjectpos s) - rend r <= max_distance)) /\
    (forall s', scan_match refdict max_span max_distance is_verbose scaffold
                  blast_refgene refscaffold next_gene next_match s = Break s' ->
       syntenylist s' = syntenylist s ++ [(next_gene, next_match)] /\
       accounted_query_genes s' = accounted_query_genes s ++ [next_gene] /\
       walksteps s' = max_span /\
       subjectpos s' = (rstart r, rend r) /\
       scan_matches refdict max_span max_distance is_verbose scaffold
         blast_refgene refscaffold next_gene ((next_match, bitscoreN) :: matches) s
       = Break s') /\
    (rscaffold r <> refscaffold ->
       exists s', scan_match refdict max_span max_distance is_verbose scaffold
                    blast_refgene refscaffold next_gene next_match s = Next s' /\
                  syntenylist s' = syntenylist s /\
                  accounted_query_genes s' = accounted_query_genes s /\
                  walksteps s' = walksteps s /\
                  subjectpos s' = subjectpos s).
Proof.
  intros refdict max_span max_distance is_verbose scaffold blast_refgene
    refscaffold next_gene next_match bitscoreN matches s r Hne Hr.
  apply String.eqb_neq in Hne.
  assert (Hstep :
    scan_match refdict max_span max_distance is_verbose scaffold blast_refgene
      refscaffold next_gene next_match s
    = if String.eqb (rscaffold r) refscaffold then
        if (max_distance <? rstart r - snd (subjectpos s))
           || (max_distance <? fst (subjectpos s) - rend r)
        then Next (verbose is_verbose
                     (MsgMatchTooFar next_gene next_match
                        (Z.max (rstart r - snd (subjectpos s))
                               (fst (subjectpos s) - rend r))) s)
        else Break (set_syntenylist
                      (syntenylist s ++ [(next_gene, next_match)])
                      (set_accounted_query_genes
                         (accounted_query_genes s ++ [next_gene])
                         (set_subjectpos (rstart r, rend r)
                            (set_walksteps max_span
                               (verbose is_verbose
                                  (MsgMatchFound next_match next_gene scaffold) s)))))
      else Next (verbose is_verbose
                   (MsgWrongContig next_gene next_match (rscaffold r)) s)).
  { unfold scan_match. rewrite Hne, Hr. simpl.
    destruct (String.eqb (rscaffold r) refscaffold); [|reflexivity].
    destruct ((max_distance <? rstart r - snd (subjectpos s))
              || (max_distance <? fst (subjectpos s) - rend r)); [reflexivity|].
    destruct is_verbose; reflexivity. }
  split; [|split].
  - rewrite Hstep. split.
    + intros [s' H].
      destruct (String.eqb_spec (rscaffold r) refscaffold) as [Hsc|Hsc];
        [|discriminate H].
      destruct (Z.ltb_spec max_distance (rstart r - snd (subjectpos s)));
        [discriminate H|].
      destruct (Z.ltb_spec max_distance (fst (subjectpos s) - rend r));
        [discriminate H|].
      auto.
    + intros (Hsc & Hd1 & Hd2).
      apply String.eqb_eq in Hsc. rewrite Hsc.
      apply Z.ltb_ge in Hd1. apply Z.ltb_ge in Hd2. rewrite Hd1, Hd2.
      simpl. eexists; reflexivity.
  - intros s' H. simpl. rewrite H. rewrite Hstep in H.
    destruct (String.eqb (rscaffold r) refscaffold); [|discriminate H].
    destruct ((max_distance <? rstart r - snd (subjectpos s))
              || (max_distance <? fst (subjectpos s) - rend r)); [discriminate H|].
    inversion H; subst s'; clear H.
    destruct is_verbose; simpl; auto.
  - intros Hsc. apply String.eqb_neq in Hsc. rewrite Hstep, Hsc.
    eexists; split; [reflexivity|]. destruct is_verbose; simpl; auto.
Qed.

Lemma candidate_acceptance_rule_witness :
  exists s',
    scan_match shared_refdict 2 1000 false "X" "r1" "S1" "g3" "r3"
      (set_subjectpos (100, 200) initial_state) = Break s'.
Proof.
  apply (proj1 (@candidate_acceptance_rule shared_refdict 2 1000 false "X" "r1" "S1"
                  "g3" "r3" (60#1) [("q3", 40#1)]
                  (set_subjectpos (100, 200) initial_state) (ref_on "S1" 300 400)
                  ltac:(discriminate) ltac:(reflexivity))).
  vm_compute. repeat split; discriminate.
Defined.

(** ** What the parts of the walk change *)

Lemma walks_started_app (l : list message) (m : message) :
  walks_started (l ++ [m]) =
  walks_started l ++ (if is_start_walk m then [m] else []).
Proof.
  unfold walks_started. rewrite filter_app. simpl.
  destruct (is_start_walk m); reflexivity.
Qed.

Lemma walks_started_verbose (b : bool) (m : message) (s : wstate) :
  is_start_walk m = false ->
  walks_started (stderr (verbose b m s)) = walks_started (stderr s).
Proof.
  intros Hm. destruct b; simpl; [|reflexivity].
  rewrite walks_started_app, Hm. apply app_nil_r.
Qed.

Lemma same_books_refl (s : wstate) : same_books s s.
Proof. unfold same_books; auto. Qed.

Lemma same_books_trans (s1 s2 s3 : wstate) :
  same_books s1 s2 -> same_books s2 s3 -> same_books s1 s3.
Proof. unfold same_books; intuition congruence. Qed.

Lemma same_books_verbose (b : bool) (m : message) (s : wstate) :
  same_books s (verbose b m s).
Proof. destruct b; unfold same_books; simpl; auto. Qed.

Lemma walk_frame_refl (names : list string) (s : wstate) : walk_frame names s s.
Proof. unfold walk_frame; split; [apply same_books_refl|auto]. Qed.

Lemma walk_frame_trans (n1 n2 n3 : list string) (s1 s2 s3 : wstate) :
  incl n1 n3 -> incl n2 n3 ->
  walk_frame n1 s1 s2 -> walk_frame n2 s2 s3 -> walk_frame n3 s1 s3.
Proof.
  intros H1 H2 (Hb1 & Hw1 & Ha1) (Hb2 & Hw2 & Ha2). split; [|split].
  - eapply same_books_trans; eauto.
  - congruence.
  - intros g Hg. destruct (Ha2 g Hg) as [Hin|Hin]; [|right; auto].
    destruct (Ha1 g Hin); [left|right]; auto.
Qed.

Lemma walk_frame_verbose (names : list string) (b : bool) (m : message) (s : wstate) :
  is_start_walk m = false -> walk_frame names s (verbose b m s).
Proof.
  intros Hm. split; [apply same_books_verbose|split].
  - now apply walks_started_verbose.
  - destruct b; simpl; auto.
Qed.

Section WalkFrames.
Variable blastdict : dict (dict Q).
Variable refdict : dict refgene.
Variables min_block max_span max_distance : Z.
Variables is_verbose make_gff : bool.

Lemma scan_match_frame scaffold blast_refgene refscaffold next_gene next_match s s' :
  scan_match refdict max_span max_distance is_verbose scaffold blast_refgene
    refscaffold next_gene next_match s = Next s' \/
  scan_match refdict max_span max_distance is_verbose scaffold blast_refgene
    refscaffold next_gene next_match s = Break s' ->
  walk_frame [next_gene] s s'.
Proof.
  unfold scan_match.
  destruct (String.eqb next_match blast_refgene).
  { intros [H|H]; inversion H; subst s'; clear H.
    split; [unfold same_books; simpl; auto|split; [reflexivity|]].
    simpl. intros g Hg. apply in_app_or in Hg. tauto. }
  destruct (sget next_match refdict) as [r|]; [|intros [H|H]; discriminate H].
  cbv zeta.
  destruct (String.eqb (rscaffold r) refscaffold).
  - destruct ((max_distance <? fst (rstart r, rend r) - snd (subjectpos s))
              || (max_distance <? fst (subjectpos s) - snd (rstart r, rend r))).
    + intros [H|H]; inversion H; subst s'. now apply walk_frame_verbose.
    + intros [H|H]; inversion H; subst s'; clear H.
      destruct is_verbose; (split; [unfold same_books; simpl; auto|split]);
        simpl; try (intros g Hg; apply in_app_or in Hg; tauto).
      * rewrite walks_started_app. simpl. apply app_nil_r.
      * reflexivity.
  - intros [H|H]; inversion H; subst s'. now apply walk_frame_verbose.
Qed.

Lemma scan_matches_frame scaffold blast_refgene refscaffold next_gene matches :
  forall s s',
    scan_matches refdict max_span max_distance is_verbose scaffold blast_refgene
      refscaffold next_gene matches s = Next s' \/
    scan_matches refdict max_span max_distance is_verbose scaffold blast_refgene
      refscaffold next_gene matches s = Break s' ->
    walk_frame [next_gene] s s'.
Proof.
  induction matches as [|[next_match bitscoreN] matches IH]; intros s s'; simpl.
  - intros [H|H]; inversion H; subst. apply walk_frame_refl.
  - destruct (scan_match refdict max_span max_distance is_verbose scaffold
                blast_refgene refscaffold next_gene next_match s)
      as [s1|s1|e s1] eqn:Hstep.
    + intros H. apply IH in H.
      eapply walk_frame_trans; [| |eapply scan_match_frame; eauto|exact H];
        apply incl_refl.
    + intros [H|H]; inversion H; subst s'.
      eapply scan_match_frame; eauto.
    + intros [H|H]; discriminate H.
Qed.

Lemma walk_gene_frame scaffold startingtrans blast_refgene refscaffold next s s' :
  walk_gene blastdict refdict max_span max_distance is_verbose scaffold
    startingtrans blast_refgene refscaffold next s = Next s' \/
  walk_gene blastdict refdict max_span max_distance is_verbose scaffold
    startingtrans blast_refgene refscaffold next s = Break s' ->
  walk_frame [fst next] s s'.
Proof.
  unfold walk_gene. destruct next as [next_gene next_gene_info]. simpl fst.
  destruct (0 <? walksteps s).
  2:{ intros [H|H]; inversion H; subst s'. now apply walk_frame_verbose. }
  destruct (max_distance <? qstart next_gene_info - snd (querypos s)).
  { intros [H|H]; inversion H; subst s'. now apply walk_frame_verbose. }
  destruct (sget next_gene blastdict) as [next_match_dict|].
  - destruct (scan_matches refdict max_span max_distance is_verbose scaffold
                blast_refgene refscaffold next_gene
                (sorted by_score_desc next_match_dict)
                (set_querypos (qstart next_gene_info, qend next_gene_info) s))
      as [s1|s1|e s1] eqn:Hscan.
    + intros [H|H]; inversion H; subst s'; clear H.
      assert (Hf : walk_frame [next_gene]
                     (set_querypos (qstart next_gene_info, qend next_gene_info) s)
                     s1)
        by (eapply scan_matches_frame; eauto).
      destruct Hf as ((? & ? & ? & ?) & ? & ?).
      split; [unfold same_books; simpl in *; auto|split]; simpl in *; auto.
    + intros [H|H]; inversion H; subst s'; clear H.
      assert (Hf : walk_frame [next_gene]
                     (set_querypos (qstart next_gene_info, qend next_gene_info) s)
                     s1)
        by (eapply scan_matches_frame; eauto).
      destruct Hf as ((? & ? & ? & ?) & ? & ?).
      split; [unfold same_books; simpl in *; auto|split]; simpl in *; auto.
    + intros [H|H]; discriminate H.
  - intros [H|H]; inversion H; subst s'; clear H.
    destruct is_verbose; (split; [unfold same_books; simpl; auto|split]);
      simpl; auto.
    rewrite walks_started_app. simpl. apply app_nil_r.
Qed.

Lemma walk_genes_frame scaffold startingtrans blast_refgene refscaffold genes :
  forall s s',
    walk_genes blastdict refdict max_span max_distance is_verbose scaffold
      startingtrans blast_refgene refscaffold genes s = Normal s' ->
    walk_frame (map fst genes) s s'.
Proof.
  induction genes as [|next genes IH]; intros s s'; simpl.
  - intros H; inversion H; subst. apply walk_frame_refl.
  - destruct (walk_gene blastdict refdict max_span max_distance is_verbose
                scaffold startingtrans blast_refgene refscaffold next s)
      as [s1|s1|e s1] eqn:Hstep.
    + intros H. apply IH in H.
      eapply walk_frame_trans;
        [| |eapply walk_gene_frame; left; exact Hstep|exact H].
      * intros x [Hx|[]]; left; exact Hx.
      * intros x Hx; right; exact Hx.
    + intros H; inversion H; subst s'.
      eapply walk_frame_trans;
        [| |eapply walk_gene_frame; right; exact Hstep|apply walk_frame_refl].
      * intros x [Hx|[]]; left; exact Hx.
      * apply incl_refl.
    + discriminate.
Qed.
End WalkFrames.

Lemma grows_refl (s : wstate) : grows s s.
Proof. unfold grows; repeat split; auto; lia. Qed.

Lemma grows_trans (s1 s2 s3 : wstate) : grows s1 s2 -> grows s2 s3 -> grows s1 s3.
Proof.
  intros (Hle1 & Heq1 & Hlt1 & Hc1) (Hle2 & Heq2 & Hlt2 & Hc2).
  split; [lia|split; [|split]].
  - intros Heq.
    destruct (Heq1 ltac:(lia)) as [Ha Hb].
    destruct (Heq2 ltac:(lia)) as [Hc Hd].
    split; congruence.
  - intros Hlt.
    destruct (Z.eq_dec (blocknum s3) (blocknum s2)) as [Heq|Hne].
    + destruct (Heq2 Heq) as [Ha Hb]. rewrite Ha, Hb. apply Hlt1. lia.
    + apply Hlt2. lia.
  - auto.
Qed.

Lemma same_books_grows (s s' : wstate) : same_books s s' -> grows s s'.
Proof.
  intros (Hn & Hl & Hw & Hc). unfold grows. rewrite Hn, Hl, Hw, Hc.
  repeat split; auto; lia.
Qed.

Lemma walk_frame_grows (names : list string) (s s' : wstate) :
  walk_frame names s s' -> grows s s'.
Proof. intros [Hb _]. now apply same_books_grows. Qed.

Lemma block_frame_refl (s : wstate) : block_frame s s.
Proof. unfold block_frame; split; [apply grows_refl|auto]. Qed.

Section BlockFrames.
Variable blastdict : dict (dict Q).
Variable refdict : dict refgene.
Variables min_block max_span max_distance : Z.
Variables is_verbose make_gff : bool.

Lemma write_tab_lines_frame scaffold refscaffold transdict pairs :
  forall s s',
    write_tab_lines blastdict refdict scaffold refscaffold transdict pairs s
    = Normal s' ->
    lines_frame pairs s s'.
Proof.
  induction pairs as [|pr pairs IH]; intros s s'; simpl.
  - intros H; inversion H; subst. unfold lines_frame. repeat split; auto.
    exists []. now rewrite app_nil_r.
  - unfold lookup_or_raise.
    destruct (sget (fst pr) transdict) as [q|]; [|discriminate].
    destruct (sget (snd pr) refdict) as [r|]; [|discriminate].
    destruct (sget (fst pr) blastdict) as [hits|]; [|discriminate].
    destruct (sget (snd pr) hits) as [score|]; [|discriminate].
    intros H. apply IH in H.
    destruct H as (H1 & H2 & H3 & H4 & H5 & lines & H6 & H7).
    simpl in *. unfold lines_frame. repeat split; auto.
    eexists (_ :: lines). rewrite H6, <- app_assoc. simpl.
    split; [reflexivity|now rewrite H7].
Qed.

Lemma write_gff_parts_frame scaffold transdict pairs :
  forall j s s',
    write_gff_parts blastdict refdict scaffold transdict j pairs s = Normal s' ->
    lines_frame pairs s s'.
Proof.
  induction pairs as [|pr pairs IH]; intros j s s'; simpl.
  - intros H; inversion H; subst. unfold lines_frame. repeat split; auto.
    exists []. now rewrite app_nil_r.
  - unfold lookup_or_raise.
    destruct (sget (fst pr) transdict) as [q|]; [|discriminate].
    destruct (sget (fst pr) blastdict) as [hits|]; [|discriminate].
    destruct (sget (snd pr) hits) as [score|]; [|discriminate].
    destruct (sget (snd pr) refdict) as [r|]; [|discriminate].
    intros H. apply IH in H.
    destruct H as (H1 & H2 & H3 & H4 & H5 & lines & H6 & H7).
    simpl in *. unfold lines_frame. repeat split; auto.
    eexists (_ :: lines). rewrite H6, <- app_assoc. simpl.
    split; [reflexivity|now rewrite H7].
Qed.

(** A chain that is kept raises the block number by one and leaves a histogram
    and an output that are not empty; a chain that is dropped changes none of
    them. *)
Lemma write_block_cases scaffold startingtrans refscaffold transdict s s' :
  write_block blastdict refdict min_block is_verbose make_gff scaffold
    startingtrans refscaffold transdict s = Normal s' ->
  walks_started (stderr s') = walks_started (stderr s) /\
  accounted_query_genes s' = accounted_query_genes s /\
  scaffoldgenecounts s' = scaffoldgenecounts s /\
  ((min_block <= Z.of_nat (List.length (syntenylist s)) /\
    blocknum s' = blocknum s + 1 /\ blocklengths s' <> [] /\ wayout s' <> []) \/
   (Z.of_nat (List.length (syntenylist s)) < min_block /\
    blocknum s' = blocknum s /\ blocklengths s' = blocklengths s /\
    wayout s' = wayout s)).
Proof.
  unfold write_block. cbv zeta.
  destruct (Z.leb_spec min_block (Z.of_nat (List.length (syntenylist s))))
    as [Hlen|Hlen].
  2:{ intros H; inversion H; subst s'; clear H.
      rewrite walks_started_verbose by reflexivity.
      destruct is_verbose; simpl; repeat split; auto; right; auto. }
  set (s1 := verbose is_verbose
               (MsgFoundBlock (Z.of_nat (List.length (syntenylist s)))
                  startingtrans scaffold) s).
  set (s2 := match py_max (map fst (blocklengths s1)) with
             | Some longest =>
                 if longest <? Z.of_nat (List.length (syntenylist s))
                 then write_err
                        (MsgNewLongest (blocknum s1)
                           (Z.of_nat (List.length (syntenylist s))) scaffold) s1
                 else s1
             | None =>
                 write_err
                   (MsgNewLongest (blocknum s1)
                      (Z.of_nat (List.length (syntenylist s))) scaffold) s1
             end).
  assert (Hs1 : walks_started (stderr s1) = walks_started (stderr s) /\
                accounted_query_genes s1 = accounted_query_genes s /\
                scaffoldgenecounts s1 = scaffoldgenecounts s /\
                blocknum s1 = blocknum s /\ wayout s1 = wayout s /\
                syntenylist s1 = syntenylist s).
  { subst s1. rewrite walks_started_verbose by reflexivity.
    destruct is_verbose; simpl; auto 10. }
  assert (Hs2 : walks_started (stderr s2) = walks_started (stderr s) /\
                accounted_query_genes s2 = accounted_query_genes s /\
                scaffoldgenecounts s2 = scaffoldgenecounts s /\
                blocknum s2 = blocknum s /\ wayout s2 = wayout s /\
                syntenylist s2 = syntenylist s).
  { destruct Hs1 as (A & B & C & D & E & F). subst s2.
    destruct (py_max (map fst (blocklengths s1))) as [longest|];
      [destruct (longest <? Z.of_nat (List.length (syntenylist s)))|];
      simpl; try rewrite walks_started_app; simpl; try rewrite app_nil_r;
      auto 10. }
  clearbody s2. clear s1 Hs1.
  destruct Hs2 as (A & B & C & D & E & F).
  destruct (hd_error (syntenylist s2)) as [first|] eqn:Hhd; [|discriminate].
  destruct (last_error (syntenylist s2)) as [final|]; [|discriminate].
  unfold lookup_or_raise.
  destruct (sget (fst first) transdict) as [qfirst|]; [|discriminate].
  destruct (sget (fst final) transdict) as [qfinal|]; [|discriminate].
  destruct (sget (snd first) refdict) as [rfirst|]; [|discriminate].
  destruct (sget (snd final) refdict) as [rfinal|]; [|discriminate].
  destruct make_gff.
  - match goal with
    | |- and_then (write_gff_parts _ _ _ _ _ ?ps ?st) _ = _ -> _ =>
        destruct (write_gff_parts blastdict refdict scaffold transdict 0 ps st)
          as [s5|e s5] eqn:Hw; [|discriminate]
    end.
    apply write_gff_parts_frame in Hw.
    destruct Hw as (H1 & H2 & H3 & H4 & H5 & lines & H6 & H7).
    simpl in *. intros H; inversion H; subst s'; clear H. simpl.
    rewrite H4, H5, H3. repeat split; auto. left.
    repeat split; auto; try lia.
    + rewrite H2. apply dict_set_nonempty.
    + rewrite H6. intros Hnil. apply app_eq_nil in Hnil.
      destruct Hnil as [Hnil _]. apply app_eq_nil in Hnil.
      destruct Hnil as [_ Hnil]. discriminate Hnil.
  - match goal with
    | |- and_then (write_tab_lines _ _ _ _ _ ?ps ?st) _ = _ -> _ =>
        destruct (write_tab_lines blastdict refdict scaffold refscaffold
                    transdict ps st) as [s5|e s5] eqn:Hw; [|discriminate]
    end.
    apply write_tab_lines_frame in Hw.
    destruct Hw as (H1 & H2 & H3 & H4 & H5 & lines & H6 & H7).
    simpl in *. intros H; inversion H; subst s'; clear H. simpl.
    rewrite H4, H5, H3. repeat split; auto. left.
    repeat split; auto; try lia.
    + rewrite H2. apply dict_set_nonempty.
    + rewrite H6. intros Hnil. apply app_eq_nil in Hnil.
      destruct Hnil as [_ Hnil]. subst lines. simpl in H7.
      destruct (syntenylist s2); [discriminate Hhd|discriminate H7].
Qed.

Lemma write_block_frame scaffold startingtrans refscaffold transdict s s' :
  write_block blastdict refdict min_block is_verbose make_gff scaffold
    startingtrans refscaffold transdict s = Normal s' ->
  block_frame s s'.
Proof.
  intros H. apply write_block_cases in H.
  destruct H as (Hw & Ha & Hc & [(_ & Hn & Hl & Ho)|(_ & Hn & Hl & Ho)]).
  - split; [|auto]. unfold grows. rewrite Hn, Hc.
    repeat split; auto; try lia.
  - split; [|auto]. apply same_books_grows. unfold same_books; auto.
Qed.
End BlockFrames.

Lemma existsb_eqb_In (x : string) (l : list string) :
  existsb (String.eqb x) l = true <-> In x l.
Proof.
  rewrite existsb_exists. split.
  - intros (y & Hy & Heq). apply String.eqb_eq in Heq. now subst.
  - intros Hin. exists x. split; [exact Hin|apply String.eqb_refl].
Qed.

Lemma existsb_eqb_notin (x : string) (l : list string) :
  ~ In x l -> existsb (String.eqb x) l = false.
Proof.
  intros Hn. destruct (existsb (String.eqb x) l) eqn:E; [|reflexivity].
  apply existsb_eqb_In in E. contradiction.
Qed.

Section CandidateFrames.
Variable blastdict : dict (dict Q).
Variable refdict : dict refgene.
Variables min_block max_span max_distance : Z.
Variables is_verbose make_gff : bool.

Lemma try_candidate_grows scaffold transdict orderedtranslist i genesonscaff
    startingtrans blast_refgene s s' :
  try_candidate blastdict refdict min_block max_span max_distance is_verbose
    make_gff scaffold transdict orderedtranslist i genesonscaff startingtrans
    blast_refgene s = Normal s' ->
  grows s s'.
Proof.
  unfold try_candidate. cbv zeta.
  set (s1 := if String.eqb blast_refgene (lastmatch s)
             then set_splitgenes (splitgenes s + 1) s else s).
  assert (H1 : same_books s s1).
  { subst s1. destruct (String.eqb blast_refgene (lastmatch s));
      unfold same_books; simpl; auto. }
  clearbody s1.
  destruct (existsb (String.eqb startingtrans) (accounted_query_genes s1)).
  { intros H; inversion H; subst s'.
    apply same_books_grows. eapply same_books_trans; [exact H1|].
    apply same_books_verbose. }
  destruct (Z.of_nat i <? genesonscaff - 1).
  - unfold lookup_or_raise.
    destruct (sget blast_refgene refdict) as [r|]; [|discriminate].
    match goal with
    | |- and_then (and_then (walk_genes _ _ _ _ _ _ _ _ _ ?gs ?st) _) _ = _ -> _ =>
        destruct (walk_genes blastdict refdict max_span max_distance is_verbose
                    scaffold startingtrans blast_refgene (rscaffold r) gs st)
          as [s5|e s5] eqn:Hwalk; [|discriminate];
        assert (H4 : same_books s1 st)
          by (destruct is_verbose; unfold same_books; simpl; auto)
    end.
    simpl.
    destruct (write_block blastdict refdict min_block is_verbose make_gff
                scaffold startingtrans (rscaffold r) transdict s5)
      as [s6|e s6] eqn:Hblock; [|discriminate].
    simpl. intros H; inversion H; subst s'; clear H.
    apply walk_genes_frame in Hwalk. apply walk_frame_grows in Hwalk.
    apply write_block_frame in Hblock. destruct Hblock as [Hblock _].
    eapply grows_trans; [apply same_books_grows; exact H1|].
    eapply grows_trans; [apply same_books_grows; exact H4|].
    eapply grows_trans; [exact Hwalk|].
    eapply grows_trans; [exact Hblock|].
    apply same_books_grows. unfold same_books; simpl; auto.
  - simpl. intros H; inversion H; subst s'; clear H.
    apply same_books_grows. eapply same_books_trans; [exact H1|].
    destruct is_verbose; unfold same_books; simpl; auto.
Qed.

Lemma try_candidates_grows scaffold transdict orderedtranslist i genesonscaff
    startingtrans hits :
  forall s s',
    try_candidates blastdict refdict min_block max_span max_distance is_verbose
      make_gff scaffold transdict orderedtranslist i genesonscaff startingtrans
      hits s = Normal s' ->
    grows s s'.
Proof.
  induction hits as [|[blast_refgene bitscore1] hits IH]; intros s s'; simpl.
  - intros H; inversion H; subst. apply grows_refl.
  - destruct (try_candidate blastdict refdict min_block max_span max_distance
                is_verbose make_gff scaffold transdict orderedtranslist i
                genesonscaff startingtrans blast_refgene s)
      as [s1|e s1] eqn:Htry; [|discriminate].
    simpl. intros H. apply IH in H. apply try_candidate_grows in Htry.
    eapply grows_trans; eauto.
Qed.

Lemma walk_anchor_grows scaffold transdict orderedtranslist genesonscaff i
    querygene_tuple s s' :
  walk_anchor blastdict refdict min_block max_span max_distance is_verbose
    make_gff scaffold transdict orderedtranslist genesonscaff i querygene_tuple s
  = Normal s' ->
  grows s s'.
Proof.
  unfold walk_anchor. cbv zeta.
  destruct (sget (fst querygene_tuple) blastdict) as [hits|].
  - intros H. apply try_candidates_grows in H.
    eapply grows_trans; [|exact H].
    apply same_books_grows. unfold same_books; simpl; auto.
  - intros H; inversion H; subst s'.
    apply same_books_grows.
    destruct is_verbose; unfold same_books; simpl; auto.
Qed.

Lemma walk_anchors_grows scaffold transdict orderedtranslist genesonscaff genes :
  forall i s s',
    walk_anchors blastdict refdict min_block max_span max_distance is_verbose
      make_gff scaffold transdict orderedtranslist genesonscaff i genes s
    = Normal s' ->
    grows s s'.
Proof.
  induction genes as [|g genes IH]; intros i s s'; simpl.
  - intros H; inversion H; subst. apply grows_refl.
  - destruct (walk_anchor blastdict refdict min_block max_span max_distance
                is_verbose make_gff scaffold transdict orderedtranslist
                genesonscaff i g s) as [s1|e s1] eqn:Hanchor; [|discriminate].
    simpl. intros H. apply IH in H. apply walk_anchor_grows in Hanchor.
    eapply grows_trans; eauto.
Qed.

(** A scaffold leaves [scaffoldgenecounts] with an entry, whether it is walked
    or passed over. *)
Lemma walk_scaffold_grows scaffold transdict s s' :
  walk_scaffold blastdict refdict min_block max_span max_distance is_verbose
    make_gff scaffold transdict s = Normal s' ->
  grows s s' /\ scaffoldgenecounts s' <> [].
Proof.
  unfold walk_scaffold. cbv zeta.
  set (n := Z.of_nat (List.length (sorted by_start transdict))).
  set (s1 := set_scaffoldgenecounts (zincr n (scaffoldgenecounts s)) s).
  assert (H1 : grows s s1 /\ scaffoldgenecounts s1 <> []).
  { subst s1. unfold grows. simpl. unfold zincr.
    repeat split; auto; try lia; try (intros; apply dict_set_nonempty). }
  clearbody s1. destruct H1 as [H1 Hne].
  assert (Hgo : forall t t', grows t t' -> scaffoldgenecounts t <> [] ->
                             scaffoldgenecounts t' <> []).
  { intros t t' (_ & _ & _ & Hc). exact Hc. }
  destruct (n <? min_block).
  - intros H; inversion H; subst s'; clear H.
    assert (H2 : grows s1
                   (verbose is_verbose (MsgSkipScaffold scaffold n)
                      (verbose is_verbose (MsgScanning scaffold n) s1))).
    { apply same_books_grows.
      eapply same_books_trans; apply same_books_verbose. }
    split; [eapply grows_trans; eauto|eapply Hgo; eauto].
  - intros H. apply walk_anchors_grows in H.
    assert (H2 : grows s1 s').
    { eapply grows_trans; [|exact H]. apply same_books_grows.
      destruct is_verbose; unfold same_books; simpl; auto. }
    split; [eapply grows_trans; eauto|eapply Hgo; eauto].
Qed.

Lemma walk_scaffolds_grows scaffolds :
  forall s s',
    walk_scaffolds blastdict refdict min_block max_span max_distance is_verbose
      make_gff scaffolds s = Normal s' ->
    grows s s' /\ (scaffolds <> [] -> scaffoldgenecounts s' <> []).
Proof.
  induction scaffolds as [|[scaffold transdict] scaffolds IH]; intros s s'; simpl.
  - intros H; inversion H; subst. split; [apply grows_refl|congruence].
  - destruct (walk_scaffold blastdict refdict min_block max_span max_distance
                is_verbose make_gff scaffold transdict s)
      as [s1|e s1] eqn:Hsc; [|discriminate].
    simpl. intros H. apply IH in H. apply walk_scaffold_grows in Hsc.
    destruct H as [H _]. destruct Hsc as [Hsc Hne].
    split; [eapply grows_trans; eauto|].
    intros _. destruct H as (_ & _ & _ & Hc). auto.
Qed.
End CandidateFrames.

(** ** The budget and the consumed genes *)

(** When the only hit of the next gene is the hit of the starting gene, the step
    puts the gene on [accounted_query_genes], adds no pair, and takes one step
    from the budget. *)
Lemma same_homolog_only_hit (blastdict : dict (dict Q)) (refdict : dict refgene)
    (max_span max_distance : Z) (is_verbose : bool)
    (scaffold startingtrans blast_refgene refscaffold next_gene : string)
    (info : querygene) (bitscoreN : Q) (s : wstate) :
  0 < walksteps s ->
  qstart info - snd (querypos s) <= max_distance ->
  sget next_gene blastdict = Some [(blast_refgene, bitscoreN)] ->
  exists s',
    walk_gene blastdict refdict max_span max_distance is_verbose scaffold
      startingtrans blast_refgene refscaffold (next_gene, info) s = Next s' /\
    walksteps s' = walksteps s - 1 /\
    syntenylist s' = syntenylist s /\
    accounted_query_genes s' = accounted_query_genes s ++ [next_gene].
Proof.
  intros Hsteps Hdist Hhits. unfold walk_gene.
  apply Z.ltb_lt in Hsteps. rewrite Hsteps.
  apply Z.ltb_ge in Hdist. rewrite Hdist. rewrite Hhits.
  simpl. unfold scan_match. rewrite String.eqb_refl.
  eexists. split; [reflexivity|]. simpl. auto.
Qed.

(** X7.  A starting gene that is on [accounted_query_genes] starts no walk and
    writes no block, whatever its hits. *)
Lemma accounted_gene_starts_no_walk (blastdict : dict (dict Q))
    (refdict : dict refgene) (min_block max_span max_distance : Z)
    (is_verbose make_gff : bool) (scaffold : string) (transdict : dict querygene)
    (orderedtranslist : list (string * querygene)) (i : nat) (genesonscaff : Z)
    (startingtrans : string) (hits : list (string * Q)) :
  forall s,
    In startingtrans (accounted_query_genes s) ->
    exists s',
      try_candidates blastdict refdict min_block max_span max_distance is_verbose
        make_gff scaffold transdict orderedtranslist i genesonscaff startingtrans
        hits s = Normal s' /\
      walks_started (stderr s') = walks_started (stderr s) /\
      wayout s' = wayout s /\
      blocknum s' = blocknum s /\
      accounted_query_genes s' = accounted_query_genes s.
Proof.
  induction hits as [|[blast_refgene bitscore1] hits IH]; intros s Hin; simpl.
  - eexists; split; [reflexivity|auto].
  - unfold try_candidate. cbv zeta.
    set (s1 := if String.eqb blast_refgene (lastmatch s)
               then set_splitgenes (splitgenes s + 1) s else s).
    assert (H1 : stderr s1 = stderr s /\ wayout s1 = wayout s /\
                 blocknum s1 = blocknum s /\
                 accounted_query_genes s1 = accounted_query_genes s).
    { subst s1. destruct (String.eqb blast_refgene (lastmatch s)); simpl; auto. }
    clearbody s1. destruct H1 as (He & Hw & Hn & Ha).
    rewrite (proj2 (existsb_eqb_In startingtrans (accounted_query_genes s1)))
      by (rewrite Ha; exact Hin).
    simpl.
    destruct (IH (verbose is_verbose (MsgAlready startingtrans scaffold) s1))
      as (s' & Hrun & He' & Hw' & Hn' & Ha').
    { destruct is_verbose; simpl; rewrite Ha; exact Hin. }
    exists s'. split; [exact Hrun|].
    rewrite He', Hw', Hn', Ha'.
    rewrite walks_started_verbose by reflexivity.
    destruct is_verbose; simpl; rewrite He, Hw, Hn, Ha; auto.
Qed.

(** ** [sorted] *)

Lemma insert_sorted_perm {A : Type} (before : A -> A -> bool) (x : A) (l : list A) :
  Permutation (insert_sorted before x l) (x :: l).
Proof.
  induction l as [|y l IH]; simpl; [reflexivity|].
  destruct (before y x); [|reflexivity].
  rewrite IH. apply perm_swap.
Qed.

Lemma sorted_perm {A : Type} (before : A -> A -> bool) (l : list A) :
  Permutation (sorted before l) l.
Proof.
  induction l as [|x l IH]; simpl; [reflexivity|].
  rewrite insert_sorted_perm. now constructor.
Qed.

Lemma sorted_nonempty {A : Type} (before : A -> A -> bool) (l : list A) :
  l <> [] -> sorted before l <> [].
Proof.
  intros Hne Hnil. apply Hne. apply Permutation_nil.
  rewrite <- Hnil. apply sorted_perm.
Qed.

Lemma insert_sorted_Sorted {A : Type} (before : A -> A -> bool) :
  (forall x y, before y x = true -> before x y = false) ->
  forall x l,
    Sorted (fun a b => before b a = false) l ->
    Sorted (fun a b => before b a = false) (insert_sorted before x l).
Proof.
  intros Hasym x l. induction l as [|y l IH]; simpl; intros Hs.
  - constructor; constructor.
  - destruct (before y x) eqn:Hyx.
    + inversion Hs as [|? ? Hs' Hhd]; subst.
      constructor; [now apply IH|].
      destruct l as [|z l]; simpl.
      * constructor. now apply Hasym.
      * destruct (before z x); constructor.
        -- inversion Hhd; subst; assumption.
        -- now apply Hasym.
    + constructor; [exact Hs|]. constructor. exact Hyx.
Qed.

Lemma sorted_Sorted {A : Type} (before : A -> A -> bool) :
  (forall x y, before y x = true -> before x y = false) ->
  forall l, Sorted (fun a b => before b a = false) (sorted before l).
Proof.
  intros Hasym l. induction l as [|x l IH]; simpl.
  - constructor.
  - now apply insert_sorted_Sorted.
Qed.

Lemma by_score_desc_asym (x y : string * Q) :
  by_score_desc y x = true -> by_score_desc x y = false.
Proof.
  unfold by_score_desc, Qgtb. intros H.
  apply negb_true_iff in H. apply negb_false_iff. apply Qle_bool_iff.
  destruct (Qlt_le_dec (snd x) (snd y)) as [Hlt|Hle].
  - now apply Qlt_le_weak.
  - apply Qle_bool_iff in Hle. congruence.
Qed.

(** The hits of a gene are gone through from the highest score down. *)
Lemma hits_in_descending_order (hits : dict Q) :
  Permutation (sorted by_score_desc hits) hits /\
  Sorted (fun a b => (snd b <= snd a)%Q) (sorted by_score_desc hits).
Proof.
  split; [apply sorted_perm|].
  assert (H := sorted_Sorted by_score_desc by_score_desc_asym hits).
  induction H as [|a l Hs IH Hhd]; constructor; auto.
  inversion Hhd as [|b l' Hb]; subst; constructor.
  unfold by_score_desc, Qgtb in Hb. apply negb_false_iff in Hb.
  now apply Qle_bool_iff.
Qed.

(** ** One chain for each hit of the starting gene (lines 221-335) *)

Section Starts.
Variable blastdict : dict (dict Q).
Variable refdict : dict refgene.
Variables min_block max_span max_distance : Z.
Variable make_gff : bool.

Lemma try_candidate_starts scaffold transdict orderedtranslist i genesonscaff
    startingtrans blast_refgene s s' :
  ~ In startingtrans (accounted_query_genes s) ->
  Z.of_nat i < genesonscaff - 1 ->
  try_candidate blastdict refdict min_block max_span max_distance true
    make_gff scaffold transdict orderedtranslist i genesonscaff startingtrans
    blast_refgene s = Normal s' ->
  walks_started (stderr s') =
    walks_started (stderr s) ++ [MsgStartWalk startingtrans scaffold blast_refgene]
  /\ (forall g, In g (accounted_query_genes s') ->
                In g (accounted_query_genes s) \/
                In g (map fst (skipn (S i) orderedtranslist))).
Proof.
  intros Hnotin Hi. unfold try_candidate. cbv zeta.
  set (s1 := if String.eqb blast_refgene (lastmatch s)
             then set_splitgenes (splitgenes s + 1) s else s).
  assert (H1 : stderr s1 = stderr s /\
               accounted_query_genes s1 = accounted_query_genes s).
  { subst s1. destruct (String.eqb blast_refgene (lastmatch s)); simpl; auto. }
  clearbody s1. destruct H1 as [He Ha].
  rewrite existsb_eqb_notin by (rewrite Ha; exact Hnotin).
  apply Z.ltb_lt in Hi. rewrite Hi.
  unfold lookup_or_raise.
  destruct (sget blast_refgene refdict) as [r|]; [|discriminate].
  match goal with
  | |- and_then (and_then (walk_genes _ _ _ _ _ _ _ _ _ ?gs ?st) _) _ = _ -> _ =>
      destruct (walk_genes blastdict refdict max_span max_distance true
                  scaffold startingtrans blast_refgene (rscaffold r) gs st)
        as [s5|e s5] eqn:Hwalk; [|discriminate]
  end.
  simpl and_then.
  destruct (write_block blastdict refdict min_block true make_gff
              scaffold startingtrans (rscaffold r) transdict s5)
    as [s6|e s6] eqn:Hblock; [|discriminate].
  simpl. intros H; inversion H; subst s'; clear H. simpl.
  apply walk_genes_frame in Hwalk. destruct Hwalk as (_ & Hw5 & Ha5).
  apply write_block_frame in Hblock. destruct Hblock as (_ & Hw6 & Ha6).
  simpl in Hw5, Ha5. rewrite Hw6, Hw5, Ha6.
  rewrite walks_started_app, He. simpl. split; [reflexivity|].
  intros g Hg. rewrite <- Ha. now apply Ha5.
Qed.

Lemma try_candidates_starts scaffold transdict orderedtranslist i genesonscaff
    startingtrans hits :
  ~ In startingtrans (map fst (skipn (S i) orderedtranslist)) ->
  Z.of_nat i < genesonscaff - 1 ->
  forall s s',
    ~ In startingtrans (accounted_query_genes s) ->
    try_candidates blastdict refdict min_block max_span max_distance true
      make_gff scaffold transdict orderedtranslist i genesonscaff startingtrans
      hits s = Normal s' ->
    walks_started (stderr s') =
      walks_started (stderr s)
      ++ map (fun hit => MsgStartWalk startingtrans scaffold (fst hit)) hits.
Proof.
  intros Hrest Hi.
  induction hits as [|[blast_refgene bitscore1] hits IH]; intros s s' Hnotin;
    simpl.
  - intros H; inversion H; subst. now rewrite app_nil_r.
  - destruct (try_candidate blastdict refdict min_block max_span max_distance
                true make_gff scaffold transdict orderedtranslist i
                genesonscaff startingtrans blast_refgene s)
      as [s1|e s1] eqn:Htry; [|discriminate].
    simpl. intros H.
    apply try_candidate_starts in Htry; auto.
    destruct Htry as [Hw Ha].
    apply IH in H.
    + rewrite H, Hw, <- app_assoc. reflexivity.
    + intros Hin. destruct (Ha _ Hin); contradiction.
Qed.
End Starts.

(** *** Chain attempts, whatever the flags *)

Section Attempts.
Variable blastdict : dict (dict Q).
Variable refdict : dict refgene.
Variables min_block max_span max_distance : Z.
Variables is_verbose make_gff : bool.

(** Whatever the flags, a chain tried from a starting gene puts only later
    genes of the scaffold on [accounted_query_genes]. *)
Lemma try_candidate_accounted scaffold transdict orderedtranslist i genesonscaff
    startingtrans blast_refgene s s' :
  try_candidate blastdict refdict min_block max_span max_distance is_verbose
    make_gff scaffold transdict orderedtranslist i genesonscaff startingtrans
    blast_refgene s = Normal s' ->
  forall g, In g (accounted_query_genes s') ->
            In g (accounted_query_genes s) \/
            In g (map fst (skipn (S i) orderedtranslist)).
Proof.
  unfold try_candidate. cbv zeta.
  set (s1 := if String.eqb blast_refgene (lastmatch s)
             then set_splitgenes (splitgenes s + 1) s else s).
  assert (Ha : accounted_query_genes s1 = accounted_query_genes s).
  { subst s1. destruct (String.eqb blast_refgene (lastmatch s)); reflexivity. }
  clearbody s1.
  destruct (existsb (String.eqb startingtrans) (accounted_query_genes s1)).
  { intros H; inversion H; subst s'. intros g Hg. left. rewrite <- Ha.
    destruct is_verbose; exact Hg. }
  destruct (Z.of_nat i <? genesonscaff - 1).
  - unfold lookup_or_raise.
    destruct (sget blast_refgene refdict) as [r|]; [|discriminate].
    match goal with
    | |- and_then (and_then (walk_genes _ _ _ _ _ _ _ _ _ ?gs ?st) _) _ = _ -> _ =>
        destruct (walk_genes blastdict refdict max_span max_distance is_verbose
                    scaffold startingtrans blast_refgene (rscaffold r) gs st)
          as [s5|e s5] eqn:Hwalk; [|discriminate];
        assert (Ha4 : accounted_query_genes st = accounted_query_genes s1)
          by (destruct is_verbose; reflexivity)
    end.
    simpl and_then.
    destruct (write_block blastdict refdict min_block is_verbose make_gff
                scaffold startingtrans (rscaffold r) transdict s5)
      as [s6|e s6] eqn:Hblock; [|discriminate].
    simpl. intros H; inversion H; subst s'; clear H. simpl.
    apply walk_genes_frame in Hwalk. destruct Hwalk as (_ & _ & Ha5).
    apply write_block_frame in Hblock. destruct Hblock as (_ & _ & Ha6).
    rewrite Ha6. intros g Hg. rewrite <- Ha, <- Ha4. apply Ha5. exact Hg.
  - simpl. intros H; inversion H; subst s'; clear H. intros g Hg. left.
    rewrite <- Ha. destruct is_verbose; exact Hg.
Qed.

Lemma try_candidates_accounted scaffold transdict orderedtranslist i genesonscaff
    startingtrans hits :
  forall s s',
    try_candidates blastdict refdict min_block max_span max_distance is_verbose
      make_gff scaffold transdict orderedtranslist i genesonscaff startingtrans
      hits s = Normal s' ->
    forall g, In g (accounted_query_genes s') ->
              In g (accounted_query_genes s) \/
              In g (map fst (skipn (S i) orderedtranslist)).
Proof.
  induction hits as [|[blast_refgene bitscore1] hits IH]; intros s s'; simpl.
  - intros H; inversion H; subst. auto.
  - destruct (try_candidate blastdict refdict min_block max_span max_distance
                is_verbose make_gff scaffold transdict orderedtranslist i
                genesonscaff startingtrans blast_refgene s)
      as [s1|e s1] eqn:Htry; [|discriminate].
    simpl. intros H g Hg.
    destruct (IH _ _ H g Hg) as [Hin|Hin]; [|right; exact Hin].
    eapply try_candidate_accounted; eauto.
Qed.

(** Whatever the flags, a starting gene that is not on [accounted_query_genes]
    and is not the last gene of its scaffold seeds a chain from the hit: the
    chain is renewed as the pair of the starting gene and the hit (line 231),
    the walk over the later genes is run from it (line 241), the chain is
    written or dropped (lines 292-331), and the hit becomes [lastmatch]. *)
Lemma try_candidate_attempt scaffold transdict orderedtranslist i genesonscaff
    startingtrans blast_refgene s s' :
  ~ In startingtrans (accounted_query_genes s) ->
  Z.of_nat i < genesonscaff - 1 ->
  try_candidate blastdict refdict min_block max_span max_distance is_verbose
    make_gff scaffold transdict orderedtranslist i genesonscaff startingtrans
    blast_refgene s = Normal s' ->
  exists r s_start s_walk s_block,
    sget blast_refgene refdict = Some r /\
    syntenylist s_start = [(startingtrans, blast_refgene)] /\
    subjectpos s_start = (rstart r, rend r) /\
    accounted_query_genes s_start = accounted_query_genes s /\
    same_books s s_start /\
    walk_genes blastdict refdict max_span max_distance is_verbose scaffold
      startingtrans blast_refgene (rscaffold r) (skipn (S i) orderedtranslist)
      s_start = Normal s_walk /\
    write_block blastdict refdict min_block is_verbose make_gff scaffold
      startingtrans (rscaffold r) transdict s_walk = Normal s_block /\
    s' = set_lastmatch blast_refgene s_block.
Proof.
  intros Hnotin Hi. unfold try_candidate. cbv zeta.
  set (s1 := if String.eqb blast_refgene (lastmatch s)
             then set_splitgenes (splitgenes s + 1) s else s).
  assert (H1 : accounted_query_genes s1 = accounted_query_genes s /\
               same_books s s1).
  { subst s1. destruct (String.eqb blast_refgene (lastmatch s));
      unfold same_books; simpl; auto 10. }
  clearbody s1. destruct H1 as [Ha Hb].
  rewrite existsb_eqb_notin by (rewrite Ha; exact Hnotin).
  apply Z.ltb_lt in Hi. rewrite Hi.
  unfold lookup_or_raise.
  destruct (sget blast_refgene refdict) as [r|]; [|discriminate].
  match goal with
  | |- and_then (and_then (walk_genes _ _ _ _ _ _ _ _ _ ?gs ?st) _) _ = _ -> _ =>
      destruct (walk_genes blastdict refdict max_span max_distance is_verbose
                  scaffold startingtrans blast_refgene (rscaffold r) gs st)
        as [s5|e s5] eqn:Hwalk; [|discriminate];
      assert (H4 : syntenylist st = [(startingtrans, blast_refgene)] /\
                   subjectpos st = (rstart r, rend r) /\
                   accounted_query_genes st = accounted_query_genes s1 /\
                   same_books s1 st)
        by (destruct is_verbose; unfold same_books; simpl; auto 10);
      set (s4 := st) in *
  end.
  simpl and_then.
  destruct (write_block blastdict refdict min_block is_verbose make_gff
              scaffold startingtrans (rscaffold r) transdict s5)
    as [s6|e s6] eqn:Hblock; [|discriminate].
  simpl. intros H; inversion H; subst s'; clear H.
  destruct H4 as (Hl4 & Hp4 & Ha4 & Hb4).
  exists r, s4, s5, s6. split; [reflexivity|]. split; [exact Hl4|].
  split; [exact Hp4|]. split; [congruence|]. split.
  { unfold same_books in *. intuition congruence. }
  split; [exact Hwalk|]. split; [exact Hblock|reflexivity].
Qed.
End Attempts.

Lemma try_candidates_app blastdict refdict min_block max_span max_distance
    is_verbose make_gff scaffold transdict orderedtranslist i genesonscaff
    startingtrans before later :
  forall s,
    try_candidates blastdict refdict min_block max_span max_distance is_verbose
      make_gff scaffold transdict orderedtranslist i genesonscaff startingtrans
      (before ++ later) s
    = and_then
        (try_candidates blastdict refdict min_block max_span max_distance
           is_verbose make_gff scaffold transdict orderedtranslist i genesonscaff
           startingtrans before s)
        (try_candidates blastdict refdict min_block max_span max_distance
           is_verbose make_gff scaffold transdict orderedtranslist i genesonscaff
           startingtrans later).
Proof.
  induction before as [|[blast_refgene bitscore1] before IH]; intros s; simpl;
    [reflexivity|].
  destruct (try_candidate blastdict refdict min_block max_span max_distance
              is_verbose make_gff scaffold transdict orderedtranslist i
              genesonscaff startingtrans blast_refgene s); simpl; auto.
Qed.

Lemma descending_prefix (before later : list (string * Q)) (hit : string * Q) :
  Sorted (fun a b => (snd b <= snd a)%Q) (before ++ hit :: later) ->
  Forall (fun earlier => (snd hit <= snd earlier)%Q) before.
Proof.
  intros Hs. apply Sorted_StronglySorted in Hs.
  2:{ intros a b c Hab Hbc. eapply Qle_trans; eauto. }
  induction before as [|a before IH]; simpl in *; [constructor|].
  inversion Hs as [|? ? Hs' Hall]; subst. constructor; [|now apply IH].
  rewrite Forall_forall in Hall. apply Hall.
  apply in_or_app. right. now left.
Qed.

(** Every hit of a starting gene starts a chain, whether the chains before it
    were kept or dropped. *)
Lemma anchor_tries_every_candidate :
  forall (blastdict : dict (dict Q)) (refdict : dict refgene)
         (min_block max_span max_distance : Z) (make_gff : bool)
         (scaffold : string) (transdict : dict querygene)
         (orderedtranslist : list (string * querygene)) (genesonscaff : Z)
         (i : nat) (startingtrans : string) (info : querygene)
         (hits : dict Q) (s s' : wstate),
    sget startingtrans blastdict = Some hits ->
    ~ In startingtrans (accounted_query_genes s) ->
    ~ In startingtrans (map fst (skipn (S i) orderedtranslist)) ->
    Z.of_nat i < genesonscaff - 1 ->
    walk_anchor blastdict refdict min_block max_span max_distance true make_gff
      scaffold transdict orderedtranslist genesonscaff i (startingtrans, info) s
    = Normal s' ->
    walks_started (stderr s') =
      walks_started (stderr s)
      ++ map (fun hit => MsgStartWalk startingtrans scaffold (fst hit))
             (sorted by_score_desc hits).
Proof.
  intros blastdict refdict min_block max_span max_distance make_gff scaffold
    transdict orderedtranslist genesonscaff i startingtrans info hits s s'
    Hhits Hnotin Hrest Hi Hrun.
  unfold walk_anchor in Hrun. cbv zeta in Hrun. simpl fst in Hrun.
  rewrite Hhits in Hrun.
  apply try_candidates_starts in Hrun; auto.
Qed.

(** C3 (one chain attempt per starting gene), as far as the chains are dropped,
    whatever the flags [-v] and [-G].  The loop over the hits of the starting
    gene goes from the highest score down and has no [break]: a chain that is
    dropped does not end it.  Take a starting gene that is not the last gene of
    its scaffold, is not on [accounted_query_genes] and whose name is not the
    name of a later gene.  If the chains of the hits in front of [blast_refgene]
    have all been tried and none was kept, then [blast_refgene], whose score is
    at most theirs, seeds a chain of its own: the chain is renewed as the pair
    of the starting gene and [blast_refgene], with the reference position of
    [blast_refgene] and the counters and output left by the hits before; the
    walk over the later genes is run from it; the chain is written or dropped;
    and the loop goes on behind it.  In a verbose run each of these hits has its
    [#3 Starting walk] line.  (What the loop does once a chain has been kept is
    not part of this statement.) *)
Theorem anchor_retries_after_discard :
  forall (blastdict : dict (dict Q)) (refdict : dict refgene)
         (min_block max_span max_distance : Z) (is_verbose make_gff : bool)
         (scaffold : string) (transdict : dict querygene)
         (orderedtranslist : list (string * querygene)) (genesonscaff : Z)
         (i : nat) (startingtrans : string) (hits : dict Q)
         (before : list (string * Q)) (blast_refgene : string) (bitscore1 : Q)
         (later : list (string * Q)) (s s1 s2 : wstate),
    sorted by_score_desc hits = before ++ (blast_refgene, bitscore1) :: later ->
    ~ In startingtrans (accounted_query_genes s) ->
    ~ In startingtrans (map fst (skipn (S i) orderedtranslist)) ->
    Z.of_nat i < genesonscaff - 1 ->
    try_candidates blastdict refdict min_block max_span max_distance is_verbose
      make_gff scaffold transdict orderedtranslist i genesonscaff startingtrans
      before s = Normal s1 ->
    blocks_found s1 = blocks_found s ->
    try_candidate blastdict refdict min_block max_span max_distance is_verbose
      make_gff scaffold transdict orderedtranslist i genesonscaff startingtrans
      blast_refgene s1 = Normal s2 ->
    (exists r s_start s_walk s_block,
        sget blast_refgene refdict = Some r /\
        syntenylist s_start = [(startingtrans, blast_refgene)] /\
        subjectpos s_start = (rstart r, rend r) /\
        accounted_query_genes s_start = accounted_query_genes s1 /\
        same_books s1 s_start /\
        walk_genes blastdict refdict max_span max_distance is_verbose scaffold
          startingtrans blast_refgene (rscaffold r)
          (skipn (S i) orderedtranslist) s_start = Normal s_walk /\
        write_block blastdict refdict min_block is_verbose make_gff scaffold
          startingtrans (rscaffold r) transdict s_walk = Normal s_block /\
        s2 = set_lastmatch blast_refgene s_block) /\
    (is_verbose = true ->
     walks_started (stderr s2) =
       walks_started (stderr s)
       ++ map (fun hit => MsgStartWalk startingtrans scaffold (fst hit))
              (before ++ [(blast_refgene, bitscore1)])) /\
    Forall (fun earlier => (bitscore1 <= snd earlier)%Q) before /\
    try_candidates blastdict refdict min_block max_span max_distance is_verbose
      make_gff scaffold transdict orderedtranslist i genesonscaff startingtrans
      (sorted by_score_desc hits) s
    = try_candidates blastdict refdict min_block max_span max_distance is_verbose
        make_gff scaffold transdict orderedtranslist i genesonscaff startingtrans
        later s2.
Proof.
  intros blastdict refdict min_block max_span max_distance is_verbose make_gff
    scaffold transdict orderedtranslist genesonscaff i startingtrans hits before
    blast_refgene bitscore1 later s s1 s2 Hsplit Hnotin Hrest Hi Hbefore _ Htry.
  assert (Hrun :
    try_candidates blastdict refdict min_block max_span max_distance is_verbose
      make_gff scaffold transdict orderedtranslist i genesonscaff startingtrans
      (before ++ [(blast_refgene, bitscore1)]) s = Normal s2).
  { rewrite try_candidates_app, Hbefore. simpl. rewrite Htry. reflexivity. }
  assert (Hnotin1 : ~ In startingtrans (accounted_query_genes s1)).
  { intros Hin.
    destruct (try_candidates_accounted _ _ _ _ _ _ _ _ _ _ _ _ _ _ _ _ Hbefore
                _ Hin); contradiction. }
  split; [|split; [|split]].
  - eapply try_candidate_attempt; eauto.
  - intros Hv. subst is_verbose. eapply try_candidates_starts; eauto.
  - apply (descending_prefix before later (blast_refgene, bitscore1)).
    rewrite <- Hsplit. apply hits_in_descending_order.
  - rewrite Hsplit.
    change (before ++ (blast_refgene, bitscore1) :: later)
      with (before ++ [(blast_refgene, bitscore1)] ++ later).
    rewrite app_assoc, try_candidates_app, Hrun. reflexivity.
Qed.

Lemma anchor_retries_after_discard_witness :
  exists r s_start s_walk s_block,
    sget "q2" discard_refdict = Some r /\
    syntenylist s_start = [("g2", "q2")] /\
    subjectpos s_start = (rstart r, rend r) /\
    accounted_query_genes s_start
    = accounted_query_genes
        (final_state
           (try_candidates (tl discard_blastdict) discard_refdict 3 3 1000 false
              false "X" four_genes four_genes 1 4 "g2" [("r2", 50#1)]
              (set_walksteps 3 initial_state))) /\
    same_books
      (final_state
         (try_candidates (tl discard_blastdict) discard_refdict 3 3 1000 false
            false "X" four_genes four_genes 1 4 "g2" [("r2", 50#1)]
            (set_walksteps 3 initial_state)))
      s_start /\
    walk_genes (tl discard_blastdict) discard_refdict 3 1000 false "X" "g2" "q2"
      (rscaffold r) (skipn 2 four_genes) s_start = Normal s_walk /\
    write_block (tl discard_blastdict) discard_refdict 3 false false "X" "g2"
      (rscaffold r) four_genes s_walk = Normal s_block /\
    final_state
      (try_candidates (tl discard_blastdict) discard_refdict 3 3 1000 false false
         "X" four_genes four_genes 1 4 "g2" [("r2", 50#1); ("q2", 40#1)]
         (set_walksteps 3 initial_state))
    = set_lastmatch "q2" s_block.
Proof.
  refine (proj1 (anchor_retries_after_discard (tl discard_blastdict)
                   discard_refdict 3 3 1000 false false "X" four_genes four_genes
                   4 1 "g2" [("r2", 50#1); ("q2", 40#1)] [("r2", 50#1)] "q2"
                   (40#1) [] (set_walksteps 3 initial_state)
                   (final_state
                      (try_candidates (tl discard_blastdict) discard_refdict 3 3
                         1000 false false "X" four_genes four_genes 1 4 "g2"
                         [("r2", 50#1)] (set_walksteps 3 initial_state)))
                   (final_state
                      (try_candidates (tl discard_blastdict) discard_refdict 3 3
                         1000 false false "X" four_genes four_genes 1 4 "g2"
                         [("r2", 50#1); ("q2", 40#1)]
                         (set_walksteps 3 initial_state)))
                   _ _ _ _ _ _ _)).
  - vm_compute. reflexivity.
  - simpl. tauto.
  - simpl. intros [H|[H|[]]]; discriminate H.
  - lia.
  - vm_compute. reflexivity.
  - vm_compute. reflexivity.
  - vm_compute. reflexivity.
Defined.

(** ** The exit without blocks (lines 336-341) *)

Lemma py_max_nonempty (l : list Z) : l <> [] -> exists m, py_max l = Some m.
Proof. destruct l; [congruence|]. intros _. simpl. eauto. Qed.



(** ** Scenario B *)




(** ** The dictionaries of [main] with [-S] (lines 393-396) *)

(** On the command line [switched_invocation] the call on line 394 raises
    [TypeError]: [delimiter] is not given.  No tuple is bound to [querydict],
    [synteny_walk] is not entered, and no [AttributeError] is raised. *)
Lemma switched_mode_type_error :
  main whole_attribute (fun names => names) switched_invocation
  = Raised TypeError initial_state /\
  forall s, main whole_attribute (fun names => names) switched_invocation
            <> Raised AttributeError s.
Proof.
  assert (H : main whole_attribute (fun names => names) switched_invocation
              = Raised TypeError initial_state) by (vm_compute; reflexivity).
  split; [exact H|]. intros s. rewrite H. discriminate.
Qed.

(** C9 (switched mode), as the code runs it.  With [-S], once the exclusion list
    has been read, [main] ends with the [TypeError] of the call of [parse_gtf] on
    line 394, which passes three of the four parameters without a default; the
    2-tuple is never built and [synteny_walk] is never entered.  Whatever the
    command line, a run with [-S] ends with an exception in the initial state of
    the walker: nothing is written to [wayout], so no block is emitted. *)
Theorem switched_mode_never_walks :
  forall (re_search : pattern -> string -> option string)
         (shuffle : list string -> list string) (a : invocation),
    switch_query a = true ->
    (forall exclusionDict,
        load_exclusions a = Ok exclusionDict ->
        main re_search shuffle a = Raised TypeError initial_state) /\
    (exists e, main re_search shuffle a = Raised e initial_state /\
               e <> AttributeError) /\
    wayout (final_state (main re_search shuffle a)) = [].
Proof.
  intros re_search shuffle a Hswitch.
  assert (Hok : forall exclusionDict,
             load_exclusions a = Ok exclusionDict ->
             main re_search shuffle a = Raised TypeError initial_state).
  { intros exclusionDict Hload. unfold main. rewrite Hload. simpl.
    unfold setup_dictionaries. rewrite Hswitch. reflexivity. }
  assert (Hex : exists e, main re_search shuffle a = Raised e initial_state /\
                          e <> AttributeError).
  { destruct (load_exclusions a) as [exclusionDict|e] eqn:Hload.
    - exists TypeError. split; [now apply (Hok exclusionDict)|discriminate].
    - exists e. split.
      + unfold main. rewrite Hload. reflexivity.
      + unfold load_exclusions in Hload.
        destruct (exclude a) as [terms|]; [|discriminate Hload].
        assert (Hread : forall ts d e', read_exclusions ts d = Err e' ->
                                        e' = IndexError).
        { induction ts as [|t ts IH]; intros d e'; simpl; [discriminate|].
          destruct t; [intros H; now inversion H|apply IH]. }
        destruct (read_exclusions terms []) as [d|e'] eqn:Hr;
          [discriminate Hload|].
        simpl in Hload. inversion Hload; subst.
        rewrite (Hread _ _ _ Hr). discriminate. }
  split; [exact Hok|split; [exact Hex|]].
  destruct Hex as (e & Hmain & _). rewrite Hmain. reflexivity.
Qed.

Lemma switched_mode_never_walks_witness :
  wayout (final_state
            (main whole_attribute (fun names => names) switched_invocation)) = [].
Proof.
  exact (proj2 (proj2 (switched_mode_never_walks whole_attribute
                         (fun names => names) switched_invocation eq_refl))).
Defined.

(** ** Repeated hits in [parse_tabular_blast] (lines 146-155) *)

Lemma sget_default_sset_same {V : Type} k (v dflt : V) d :
  dict_get_default String.eqb k dflt (sset k v d) = v.
Proof.
  unfold dict_get_default. fold (sget k (sset k v d)).
  now rewrite sget_sset_same.
Qed.

Lemma sget_default_sset_other {V : Type} k k' (v dflt : V) d :
  k <> k' ->
  dict_get_default String.eqb k' dflt (sset k v d)
  = dict_get_default String.eqb k' dflt d.
Proof.
  intros Hne. unfold dict_get_default.
  fold (sget k' (sset k v d)). fold (sget k' d).
  now rewrite sget_sset_other.
Qed.

Lemma parse_blast_lines_app cutoff qdel rdel sw maxhits l1 l2 :
  forall st,
    parse_blast_lines cutoff qdel rdel sw maxhits (l1 ++ l2) st
    = bind (parse_blast_lines cutoff qdel rdel sw maxhits l1 st)
           (parse_blast_lines cutoff qdel rdel sw maxhits l2).
Proof.
  induction l1 as [|ln l1 IH]; intros st; simpl; [reflexivity|].
  destruct (parse_blast_line cutoff qdel rdel sw maxhits ln st); simpl; auto.
Qed.

Lemma parse_blast_line_invariant cutoff qdel rdel sw maxhits ln st st' :
  parse_blast_line cutoff qdel rdel sw maxhits ln st = Ok st' ->
  stored_le_counted st -> stored_le_counted st'.
Proof.
  unfold parse_blast_line.
  destruct (blast_ids qdel rdel sw ln) as [[queryseq subjectid]|e]; simpl;
    [|discriminate].
  destruct (Qgtb (b_evalue ln) cutoff).
  { intros H; inversion H; subst st'.
    unfold stored_le_counted, candidates, hits_counted. simpl. auto. }
  destruct (maxhits <=? dict_get_default String.eqb queryseq 0 (query_hits st)).
  { intros H; inversion H; subst st'. auto. }
  intros H; inversion H; subst st'; clear H.
  unfold stored_le_counted, candidates, hits_counted. simpl. intros Hinv q.
  destruct (String.eqb_spec queryseq q) as [->|Hne].
  - rewrite !sget_default_sset_same.
    pose proof (sset_length_le subjectid (b_bitscore ln)
                  (dict_get_default String.eqb q [] (query_to_sub_dict st))).
    specialize (Hinv q). lia.
  - rewrite !sget_default_sset_other by assumption. apply Hinv.
Qed.

Lemma parse_blast_lines_invariant cutoff qdel rdel sw maxhits lines :
  forall st st',
    parse_blast_lines cutoff qdel rdel sw maxhits lines st = Ok st' ->
    stored_le_counted st -> stored_le_counted st'.
Proof.
  induction lines as [|ln lines IH]; intros st st'; simpl.
  - intros H; inversion H; subst; auto.
  - destruct (parse_blast_line cutoff qdel rdel sw maxhits ln st) as [st1|e]
      eqn:Hline; simpl; [|discriminate].
    intros H Hinv. eapply IH; [exact H|].
    eapply parse_blast_line_invariant; eauto.
Qed.

Lemma stored_le_counted_init : stored_le_counted blast_init.
Proof.
  unfold stored_le_counted, candidates, hits_counted, dict_get_default. simpl.
  intros q. lia.
Qed.

Lemma parse_blast_line_keeps cutoff qdel rdel sw maxhits ln st st' q sbj v :
  parse_blast_line cutoff qdel rdel sw maxhits ln st = Ok st' ->
  stored_score st q sbj = Some v ->
  (exists v', stored_score st' q sbj = Some v') /\
  hits_counted st q <= hits_counted st' q.
Proof.
  unfold parse_blast_line, stored_score, candidates, hits_counted.
  destruct (blast_ids qdel rdel sw ln) as [[queryseq subjectid]|e]; simpl;
    [|discriminate].
  destruct (Qgtb (b_evalue ln) cutoff).
  { intros H; inversion H; subst st'. simpl. split; [eauto|lia]. }
  destruct (maxhits <=? dict_get_default String.eqb queryseq 0 (query_hits st)).
  { intros H; inversion H; subst st'. split; [eauto|lia]. }
  intros H; inversion H; subst st'; clear H. simpl. intros Hv.
  destruct (String.eqb_spec queryseq q) as [->|Hne].
  - rewrite !sget_default_sset_same. split; [|lia].
    destruct (String.eqb_spec subjectid sbj) as [->|Hs].
    + rewrite sget_sset_same. eauto.
    + rewrite sget_sset_other by assumption. eauto.
  - rewrite !sget_default_sset_other by assumption. split; [eauto|lia].
Qed.

Lemma parse_blast_lines_keeps cutoff qdel rdel sw maxhits lines q sbj :
  forall st st' v,
    parse_blast_lines cutoff qdel rdel sw maxhits lines st = Ok st' ->
    stored_score st q sbj = Some v ->
    (exists v', stored_score st' q sbj = Some v') /\
    hits_counted st q <= hits_counted st' q.
Proof.
  induction lines as [|ln lines IH]; intros st st' v; simpl.
  - intros H; inversion H; subst. split; [eauto|lia].
  - destruct (parse_blast_line cutoff qdel rdel sw maxhits ln st) as [st1|e]
      eqn:Hline; simpl; [|discriminate].
    intros H Hv.
    destruct (parse_blast_line_keeps _ _ _ _ _ _ _ _ _ _ _ Hline Hv)
      as [[v1 Hv1] Hle1].
    destruct (IH _ _ _ H Hv1) as [Hex Hle2]. split; [exact Hex|lia].
Qed.

(** A line that is kept stores its bit score for its pair and counts for its
    query, whatever was stored before. *)
Lemma parse_blast_line_kept cutoff qdel rdel sw maxhits ln st q sbj :
  blast_ids qdel rdel sw ln = Ok (q, sbj) ->
  Qgtb (b_evalue ln) cutoff = false ->
  hits_counted st q < maxhits ->
  parse_blast_line cutoff qdel rdel sw maxhits ln st
  = Ok (mk_blast_state
          (sset q (sset sbj (b_bitscore ln) (candidates st q))
             (query_to_sub_dict st))
          (sset q (hits_counted st q + 1) (query_hits st))
          (evalueRemovals st)).
Proof.
  intros Hids Hev Hcap. unfold parse_blast_line. rewrite Hids. simpl.
  rewrite Hev. unfold hits_counted in Hcap.
  rewrite (proj2 (Z.leb_gt _ _) Hcap). reflexivity.
Qed.

(** C10 (repeated hits).  Take two lines of the file, [earlier] in front of
    [ln], with the same trimmed query [q] and the same trimmed subject [sbj],
    both kept when they are read: the e-value is not above the cutoff and [q] has
    fewer than [maxhits] hits counted.  After [ln] the score stored for the pair
    is the bit score of [ln], the number of subjects stored for [q] is what it was
    in front of [ln], and both lines have been counted for [q]; so fewer subjects
    are stored for [q] than hits are counted.  If the count has thereby reached
    [maxhits], fewer than [maxhits] subjects are stored for [q], and yet every
    following line for [q] that passes the e-value filter is dropped, whatever
    its subject: the state stays as it is. *)
Theorem blast_duplicate_hits :
  forall (evaluecutoff : Q) (querydelimiter refdelimiter : string)
         (switchquery : bool) (maxhits : Z)
         (front between : list blastline) (earlier ln : blastline)
         (st0 st : blast_state) (q sbj : string),
    parse_blast_lines evaluecutoff querydelimiter refdelimiter switchquery maxhits
      front blast_init = Ok st0 ->
    blast_ids querydelimiter refdelimiter switchquery earlier = Ok (q, sbj) ->
    Qgtb (b_evalue earlier) evaluecutoff = false ->
    hits_counted st0 q < maxhits ->
    parse_blast_lines evaluecutoff querydelimiter refdelimiter switchquery maxhits
      (front ++ earlier :: between) blast_init = Ok st ->
    blast_ids querydelimiter refdelimiter switchquery ln = Ok (q, sbj) ->
    Qgtb (b_evalue ln) evaluecutoff = false ->
    hits_counted st q < maxhits ->
    exists st',
      parse_blast_lines evaluecutoff querydelimiter refdelimiter switchquery
        maxhits ((front ++ earlier :: between) ++ [ln]) blast_init = Ok st' /\
      stored_score st' q sbj = Some (b_bitscore ln) /\
      List.length (candidates st' q) = List.length (candidates st q) /\
      hits_counted st' q = hits_counted st q + 1 /\
      hits_counted st0 q + 2 <= hits_counted st' q /\
      Z.of_nat (List.length (candidates st' q)) < hits_counted st' q /\
      (hits_counted st' q = maxhits ->
         Z.of_nat (List.length (candidates st' q)) < maxhits /\
         forall (following : blastline) (sbj' : string),
           blast_ids querydelimiter refdelimiter switchquery following
           = Ok (q, sbj') ->
           Qgtb (b_evalue following) evaluecutoff = false ->
           parse_blast_line evaluecutoff querydelimiter refdelimiter switchquery
             maxhits following st' = Ok st').
Proof.
  intros evaluecutoff querydelimiter refdelimiter switchquery maxhits front
    between earlier ln st0 st q sbj Hfront Hids0 Hev0 Hcap0 Hrun Hids Hev Hcap.
  pose proof (parse_blast_lines_invariant _ _ _ _ _ _ _ _ Hrun
                stored_le_counted_init) as Hinv.
  specialize (Hinv q).
  (* the state behind [earlier] and what [between] keeps of it *)
  rewrite parse_blast_lines_app, Hfront in Hrun. simpl in Hrun.
  rewrite (parse_blast_line_kept _ _ _ _ _ _ _ _ _ Hids0 Hev0 Hcap0) in Hrun.
  simpl in Hrun.
  match type of Hrun with
  | parse_blast_lines _ _ _ _ _ _ ?st1 = _ =>
      assert (Hst1 : stored_score st1 q sbj = Some (b_bitscore earlier) /\
                     hits_counted st1 q = hits_counted st0 q + 1)
  end.
  { unfold stored_score, candidates, hits_counted. simpl.
    rewrite !sget_default_sset_same. rewrite sget_sset_same. auto. }
  destruct Hst1 as [Hstored1 Hcount1].
  destruct (parse_blast_lines_keeps _ _ _ _ _ _ _ _ _ _ _ Hrun Hstored1)
    as [[old Hold] Hmono].
  (* the line [ln] *)
  pose proof (parse_blast_line_kept evaluecutoff querydelimiter refdelimiter
                switchquery maxhits ln st q sbj Hids Hev Hcap) as Hline.
  eexists. split.
  { rewrite parse_blast_lines_app.
    rewrite parse_blast_lines_app, Hfront. simpl.
    rewrite (parse_blast_line_kept _ _ _ _ _ _ _ _ _ Hids0 Hev0 Hcap0). simpl.
    rewrite Hrun. simpl. rewrite Hline. reflexivity. }
  unfold stored_score, candidates, hits_counted in *. simpl.
  rewrite !sget_default_sset_same.
  rewrite sget_sset_same.
  rewrite (sset_length_present sbj (b_bitscore ln) old _ Hold).
  repeat split; try lia.
  intros following sbj' Hids' Hev'.
  unfold parse_blast_line. rewrite Hids'. simpl. rewrite Hev'.
  rewrite sget_default_sset_same.
  rewrite (proj2 (Z.leb_le _ _)) by lia. reflexivity.
Qed.

Lemma blast_duplicate_hits_witness :
  exists st',
    parse_blast_lines (1#10000) "." "." false 2
      (([] ++ first_hit :: []) ++ [second_hit]) blast_init = Ok st' /\
    stored_score st' "g1" "r1" = Some (60#1) /\
    List.length (candidates st' "g1") = 1%nat /\
    hits_counted st' "g1" = 2 /\
    parse_blast_line (1#10000) "." "." false 2 third_hit st' = Ok st'.
Proof.
  destruct (blast_duplicate_hits (1#10000) "." "." false 2 [] [] first_hit
              second_hit blast_init
              (mk_blast_state [("g1", [("r1", 50#1)])] [("g1", 1)] 0) "g1" "r1"
              ltac:(vm_compute; reflexivity) ltac:(vm_compute; reflexivity)
              ltac:(vm_compute; reflexivity) ltac:(vm_compute; reflexivity)
              ltac:(vm_compute; reflexivity) ltac:(vm_compute; reflexivity)
              ltac:(vm_compute; reflexivity) ltac:(vm_compute; reflexivity))
    as (st' & Hrun & Hscore & Hlen & Hcount & _ & _ & Hfull).
  exists st'. split; [exact Hrun|]. split; [exact Hscore|].
  split; [exact Hlen|]. split; [exact Hcount|].
  destruct (Hfull Hcount) as [_ Hdrop].
  apply (Hdrop third_hit "r2"); vm_compute; reflexivity.
Defined.

(** ** Genes from exons in [parse_gtf] (lines 95-121) *)

Lemma fold_left_min (l : list Z) :
  forall a,
    (fold_left Z.min l a = a \/ In (fold_left Z.min l a) l) /\
    fold_left Z.min l a <= a /\
    forall x, In x l -> fold_left Z.min l a <= x.
Proof.
  induction l as [|y l IH]; intros a; simpl.
  - split; [now left|split; [lia|intros x []]].
  - destruct (IH (Z.min a y)) as (Hin & Hle & Hall).
    split; [|split].
    + destruct Hin as [Heq|Hin]; [|right; right; exact Hin].
      rewrite Heq. destruct (Z.min_spec a y) as [[_ ->]|[_ ->]]; auto.
    + lia.
    + intros x [<-|Hx]; [lia|auto].
Qed.

Lemma fold_left_max (l : list Z) :
  forall a,
    (fold_left Z.max l a = a \/ In (fold_left Z.max l a) l) /\
    a <= fold_left Z.max l a /\
    forall x, In x l -> x <= fold_left Z.max l a.
Proof.
  induction l as [|y l IH]; intros a; simpl.
  - split; [now left|split; [lia|intros x []]].
  - destruct (IH (Z.max a y)) as (Hin & Hle & Hall).
    split; [|split].
    + destruct Hin as [Heq|Hin]; [|right; right; exact Hin].
      rewrite Heq. destruct (Z.max_spec a y) as [[_ ->]|[_ ->]]; auto.
    + lia.
    + intros x [<-|Hx]; [lia|auto].
Qed.

Lemma py_min_spec (l : list Z) (m : Z) :
  py_min l = Some m -> In m l /\ forall x, In x l -> m <= x.
Proof.
  destruct l as [|a l]; simpl; [discriminate|].
  intros H; inversion H; subst m; clear H.
  destruct (fold_left_min l a) as (Hin & Hle & Hall).
  split; [destruct Hin as [->|Hin]; auto|].
  intros x [<-|Hx]; auto.
Qed.

Lemma py_max_spec (l : list Z) (m : Z) :
  py_max l = Some m -> In m l /\ forall x, In x l -> x <= m.
Proof.
  destruct l as [|a l]; simpl; [discriminate|].
  intros H; inversion H; subst m; clear H.
  destruct (fold_left_max l a) as (Hin & Hle & Hall).
  split; [destruct Hin as [->|Hin]; auto|].
  intros x [<-|Hx]; auto.
Qed.

Lemma last_error_snoc {A : Type} (l : list A) (x : A) :
  last_error (l ++ [x]) = Some x.
Proof.
  destruct l as [|a l]; simpl; [reflexivity|].
  f_equal. apply last_last.
Qed.

Lemma last_error_None {A : Type} (l : list A) : last_error l = None -> l = [].
Proof. destruct l; [reflexivity|discriminate]. Qed.

Lemma exon_records_snoc re_search excludedict lines ln gene :
  exon_records re_search excludedict (lines ++ [ln]) gene
  = exon_records re_search excludedict lines gene
    ++ (if collects re_search excludedict gene ln then [ln] else []).
Proof. unfold exon_records. rewrite filter_app. reflexivity. Qed.

Lemma tables_hold_skip re_search excludedict lines ln ex :
  (forall gene, collects re_search excludedict gene ln = false) ->
  tables_hold re_search excludedict lines ex ->
  tables_hold re_search excludedict (lines ++ [ln]) ex.
Proof.
  intros Hskip [Hnd Hall]. split; [exact Hnd|].
  intros gene. rewrite exon_records_snoc, Hskip, app_nil_r. apply Hall.
Qed.

Lemma index_entry_empty isref scaffold gene start end_ strand :
  ~ index_entry isref (empty_index isref) scaffold gene start end_ strand.
Proof.
  destruct isref; simpl.
  - discriminate.
  - intros (genes & H & _). discriminate H.
Qed.

Lemma index_entry_store isref scaffold gene start end_ strand d
    scaffold' gene' start' end' strand' :
  index_entry isref (store_gene isref scaffold gene start end_ strand d)
    scaffold' gene' start' end' strand' ->
  (gene' = gene /\ scaffold' = scaffold /\ start' = start /\ end' = end_ /\
   strand' = strand) \/
  index_entry isref d scaffold' gene' start' end' strand'.
Proof.
  destruct isref; simpl.
  - destruct (String.eqb_spec gene gene') as [<-|Hne].
    + rewrite sget_sset_same. intros H; inversion H; subst. left; auto.
    + rewrite sget_sset_other by assumption. auto.
  - intros (genes & Hsc & Hg).
    destruct (String.eqb_spec scaffold scaffold') as [<-|Hne].
    + rewrite sget_sset_same in Hsc. inversion Hsc; subst genes; clear Hsc.
      destruct (String.eqb_spec gene gene') as [<-|Hneg].
      * rewrite sget_sset_same in Hg. inversion Hg; subst. left; auto.
      * rewrite sget_sset_other in Hg by assumption.
        right. unfold dict_get_default in Hg.
        match type of Hg with
        | context [match ?lookup with Some _ => _ | None => _ end] =>
            destruct lookup as [inner|] eqn:Hinner;
              [|unfold sget in Hg; simpl in Hg; discriminate Hg]
        end.
        exists inner; auto.
    + rewrite sget_sset_other in Hsc by assumption.
      right. exists genes; auto.
Qed.

Lemma exon_gene_fields_ok isref ex gene exons scaffold start end_ strand :
  exon_gene_fields isref ex gene exons = Ok (scaffold, start, end_, strand) ->
  sget gene (nametoscaffold ex) = Some scaffold /\
  sget gene (nametostrand ex) = Some strand /\
  py_min (map fst exons) = Some start /\
  py_max (map snd exons) = Some end_.
Proof.
  unfold exon_gene_fields, sindex, value_or_error.
  destruct isref;
    destruct (sget gene (nametoscaffold ex)) as [sc|]; simpl; try discriminate;
    destruct (py_min (map fst exons)) as [lo|]; simpl; try discriminate;
    destruct (py_max (map snd exons)) as [hi|]; simpl; try discriminate;
    destruct (sget gene (nametostrand ex)) as [str|]; simpl; try discriminate;
    intros H; inversion H; subst; auto.
Qed.

Section ExonInference.
Variable re_search : pattern -> string -> option string.
Variable excludedict : option (dict bool).
Variable delimiter : option string.
Variable isref : bool.

Lemma parse_gtf_line_tables prefix ln genes ex acc' :
  gene_record excludedict ln = false ->
  tables_hold re_search excludedict prefix ex ->
  parse_gtf_line re_search true excludedict delimiter isref ln (genes, ex)
  = Ok acc' ->
  fst acc' = genes /\
  tables_hold re_search excludedict (prefix ++ [ln]) (snd acc').
Proof.
  intros Hgene Htab. unfold parse_gtf_line, gene_record in *.
  destruct (excluded excludedict (g_scaffold ln)) eqn:Hex.
  { intros H; inversion H; subst acc'; simpl. split; [reflexivity|].
    apply tables_hold_skip; [|exact Htab].
    intros gene. unfold collects. now rewrite Hex. }
  simpl in Hgene. rewrite Hgene. simpl andb.
  destruct (String.eqb (g_feature ln) "exon") eqn:Hfeat.
  2:{ intros H; inversion H; subst acc'; simpl. split; [reflexivity|].
      apply tables_hold_skip; [|exact Htab].
      intros gene. unfold collects. rewrite Hfeat. now rewrite andb_false_r. }
  destruct (search_id re_search pat_gene_id pat_name (g_attributes ln))
    as [geneid|e] eqn:Hid; simpl; [|discriminate].
  intros H; inversion H; subst acc'; clear H. simpl.
  split; [reflexivity|].
  destruct Htab as [Hnd Hall]. split; [simpl; now apply sset_NoDup|].
  intros gene. rewrite exon_records_snoc.
  assert (Hcol : collects re_search excludedict gene ln = String.eqb geneid gene)
    by (unfold collects; now rewrite Hex, Hfeat, Hid).
  rewrite Hcol. simpl.
  destruct (String.eqb_spec geneid gene) as [->|Hne]; cbv iota.
  - rewrite last_error_snoc. rewrite !sget_sset_same.
    repeat split; auto. f_equal. rewrite map_app. simpl. f_equal.
    specialize (Hall gene). unfold dict_get_default.
    fold (sget gene (exonboundaries ex)).
    destruct (last_error (exon_records re_search excludedict prefix gene))
      as [final|] eqn:Hlast.
    + destruct Hall as (-> & _). reflexivity.
    + rewrite Hall. apply last_error_None in Hlast. now rewrite Hlast.
  - rewrite app_nil_r. rewrite !sget_sset_other by assumption. apply Hall.
Qed.

Lemma parse_gtf_lines_tables lines :
  forall prefix genes ex acc',
    (forall ln, In ln lines -> gene_record excludedict ln = false) ->
    tables_hold re_search excludedict prefix ex ->
    parse_gtf_lines re_search true excludedict delimiter isref lines (genes, ex)
    = Ok acc' ->
    fst acc' = genes /\
    tables_hold re_search excludedict (prefix ++ lines) (snd acc').
Proof.
  induction lines as [|ln lines IH]; intros prefix genes ex acc' Hno Htab;
    cbn [parse_gtf_lines].
  - intros H; inversion H; subst acc'; simpl. now rewrite app_nil_r.
  - destruct (parse_gtf_line re_search true excludedict delimiter isref ln
                (genes, ex)) as [[genes1 ex1]|e] eqn:Hline; simpl;
      [|discriminate].
    intros H.
    apply (parse_gtf_line_tables prefix) in Hline; auto;
      [|apply Hno; now left].
    destruct Hline as [Hg Ht]. simpl in Hg, Ht. subst genes1.
    apply (IH (prefix ++ [ln])) in H; auto;
      [|intros ln' Hin; apply Hno; now right].
    now rewrite <- app_assoc in H.
Qed.

Lemma genes_from_exons_entries ex items :
  forall acc d,
    genes_from_exons isref ex items acc = Ok d ->
    forall scaffold gene start end_ strand,
      index_entry isref d scaffold gene start end_ strand ->
      (exists exons,
          In (gene, exons) items /\
          sget gene (nametoscaffold ex) = Some scaffold /\
          sget gene (nametostrand ex) = Some strand /\
          py_min (map fst exons) = Some start /\
          py_max (map snd exons) = Some end_) \/
      index_entry isref acc scaffold gene start end_ strand.
Proof.
  induction items as [|[g exons] items IH]; intros acc d; simpl.
  - intros H; inversion H; subst. auto.
  - destruct (exon_gene_fields isref ex g exons) as [[[[sc lo] hi] str]|e]
      eqn:Hfields; simpl; [|discriminate].
    apply exon_gene_fields_ok in Hfields.
    destruct Hfields as (Hsc & Hstr & Hlo & Hhi).
    intros H scaffold gene start end_ strand Hentry.
    destruct (IH _ _ H _ _ _ _ _ Hentry) as [(exons' & Hin & Hrest)|Hacc].
    + left. exists exons'. split; [now right|exact Hrest].
    + apply index_entry_store in Hacc.
      destruct Hacc as [(-> & -> & -> & -> & ->)|Hacc]; [|now right].
      left. exists exons. split; [now left|auto].
Qed.
End ExonInference.

Lemma tables_hold_init re_search excludedict :
  tables_hold re_search excludedict [] no_exons.
Proof. split; simpl; [constructor|reflexivity]. Qed.

(** C8 (exon-inference precedence).  Take a file in which no gene, transcript or
    mRNA line is read, parsed with [exonstogenes], so that the genes are built
    from the exon lines; the exon lines of a gene are the lines with feature exon
    outside the excluded scaffolds whose attributes yield its name.  Every gene of
    the index returned has at least one exon line; its start is the start of one
    of them and at most the start of each, its end is the end of one of them and
    at least the end of each, and its strand (and the scaffold it is filed under)
    is that of the last of them in file order. *)
Theorem exon_inference_bounds :
  forall (re_search : pattern -> string -> option string)
         (lines : list gtfline) (excludedict : option (dict bool))
         (delimiter : option string) (isref : bool) (d : gtf_index isref),
    (forall ln, In ln lines -> gene_record excludedict ln = false) ->
    parse_gtf re_search lines true excludedict delimiter isref = Ok d ->
    forall (scaffold gene : string) (start end_ : Z) (strand : string),
      index_entry isref d scaffold gene start end_ strand ->
      let exons := exon_records re_search excludedict lines gene in
      In start (map g_start exons) /\
      (forall x, In x exons -> start <= g_start x) /\
      In end_ (map g_end exons) /\
      (forall x, In x exons -> g_end x <= end_) /\
      exists final,
        last_error exons = Some final /\
        strand = g_strand final /\ scaffold = g_scaffold final.
Proof.
  intros re_search lines excludedict delimiter isref d Hno Hparse
    scaffold gene start end_ strand Hentry exons.
  unfold parse_gtf in Hparse.
  destruct (parse_gtf_lines re_search true excludedict delimiter isref lines
              (empty_index isref, no_exons)) as [[genes ex]|e] eqn:Hlines;
    simpl in Hparse; [|discriminate].
  apply (parse_gtf_lines_tables re_search excludedict delimiter isref lines [])
    in Hlines; auto using tables_hold_init.
  destruct Hlines as [Hgenes [Hnd Hall]]. simpl in Hgenes, Hnd, Hall. subst genes.
  assert (Hlen : index_len isref (empty_index isref) = 0%nat)
    by (destruct isref; reflexivity).
  rewrite Hlen in Hparse. simpl in Hparse.
  destruct (genes_from_exons_entries isref ex _ _ _ Hparse _ _ _ _ _ Hentry)
    as [(bounds & Hin & Hsc & Hstr & Hlo & Hhi)|Hacc];
    [|now apply index_entry_empty in Hacc].
  apply (In_sget _ _ _ Hnd) in Hin.
  specialize (Hall gene). fold exons in Hall.
  destruct (last_error exons) as [final|]; [|congruence].
  destruct Hall as (Hb & Hs & Hc).
  rewrite Hb in Hin. inversion Hin; subst bounds; clear Hin.
  rewrite map_map in Hlo, Hhi. simpl in Hlo, Hhi.
  apply py_min_spec in Hlo. apply py_max_spec in Hhi.
  destruct Hlo as [Hlo1 Hlo2]. destruct Hhi as [Hhi1 Hhi2].
  split; [exact Hlo1|]. split.
  { intros x Hx. apply Hlo2. now apply (in_map g_start). }
  split; [exact Hhi1|]. split.
  { intros x Hx. apply Hhi2. now apply (in_map g_end). }
  exists final. split; [reflexivity|]. split; congruence.
Qed.

Example two_exon_lines_reference :
  parse_gtf whole_attribute two_exon_lines true None None true
  = Ok [("g1", mk_refgene "X" 5 50 "-")].
Proof. vm_compute; reflexivity. Qed.

Example two_exon_lines_query :
  parse_gtf whole_attribute two_exon_lines true None None false
  = Ok [("X", [("g1", mk_querygene 5 50 "-")])].
Proof. vm_compute; reflexivity. Qed.

Lemma exon_inference_bounds_witness :
  let exons := exon_records whole_attribute None two_exon_lines "g1" in
  In 5 (map g_start exons) /\
  (forall x, In x exons -> 5 <= g_start x) /\
  In 50 (map g_end exons) /\
  (forall x, In x exons -> g_end x <= 50) /\
  exists final,
    last_error exons = Some final /\ "-" = g_strand final /\ "X" = g_scaffold final.
Proof.
  apply (exon_inference_bounds whole_attribute two_exon_lines None None true
           [("g1", mk_refgene "X" 5 50 "-")]).
  - intros ln [<-|[<-|[]]]; reflexivity.
  - vm_compute; reflexivity.
  - reflexivity.
Defined.

(** * Further properties *)

(** ** The reference scaffold of a chain *)

Section ChainOn.
Variable blastdict : dict (dict Q).
Variable refdict : dict refgene.
Variables max_span max_distance : Z.
Variable is_verbose : bool.

Lemma chain_on_verbose refscaffold b m s :
  chain_on refdict refscaffold (syntenylist s) ->
  chain_on refdict refscaffold (syntenylist (verbose b m s)).
Proof. destruct b; simpl; auto. Qed.

Lemma scan_match_chain_on scaffold blast_refgene refscaffold next_gene next_match
    s s' :
  scan_match refdict max_span max_distance is_verbose scaffold blast_refgene
    refscaffold next_gene next_match s = Next s' \/
  scan_match refdict max_span max_distance is_verbose scaffold blast_refgene
    refscaffold next_gene next_match s = Break s' ->
  chain_on refdict refscaffold (syntenylist s) ->
  chain_on refdict refscaffold (syntenylist s').
Proof.
  unfold scan_match.
  destruct (String.eqb next_match blast_refgene).
  { intros [H|H]; inversion H; subst s'; simpl; auto. }
  destruct (sget next_match refdict) as [r|] eqn:Hr; [|intros [H|H]; discriminate H].
  cbv zeta.
  destruct (String.eqb_spec (rscaffold r) refscaffold) as [Hsc|Hsc].
  - destruct ((max_distance <? fst (rstart r, rend r) - snd (subjectpos s))
              || (max_distance <? fst (subjectpos s) - snd (rstart r, rend r))).
    + intros [H|H]; inversion H; subst s'. apply chain_on_verbose.
    + intros [H|H]; inversion H; subst s'; clear H. simpl. intros Hc.
      unfold chain_on. apply Forall_app. split.
      * destruct is_verbose; exact Hc.
      * constructor; [|constructor]. simpl. eauto.
  - intros [H|H]; inversion H; subst s'. apply chain_on_verbose.
Qed.

Lemma scan_matches_chain_on scaffold blast_refgene refscaffold next_gene matches :
  forall s s',
    scan_matches refdict max_span max_distance is_verbose scaffold blast_refgene
      refscaffold next_gene matches s = Next s' \/
    scan_matches refdict max_span max_distance is_verbose scaffold blast_refgene
      refscaffold next_gene matches s = Break s' ->
    chain_on refdict refscaffold (syntenylist s) ->
    chain_on refdict refscaffold (syntenylist s').
Proof.
  induction matches as [|[next_match bitscoreN] matches IH]; intros s s'; simpl.
  - intros [H|H]; inversion H; subst; auto.
  - destruct (scan_match refdict max_span max_distance is_verbose scaffold
                blast_refgene refscaffold next_gene next_match s)
      as [s1|s1|e s1] eqn:Hstep.
    + intros H Hc. eapply IH; [exact H|].
      eapply scan_match_chain_on; eauto.
    + intros [H|H]; inversion H; subst s'. intros Hc.
      eapply scan_match_chain_on; eauto.
    + intros [H|H]; discriminate H.
Qed.

Lemma walk_gene_chain_on scaffold startingtrans blast_refgene refscaffold next s s' :
  walk_gene blastdict refdict max_span max_distance is_verbose scaffold
    startingtrans blast_refgene refscaffold next s = Next s' \/
  walk_gene blastdict refdict max_span max_distance is_verbose scaffold
    startingtrans blast_refgene refscaffold next s = Break s' ->
  chain_on refdict refscaffold (syntenylist s) ->
  chain_on refdict refscaffold (syntenylist s').
Proof.
  unfold walk_gene. destruct next as [next_gene next_gene_info].
  destruct (0 <? walksteps s).
  2:{ intros [H|H]; inversion H; subst s'. apply chain_on_verbose. }
  destruct (max_distance <? qstart next_gene_info - snd (querypos s)).
  { intros [H|H]; inversion H; subst s'. apply chain_on_verbose. }
  destruct (sget next_gene blastdict) as [next_match_dict|].
  - destruct (scan_matches refdict max_span max_distance is_verbose scaffold
                blast_refgene refscaffold next_gene
                (sorted by_score_desc next_match_dict)
                (set_querypos (qstart next_gene_info, qend next_gene_info) s))
      as [s1|s1|e s1] eqn:Hscan.
    + intros [H|H]; inversion H; subst s'; clear H. intros Hc. simpl.
      eapply scan_matches_chain_on; [left; exact Hscan|exact Hc].
    + intros [H|H]; inversion H; subst s'; clear H. intros Hc.
      eapply scan_matches_chain_on; [right; exact Hscan|exact Hc].
    + intros [H|H]; discriminate H.
  - intros [H|H]; inversion H; subst s'; clear H.
    destruct is_verbose; simpl; auto.
Qed.

Lemma walk_genes_chain_on scaffold startingtrans blast_refgene refscaffold genes :
  forall s s',
    walk_genes blastdict refdict max_span max_distance is_verbose scaffold
      startingtrans blast_refgene refscaffold genes s = Normal s' ->
    chain_on refdict refscaffold (syntenylist s) ->
    chain_on refdict refscaffold (syntenylist s').
Proof.
  induction genes as [|next genes IH]; intros s s'; simpl.
  - intros H; inversion H; subst; auto.
  - destruct (walk_gene blastdict refdict max_span max_distance is_verbose
                scaffold startingtrans blast_refgene refscaffold next s)
      as [s1|s1|e s1] eqn:Hstep.
    + intros H Hc. eapply IH; [exact H|].
      eapply walk_gene_chain_on; eauto.
    + intros H; inversion H; subst s'. intros Hc.
      eapply walk_gene_chain_on; eauto.
    + discriminate.
Qed.
End ChainOn.

(** ** What a block writes *)

Section BlockLines.
Variable blastdict : dict (dict Q).
Variable refdict : dict refgene.
Variables min_block : Z.
Variables is_verbose make_gff : bool.

Lemma write_tab_lines_pairs scaffold refscaffold transdict pairs :
  forall s s',
    write_tab_lines blastdict refdict scaffold refscaffold transdict pairs s
    = Normal s' ->
    blocknum s' = blocknum s /\
    blocklengths s' = blocklengths s /\
    exists lines,
      wayout s' = wayout s ++ lines /\
      Forall2 (pair_line blastdict refdict scaffold refscaffold transdict
                 (blocknum s)) pairs lines.
Proof.
  induction pairs as [|pr pairs IH]; intros s s'; simpl.
  - intros H; inversion H; subst. repeat split; auto.
    exists []. rewrite app_nil_r. split; [reflexivity|constructor].
  - unfold lookup_or_raise.
    destruct (sget (fst pr) transdict) as [q|] eqn:Hq; [|discriminate].
    destruct (sget (snd pr) refdict) as [r|] eqn:Hr; [|discriminate].
    destruct (sget (fst pr) blastdict) as [hits|] eqn:Hh; [|discriminate].
    destruct (sget (snd pr) hits) as [score|] eqn:Hs; [|discriminate].
    intros H. apply IH in H. simpl in H.
    destruct H as (H1 & H2 & lines & H3 & H4).
    repeat split; auto.
    eexists (_ :: lines). rewrite H3, <- app_assoc. simpl.
    split; [reflexivity|]. constructor; [|exact H4].
    exists q, r, hits, score. repeat split; auto.
Qed.

Lemma write_gff_parts_pairs scaffold refscaffold transdict pairs :
  forall j s s',
    write_gff_parts blastdict refdict scaffold transdict j pairs s = Normal s' ->
    blocknum s' = blocknum s /\
    blocklengths s' = blocklengths s /\
    exists lines,
      wayout s' = wayout s ++ lines /\
      Forall2 (pair_line blastdict refdict scaffold refscaffold transdict
                 (blocknum s)) pairs lines.
Proof.
  induction pairs as [|pr pairs IH]; intros j s s'; simpl.
  - intros H; inversion H; subst. repeat split; auto.
    exists []. rewrite app_nil_r. split; [reflexivity|constructor].
  - unfold lookup_or_raise.
    destruct (sget (fst pr) transdict) as [q|] eqn:Hq; [|discriminate].
    destruct (sget (fst pr) blastdict) as [hits|] eqn:Hh; [|discriminate].
    destruct (sget (snd pr) hits) as [score|] eqn:Hs; [|discriminate].
    destruct (sget (snd pr) refdict) as [r|] eqn:Hr; [|discriminate].
    intros H. apply IH in H. simpl in H.
    destruct H as (H1 & H2 & lines & H3 & H4).
    repeat split; auto.
    eexists (_ :: lines). rewrite H3, <- app_assoc. simpl.
    split; [reflexivity|]. constructor; [|exact H4].
    exists q, r, hits, score. repeat split; auto. right. eauto.
Qed.

(** A chain that is kept adds its length to the histogram and writes, under the
    current block number, one line for each of its pairs, in order, behind the
    parent line of the GFF format if that is asked for; a chain that is dropped
    leaves the counters and the output as they are. *)
Lemma write_block_writes scaffold startingtrans refscaffold transdict s s' :
  write_block blastdict refdict min_block is_verbose make_gff scaffold
    startingtrans refscaffold transdict s = Normal s' ->
  (min_block <= Z.of_nat (List.length (syntenylist s)) /\
   blocknum s' = blocknum s + 1 /\
   blocklengths s' =
     zincr (Z.of_nat (List.length (syntenylist s))) (blocklengths s) /\
   exists parent lines,
     wayout s' = wayout s ++ parent ++ lines /\
     Forall (fun l => is_pair_line l = false /\ line_block l = blocknum s /\
                      line_scaffold l = scaffold /\
                      line_refscaffold l = Some refscaffold) parent /\
     Forall2 (pair_line blastdict refdict scaffold refscaffold transdict
                (blocknum s)) (syntenylist s) lines) \/
  (Z.of_nat (List.length (syntenylist s)) < min_block /\ same_output s s').
Proof.
  unfold write_block. cbv zeta.
  destruct (Z.leb_spec min_block (Z.of_nat (List.length (syntenylist s))))
    as [Hlen|Hlen].
  2:{ intros H; inversion H; subst s'; clear H. right. split; [exact Hlen|].
      destruct is_verbose; unfold same_output; simpl; auto. }
  set (s1 := verbose is_verbose
               (MsgFoundBlock (Z.of_nat (List.length (syntenylist s)))
                  startingtrans scaffold) s).
  set (s2 := match py_max (map fst (blocklengths s1)) with
             | Some longest =>
                 if longest <? Z.of_nat (List.length (syntenylist s))
                 then write_err
                        (MsgNewLongest (blocknum s1)
                           (Z.of_nat (List.length (syntenylist s))) scaffold) s1
                 else s1
             | None =>
                 write_err
                   (MsgNewLongest (blocknum s1)
                      (Z.of_nat (List.length (syntenylist s))) scaffold) s1
             end).
  assert (Hs1 : blocknum s1 = blocknum s /\ blocklengths s1 = blocklengths s /\
                wayout s1 = wayout s /\ syntenylist s1 = syntenylist s).
  { subst s1. destruct is_verbose; simpl; auto. }
  assert (Hs2 : blocknum s2 = blocknum s /\ blocklengths s2 = blocklengths s /\
                wayout s2 = wayout s /\ syntenylist s2 = syntenylist s).
  { destruct Hs1 as (A & B & C & D). subst s2.
    destruct (py_max (map fst (blocklengths s1))) as [longest|];
      [destruct (longest <? Z.of_nat (List.length (syntenylist s)))|];
      simpl; auto. }
  clearbody s2. clear s1 Hs1.
  destruct Hs2 as (A & B & C & D).
  destruct (hd_error (syntenylist s2)) as [first|]; [|discriminate].
  destruct (last_error (syntenylist s2)) as [final|]; [|discriminate].
  unfold lookup_or_raise.
  destruct (sget (fst first) transdict) as [qfirst|]; [|discriminate].
  destruct (sget (fst final) transdict) as [qfinal|]; [|discriminate].
  destruct (sget (snd first) refdict) as [rfirst|]; [|discriminate].
  destruct (sget (snd final) refdict) as [rfinal|]; [|discriminate].
  destruct make_gff.
  - match goal with
    | |- and_then (write_gff_parts _ _ _ _ _ ?ps ?st) _ = _ -> _ =>
        destruct (write_gff_parts blastdict refdict scaffold transdict 0 ps st)
          as [s5|e s5] eqn:Hw; [|discriminate]
    end.
    apply (write_gff_parts_pairs scaffold refscaffold) in Hw.
    simpl in Hw. destruct Hw as (H1 & H2 & lines & H3 & H4).
    simpl. intros H; inversion H; subst s'; clear H. simpl. left.
    split; [exact Hlen|]. split; [lia|]. split; [congruence|].
    eexists [_], lines. split; [|split].
    + rewrite H3, C, <- app_assoc. reflexivity.
    + constructor; [|constructor]. simpl. auto.
    + rewrite <- A, <- D. exact H4.
  - match goal with
    | |- and_then (write_tab_lines _ _ _ _ _ ?ps ?st) _ = _ -> _ =>
        destruct (write_tab_lines blastdict refdict scaffold refscaffold
                    transdict ps st) as [s5|e s5] eqn:Hw; [|discriminate]
    end.
    apply write_tab_lines_pairs in Hw.
    simpl in Hw. destruct Hw as (H1 & H2 & lines & H3 & H4).
    simpl. intros H; inversion H; subst s'; clear H. simpl. left.
    split; [exact Hlen|]. split; [lia|]. split; [congruence|].
    exists [], lines. split; [|split].
    + rewrite H3, C. reflexivity.
    + constructor.
    + rewrite <- A, <- D. exact H4.
Qed.
End BlockLines.

(** ** The genes of a chain *)

Lemma subseq_nil_l {A : Type} (l : list A) : subseq [] l.
Proof. induction l; [apply subseq_nil|apply subseq_skip; assumption]. Qed.

Lemma subseq_app_l {A : Type} (pre l1 l2 : list A) :
  subseq l1 l2 -> subseq l1 (pre ++ l2).
Proof.
  intros H. induction pre; simpl; [exact H|apply subseq_skip; exact IHpre].
Qed.

Lemma subseq_skipn {A : Type} (n : nat) (l1 l2 : list A) :
  subseq l1 (skipn n l2) -> subseq l1 l2.
Proof.
  intros H. rewrite <- (firstn_skipn n l2). apply subseq_app_l. exact H.
Qed.

Lemma subseq_In {A : Type} (l1 l2 : list A) :
  subseq l1 l2 -> forall x, In x l1 -> In x l2.
Proof.
  induction 1 as [|y l1 l2 _ IH|y l1 l2 _ IH]; intros x Hin; simpl in *; auto.
  destruct Hin as [Heq|Hin]; auto.
Qed.

Lemma subseq_map_fst {A B : Type} (names : list A) (l : list (A * B)) :
  subseq names (map fst l) ->
  exists sub, subseq sub l /\ map fst sub = names.
Proof.
  revert names. induction l as [|x l IH]; intros names H; simpl in H.
  - inversion H; subst. exists []. split; constructor.
  - inversion H as [|y l1 l2 Hs|y l1 l2 Hs]; subst.
    + destruct (IH _ Hs) as (sub & Hsub & Hmap).
      exists sub. split; [apply subseq_skip; exact Hsub|exact Hmap].
    + destruct (IH _ Hs) as (sub & Hsub & Hmap).
      exists (x :: sub). split; [apply subseq_take; exact Hsub|].
      simpl. rewrite Hmap. reflexivity.
Qed.

Lemma subseq_StronglySorted {A : Type} (R : A -> A -> Prop) (l1 l2 : list A) :
  subseq l1 l2 -> StronglySorted R l2 -> StronglySorted R l1.
Proof.
  induction 1 as [|y l1 l2 Hs IH|y l1 l2 Hs IH]; intros Hsorted.
  - constructor.
  - inversion Hsorted; subst. auto.
  - inversion Hsorted as [|? ? Hrest Hall]; subst.
    constructor; [auto|].
    rewrite Forall_forall in Hall |- *. intros x Hx. apply Hall.
    eapply subseq_In; eauto.
Qed.

Lemma nth_error_skipn_cons {A : Type} (l : list A) :
  forall i x, nth_error l i = Some x -> skipn i l = x :: skipn (S i) l.
Proof.
  induction l as [|a l IH]; intros [|i] x H; simpl in *; try discriminate.
  - inversion H; reflexivity.
  - apply IH. exact H.
Qed.

Lemma skipn_cons_nth {A : Type} (l : list A) :
  forall i x l', skipn i l = x :: l' ->
                 nth_error l i = Some x /\ l' = skipn (S i) l.
Proof.
  induction l as [|a l IH]; intros [|i] x l' H; simpl in *; try discriminate.
  - inversion H; auto.
  - apply IH. exact H.
Qed.

Section ChainGenes.
Variable blastdict : dict (dict Q).
Variable refdict : dict refgene.
Variables max_span max_distance : Z.
Variable is_verbose : bool.

Lemma scan_match_chain scaffold blast_refgene refscaffold next_gene next_match
    s s' :
  (scan_match refdict max_span max_distance is_verbose scaffold blast_refgene
     refscaffold next_gene next_match s = Next s' ->
   syntenylist s' = syntenylist s) /\
  (scan_match refdict max_span max_distance is_verbose scaffold blast_refgene
     refscaffold next_gene next_match s = Break s' ->
   syntenylist s' = syntenylist s ++ [(next_gene, next_match)]).
Proof.
  unfold scan_match.
  destruct (String.eqb next_match blast_refgene).
  { split; intros H; inversion H; subst s'; reflexivity. }
  destruct (sget next_match refdict) as [r|]; [|split; discriminate].
  cbv zeta.
  destruct (String.eqb (rscaffold r) refscaffold).
  - destruct ((max_distance <? fst (rstart r, rend r) - snd (subjectpos s))
              || (max_distance <? fst (subjectpos s) - snd (rstart r, rend r))).
    + split; intros H; inversion H; subst s'. destruct is_verbose; reflexivity.
    + split; intros H; inversion H; subst s'.
      destruct is_verbose; reflexivity.
  - split; intros H; inversion H; subst s'. destruct is_verbose; reflexivity.
Qed.

Lemma scan_matches_chain scaffold blast_refgene refscaffold next_gene matches :
  forall s s',
    (scan_matches refdict max_span max_distance is_verbose scaffold blast_refgene
       refscaffold next_gene matches s = Next s' ->
     syntenylist s' = syntenylist s) /\
    (scan_matches refdict max_span max_distance is_verbose scaffold blast_refgene
       refscaffold next_gene matches s = Break s' ->
     exists next_match,
       syntenylist s' = syntenylist s ++ [(next_gene, next_match)]).
Proof.
  induction matches as [|[next_match bitscoreN] matches IH]; intros s s'; simpl.
  - split; intros H; inversion H; subst; reflexivity.
  - destruct (scan_match refdict max_span max_distance is_verbose scaffold
                blast_refgene refscaffold next_gene next_match s)
      as [s1|s1|e s1] eqn:Hstep.
    + apply scan_match_chain in Hstep. rewrite <- Hstep. apply IH.
    + apply scan_match_chain in Hstep.
      split; intros H; inversion H; subst s'. eauto.
    + split; discriminate.
Qed.

Lemma walk_gene_chain scaffold startingtrans blast_refgene refscaffold next s s' :
  walk_gene blastdict refdict max_span max_distance is_verbose scaffold
    startingtrans blast_refgene refscaffold next s = Next s' \/
  walk_gene blastdict refdict max_span max_distance is_verbose scaffold
    startingtrans blast_refgene refscaffold next s = Break s' ->
  syntenylist s' = syntenylist s \/
  exists next_match, syntenylist s' = syntenylist s ++ [(fst next, next_match)].
Proof.
  unfold walk_gene. destruct next as [next_gene next_gene_info].
  destruct (0 <? walksteps s).
  2:{ intros [H|H]; inversion H; subst s'. left.
      destruct is_verbose; reflexivity. }
  destruct (max_distance <? qstart next_gene_info - snd (querypos s)).
  { intros [H|H]; inversion H; subst s'. left. destruct is_verbose; reflexivity. }
  destruct (sget next_gene blastdict) as [next_match_dict|].
  - destruct (scan_matches refdict max_span max_distance is_verbose scaffold
                blast_refgene refscaffold next_gene
                (sorted by_score_desc next_match_dict)
                (set_querypos (qstart next_gene_info, qend next_gene_info) s))
      as [s1|s1|e s1] eqn:Hscan.
    + apply scan_matches_chain in Hscan.
      intros [H|H]; inversion H; subst s'. left. simpl. exact Hscan.
    + apply scan_matches_chain in Hscan. destruct Hscan as [m Hm].
      intros [H|H]; inversion H; subst s'. right. exists m. exact Hm.
    + intros [H|H]; discriminate H.
  - intros [H|H]; inversion H; subst s'. left.
    destruct is_verbose; reflexivity.
Qed.

Lemma walk_genes_chain scaffold startingtrans blast_refgene refscaffold genes :
  forall s s',
    walk_genes blastdict refdict max_span max_distance is_verbose scaffold
      startingtrans blast_refgene refscaffold genes s = Normal s' ->
    exists taken,
      syntenylist s' = syntenylist s ++ taken /\
      subseq (map fst taken) (map fst genes).
Proof.
  induction genes as [|next genes IH]; intros s s'; simpl.
  - intros H; inversion H; subst. exists []. rewrite app_nil_r.
    split; [reflexivity|constructor].
  - destruct (walk_gene blastdict refdict max_span max_distance is_verbose
                scaffold startingtrans blast_refgene refscaffold next s)
      as [s1|s1|e s1] eqn:Hstep.
    + intros H. destruct (IH _ _ H) as (taken & Htaken & Hsub).
      destruct (walk_gene_chain _ _ _ _ _ _ _ (or_introl Hstep)) as [Hs|[m Hs]].
      * exists taken. rewrite Htaken, Hs. split; [reflexivity|].
        apply subseq_skip. exact Hsub.
      * exists ((fst next, m) :: taken). rewrite Htaken, Hs, <- app_assoc.
        split; [reflexivity|]. simpl. apply subseq_take. exact Hsub.
    + intros H; inversion H; subst s'.
      destruct (walk_gene_chain _ _ _ _ _ _ _ (or_intror Hstep)) as [Hs|[m Hs]].
      * exists []. rewrite Hs, app_nil_r. split; [reflexivity|].
        apply subseq_nil_l.
      * exists [(fst next, m)]. split; [exact Hs|]. simpl. apply subseq_take.
        apply subseq_nil_l.
    + discriminate.
Qed.
End ChainGenes.

(** ** Invariants of the walk *)

Lemma same_output_refl s : same_output s s.
Proof. unfold same_output; auto. Qed.

Lemma same_output_trans s1 s2 s3 :
  same_output s1 s2 -> same_output s2 s3 -> same_output s1 s3.
Proof. unfold same_output; intuition congruence. Qed.

Lemma same_books_output s s' : same_books s s' -> same_output s s'.
Proof. unfold same_books, same_output; tauto. Qed.

Lemma same_output_verbose b m s : same_output s (verbose b m s).
Proof. destruct b; unfold same_output; simpl; auto. Qed.

Section WalkInvariant.
Variable blastdict : dict (dict Q).
Variable refdict : dict refgene.
Variables min_block max_span max_distance : Z.
Variables is_verbose make_gff : bool.

(** A property of the counters and the output that every kept or dropped chain
    on a scaffold of [scaffolds] preserves.  The chain that is written lies on
    one reference scaffold, and its query genes follow the order of the genes
    of the scaffold. *)
Variable scaffolds : list (string * dict querygene).
Variable Inv : wstate -> Prop.
Hypothesis Inv_output : forall s s', same_output s s' -> Inv s -> Inv s'.
Hypothesis Inv_block :
  forall scaffold transdict startingtrans refscaffold s s',
    In (scaffold, transdict) scaffolds ->
    chain_on refdict refscaffold (syntenylist s) ->
    subseq (map fst (syntenylist s)) (map fst (sorted by_start transdict)) ->
    write_block blastdict refdict min_block is_verbose make_gff scaffold
      startingtrans refscaffold transdict s = Normal s' ->
    Inv s -> Inv s'.

Lemma try_candidate_invariant scaffold transdict i genesonscaff
    startingtrans info blast_refgene s s' :
  In (scaffold, transdict) scaffolds ->
  nth_error (sorted by_start transdict) i = Some (startingtrans, info) ->
  try_candidate blastdict refdict min_block max_span max_distance is_verbose
    make_gff scaffold transdict (sorted by_start transdict) i genesonscaff
    startingtrans blast_refgene s = Normal s' ->
  Inv s -> Inv s'.
Proof.
  intros Hin Hnth. unfold try_candidate. cbv zeta.
  set (s1 := if String.eqb blast_refgene (lastmatch s)
             then set_splitgenes (splitgenes s + 1) s else s).
  assert (H1 : same_output s s1).
  { subst s1. destruct (String.eqb blast_refgene (lastmatch s));
      unfold same_output; simpl; auto. }
  clearbody s1.
  destruct (existsb (String.eqb startingtrans) (accounted_query_genes s1)).
  { intros H; inversion H; subst s'. intros Hinv.
    eapply Inv_output; [|exact Hinv].
    eapply same_output_trans; [exact H1|apply same_output_verbose]. }
  destruct (Z.of_nat i <? genesonscaff - 1).
  - unfold lookup_or_raise.
    destruct (sget blast_refgene refdict) as [r|] eqn:Hr; [|discriminate].
    match goal with
    | |- and_then (and_then (walk_genes _ _ _ _ _ _ _ _ _ ?gs ?st) _) _ = _ -> _ =>
        destruct (walk_genes blastdict refdict max_span max_distance is_verbose
                    scaffold startingtrans blast_refgene (rscaffold r) gs st)
          as [s5|e s5] eqn:Hwalk; [|discriminate];
        assert (H4 : same_output s1 st)
          by (destruct is_verbose; unfold same_output; simpl; auto);
        assert (Hc4 : chain_on refdict (rscaffold r) (syntenylist st))
          by (destruct is_verbose; simpl; (constructor; [|constructor]);
              simpl; eauto);
        assert (Hl4 : syntenylist st = [(startingtrans, blast_refgene)])
          by (destruct is_verbose; reflexivity)
    end.
    simpl.
    destruct (write_block blastdict refdict min_block is_verbose make_gff
                scaffold startingtrans (rscaffold r) transdict s5)
      as [s6|e s6] eqn:Hblock; [|discriminate].
    simpl. intros H; inversion H; subst s'; clear H. intros Hinv.
    pose proof (walk_genes_chain_on _ _ _ _ _ _ _ _ _ _ _ _ Hwalk Hc4) as Hc5.
    assert (Hsub5 : subseq (map fst (syntenylist s5))
                      (map fst (sorted by_start transdict))).
    { destruct (walk_genes_chain _ _ _ _ _ _ _ _ _ _ _ _ Hwalk)
        as (taken & Htaken & Hsub).
      rewrite Htaken, Hl4. simpl.
      apply (subseq_skipn i). rewrite skipn_map.
      rewrite (nth_error_skipn_cons _ _ _ Hnth). simpl.
      apply subseq_take. exact Hsub. }
    apply walk_genes_frame in Hwalk. destruct Hwalk as [Hwalk _].
    apply same_books_output in Hwalk.
    assert (Hinv5 : Inv s5).
    { eapply Inv_output; [|exact Hinv].
      eapply same_output_trans; [exact H1|].
      eapply same_output_trans; [exact H4|exact Hwalk]. }
    pose proof (Inv_block _ _ _ _ _ _ Hin Hc5 Hsub5 Hblock Hinv5) as Hinv6.
    eapply Inv_output; [|exact Hinv6]. unfold same_output; simpl; auto.
  - simpl. intros H; inversion H; subst s'; clear H. intros Hinv.
    eapply Inv_output; [|exact Hinv].
    eapply same_output_trans; [exact H1|].
    destruct is_verbose; unfold same_output; simpl; auto.
Qed.

Lemma try_candidates_invariant scaffold transdict i genesonscaff
    startingtrans info hits :
  In (scaffold, transdict) scaffolds ->
  nth_error (sorted by_start transdict) i = Some (startingtrans, info) ->
  forall s s',
    try_candidates blastdict refdict min_block max_span max_distance is_verbose
      make_gff scaffold transdict (sorted by_start transdict) i genesonscaff
      startingtrans hits s = Normal s' ->
    Inv s -> Inv s'.
Proof.
  intros Hin Hnth.
  induction hits as [|[blast_refgene bitscore1] hits IH]; intros s s'; simpl.
  - intros H; inversion H; subst; auto.
  - destruct (try_candidate blastdict refdict min_block max_span max_distance
                is_verbose make_gff scaffold transdict
                (sorted by_start transdict) i genesonscaff startingtrans
                blast_refgene s)
      as [s1|e s1] eqn:Htry; [|discriminate].
    simpl. intros H Hinv. eapply IH; [exact H|].
    eapply try_candidate_invariant; eauto.
Qed.

Lemma walk_anchors_invariant scaffold transdict genesonscaff genes :
  In (scaffold, transdict) scaffolds ->
  forall i s s',
    genes = skipn i (sorted by_start transdict) ->
    walk_anchors blastdict refdict min_block max_span max_distance is_verbose
      make_gff scaffold transdict (sorted by_start transdict) genesonscaff i
      genes s = Normal s' ->
    Inv s -> Inv s'.
Proof.
  intros Hin.
  induction genes as [|g genes IH]; intros i s s' Hgenes; simpl.
  - intros H; inversion H; subst; auto.
  - destruct (walk_anchor blastdict refdict min_block max_span max_distance
                is_verbose make_gff scaffold transdict
                (sorted by_start transdict) genesonscaff i g s)
      as [s1|e s1] eqn:Hanchor; [|discriminate].
    symmetry in Hgenes. apply skipn_cons_nth in Hgenes.
    destruct Hgenes as [Hnth Hrest].
    simpl. intros H Hinv. eapply IH; [exact Hrest|exact H|].
    unfold walk_anchor in Hanchor. cbv zeta in Hanchor.
    destruct (sget (fst g) blastdict) as [hits|].
    + eapply (try_candidates_invariant scaffold transdict i genesonscaff
                (fst g) (snd g));
        [exact Hin|rewrite <- surjective_pairing; exact Hnth|exact Hanchor|].
      eapply Inv_output; [|exact Hinv]. unfold same_output; simpl; auto.
    + inversion Hanchor; subst s1.
      eapply Inv_output; [|exact Hinv].
      destruct is_verbose; unfold same_output; simpl; auto.
Qed.

Lemma walk_scaffolds_invariant rest :
  incl rest scaffolds ->
  forall s s',
    walk_scaffolds blastdict refdict min_block max_span max_distance is_verbose
      make_gff rest s = Normal s' ->
    Inv s -> Inv s'.
Proof.
  induction rest as [|[scaffold transdict] rest IH]; intros Hincl s s'; simpl.
  - intros H; inversion H; subst; auto.
  - destruct (walk_scaffold blastdict refdict min_block max_span max_distance
                is_verbose make_gff scaffold transdict s)
      as [s1|e s1] eqn:Hsc; [|discriminate].
    simpl. intros H Hinv.
    eapply IH; [intros x Hx; apply Hincl; now right|exact H|].
    unfold walk_scaffold in Hsc. cbv zeta in Hsc.
    destruct (Z.of_nat (List.length (sorted by_start transdict)) <? min_block).
    + inversion Hsc; subst s1. eapply Inv_output; [|exact Hinv].
      destruct is_verbose; unfold same_output; simpl; auto.
    + eapply walk_anchors_invariant;
        [apply Hincl; now left|reflexivity|exact Hsc|].
      eapply Inv_output; [|exact Hinv].
      destruct is_verbose; unfold same_output; simpl; auto.
Qed.
End WalkInvariant.

(** ** The summary and the exit *)

Lemma fold_left_add (l : list Z) : forall a, fold_left Z.add l a = a + py_sum l.
Proof.
  unfold py_sum. induction l as [|x l IH]; intros a; simpl; [lia|].
  rewrite (IH (a + x)), (IH x). lia.
Qed.

Lemma py_sum_cons (x : Z) (l : list Z) : py_sum (x :: l) = x + py_sum l.
Proof. unfold py_sum at 1. simpl. apply fold_left_add. Qed.

Lemma zincr_counts (k : Z) (d : list (Z * Z)) :
  py_sum (map snd (zincr k d)) = py_sum (map snd d) + 1 /\
  py_sum (map (fun xy => fst xy * snd xy) (zincr k d))
  = py_sum (map (fun xy => fst xy * snd xy) d) + k.
Proof.
  unfold zincr, dict_get_default.
  induction d as [|[k' v'] d IH]; simpl.
  - rewrite !py_sum_cons. unfold py_sum. simpl. lia.
  - destruct (Z.eqb_spec k k') as [->|Hne]; simpl.
    + rewrite !py_sum_cons. simpl. lia.
    + rewrite !py_sum_cons. simpl. destruct IH as [IH1 IH2]. lia.
Qed.

Lemma stderr_histogram (m : message) (items : list (Z * Z)) :
  forall s,
    In m (stderr s) ->
    In m (stderr (fold_left
                    (fun st kv => write_err (MsgHistogram (fst kv) (snd kv)) st)
                    items s)).
Proof.
  induction items as [|kv items IH]; intros s Hin; simpl; [exact Hin|].
  apply IH. simpl. apply in_or_app. now left.
Qed.

Lemma wayout_histogram (items : list (Z * Z)) :
  forall s,
    same_output s
      (fold_left (fun st kv => write_err (MsgHistogram (fst kv) (snd kv)) st)
         items s).
Proof.
  induction items as [|kv items IH]; intros s; simpl; [apply same_output_refl|].
  eapply same_output_trans; [|apply IH]. unfold same_output; simpl; auto.
Qed.

(** The summary writes nothing to [wayout] and changes no counter, however it
    ends. *)
Lemma report_output (s : wstate) : same_output s (final_state (report s)).
Proof.
  unfold report. cbv zeta.
  destruct (py_max (map fst (scaffoldgenecounts (write_err _ s)))) as [most|];
    [|unfold same_output; simpl; auto].
  match goal with
  | |- context [if ?c then _ else _] => destruct c
  end; [unfold same_output; simpl; auto|].
  match goal with
  | |- context [if ?c then _ else _] => destruct c
  end; [unfold same_output; simpl; auto|].
  match goal with
  | |- context [match ?c with Some _ => _ | None => _ end] => destruct c
  end; [|unfold same_output; simpl; auto].
  simpl. eapply same_output_trans; [|apply wayout_histogram].
  unfold same_output; simpl; auto.
Qed.

(** A run that ends normally went through the whole walk and the summary. *)
Lemma synteny_walk_normal blastdict refdict min_block max_span max_distance
    is_verbose make_gff querydict s' :
  synteny_walk blastdict refdict min_block max_span max_distance is_verbose
    make_gff querydict = Normal s' ->
  exists s,
    walk_scaffolds blastdict refdict min_block max_span max_distance is_verbose
      make_gff (sorted by_name querydict)
      (write_err (MsgSearching min_block max_span) initial_state) = Normal s /\
    report s = Normal s' /\ same_output s s'.
Proof.
  unfold synteny_walk.
  destruct (walk_scaffolds blastdict refdict min_block max_span max_distance
              is_verbose make_gff (sorted by_name querydict)
              (write_err (MsgSearching min_block max_span) initial_state))
    as [s|e s] eqn:Hwalk; simpl; [|discriminate].
  intros Hrep. exists s. split; [reflexivity|]. split; [exact Hrep|].
  pose proof (report_output s) as H. now rewrite Hrep in H.
Qed.

(** ** The lines of the output and the inputs *)

Lemma pair_line_shape blastdict refdict scaffold refscaffold transdict n p l :
  pair_line blastdict refdict scaffold refscaffold transdict n p l ->
  is_pair_line l = true /\ line_block l = n.
Proof.
  intros (q & r & hits & score & _ & _ & _ & _ & [->|[j ->]]); simpl; auto.
Qed.

Lemma pair_lines_shape blastdict refdict scaffold refscaffold transdict n
    pairs lines :
  Forall2 (pair_line blastdict refdict scaffold refscaffold transdict n)
    pairs lines ->
  List.length lines = List.length pairs /\
  Forall (fun l => is_pair_line l = true /\ line_block l = n) lines.
Proof.
  induction 1 as [|p l pairs lines Hpl _ [IHlen IHall]]; simpl.
  - split; [reflexivity|constructor].
  - split; [now rewrite IHlen|]. constructor; [|exact IHall].
    eapply pair_line_shape; eauto.
Qed.

Lemma pair_lines_backed querydict blastdict refdict scaffold refscaffold
    transdict n pairs lines :
  In (scaffold, transdict) querydict ->
  chain_on refdict refscaffold pairs ->
  Forall2 (pair_line blastdict refdict scaffold refscaffold transdict n)
    pairs lines ->
  Forall (line_backed querydict blastdict refdict) lines.
Proof.
  intros Hin Hchain H. induction H as [|p l pairs lines Hpl _ IH];
    [constructor|].
  inversion Hchain as [|? ? (r' & Hr' & Hsc) Hchain']; subst.
  constructor; [|now apply IH].
  destruct Hpl as (q & r & hits & score & Hq & Hr & Hh & Hs & Hl).
  rewrite Hr in Hr'. inversion Hr'; subst r'; clear Hr'.
  destruct q as [qs qe qstr]. destruct r as [rsc rs re rstr]. simpl in *.
  destruct Hl as [->|[j ->]]; simpl; subst.
  - split; [exists transdict; auto|]. split; [exact Hr|]. exists hits; auto.
  - split; [exists transdict; auto|]. split; [eauto|]. exists hits; auto.
Qed.

(** X1.  Every line for a pair in the output of a run that ends normally is
    backed by the inputs: the query gene and its bounds by the query index, the
    reference gene, its bounds and (in the tabular format) its scaffold by the
    reference index, and the score by the hits of the query gene. *)
Theorem output_lines_backed :
  forall (blastdict : dict (dict Q)) (refdict : dict refgene)
         (min_block max_span max_distance : Z) (is_verbose make_gff : bool)
         (querydict : dict (dict querygene)) (s : wstate),
    synteny_walk blastdict refdict min_block max_span max_distance is_verbose
      make_gff querydict = Normal s ->
    Forall (line_backed querydict blastdict refdict) (wayout s).
Proof.
  intros blastdict refdict min_block max_span max_distance is_verbose make_gff
    querydict s' Hrun.
  apply synteny_walk_normal in Hrun. destruct Hrun as (s & Hwalk & _ & _ & _ & Hout).
  rewrite Hout.
  refine (walk_scaffolds_invariant blastdict refdict min_block max_span
            max_distance is_verbose make_gff (sorted by_name querydict)
            (fun st => Forall (line_backed querydict blastdict refdict) (wayout st))
            _ _ _ (incl_refl _) _ _ Hwalk _).
  - intros t t' (_ & _ & Hw). now rewrite Hw.
  - intros scaffold transdict startingtrans refscaffold t t' Hin Hchain _ Hblock
      Hinv.
    apply write_block_writes in Hblock.
    destruct Hblock as [(_ & _ & _ & parent & lines & Hw & Hparent & Hlines)
                       |(_ & _ & _ & Hw)]; [|now rewrite Hw].
    rewrite Hw. apply Forall_app. split; [exact Hinv|].
    apply Forall_app. split.
    + eapply Forall_impl; [|exact Hparent].
      intros l [Hl _]. destruct l; simpl in *; try discriminate. exact I.
    + eapply pair_lines_backed; [|exact Hchain|exact Hlines].
      eapply Permutation_in; [apply sorted_perm|exact Hin].
  - simpl. constructor.
Qed.

Lemma output_lines_backed_witness :
  Forall (line_backed shared_querydict shared_blastdict shared_refdict)
    (wayout (final_state
               (synteny_walk shared_blastdict shared_refdict 2 2 1000 false false
                  shared_querydict))).
Proof.
  apply (output_lines_backed shared_blastdict shared_refdict 2 2 1000 false false
           shared_querydict).
  vm_compute. reflexivity.
Defined.

(** ** The blocks in the output *)

Lemma StronglySorted_app_le (l1 l2 : list Z) :
  StronglySorted Z.le l1 -> StronglySorted Z.le l2 ->
  (forall x y, In x l1 -> In y l2 -> x <= y) ->
  StronglySorted Z.le (l1 ++ l2).
Proof.
  intros H1 H2 Hle. induction H1 as [|a l1 Hs IH Hall]; simpl; [exact H2|].
  constructor.
  - apply IH. intros x y Hx Hy. apply Hle; [now right|exact Hy].
  - apply Forall_app. split; [exact Hall|].
    rewrite Forall_forall. intros y Hy. apply Hle; [now left|exact Hy].
Qed.

Lemma StronglySorted_constant (n : Z) (l : list Z) :
  Forall (fun x => x = n) l -> StronglySorted Z.le l.
Proof.
  induction 1 as [|x l Hx Hall IH]; constructor; [exact IH|].
  subst x. eapply Forall_impl; [|exact Hall]. intros y ->. lia.
Qed.

Lemma block_lines_app (n : Z) (l1 l2 : list outline) :
  block_lines n (l1 ++ l2) = block_lines n l1 ++ block_lines n l2.
Proof. unfold block_lines, pair_lines. now rewrite !filter_app. Qed.

Lemma pair_lines_app (l1 l2 : list outline) :
  pair_lines (l1 ++ l2) = pair_lines l1 ++ pair_lines l2.
Proof. unfold pair_lines. now rewrite filter_app. Qed.

Lemma pair_lines_all (n : Z) (lines : list outline) :
  Forall (fun l => is_pair_line l = true /\ line_block l = n) lines ->
  pair_lines lines = lines /\ block_lines n lines = lines.
Proof.
  unfold block_lines, pair_lines.
  induction 1 as [|l lines [Hp Hn] _ [IH1 IH2]]; simpl; [auto|].
  rewrite Hp. simpl. rewrite Hn, Z.eqb_refl. rewrite IH1 in *.
  split; [reflexivity|now rewrite IH2].
Qed.

Lemma pair_lines_none (parent : list outline) :
  Forall (fun l => is_pair_line l = false) parent -> pair_lines parent = [].
Proof.
  unfold pair_lines. induction 1 as [|l parent Hp _ IH]; simpl; [auto|].
  now rewrite Hp.
Qed.

(** The structure of the output that the walk keeps: the lines carry the block
    numbers from 1 up to the last block in ascending order, and every block has
    at least [min_block] pair lines. *)
Lemma walk_scaffolds_blocks blastdict refdict min_block max_span max_distance
    is_verbose make_gff scaffolds s s' :
  walk_scaffolds blastdict refdict min_block max_span max_distance is_verbose
    make_gff scaffolds s = Normal s' ->
  blocknum s = 1 -> wayout s = [] ->
  1 <= blocknum s' /\
  Forall (fun l => 1 <= line_block l < blocknum s') (wayout s') /\
  StronglySorted Z.le (map line_block (wayout s')) /\
  forall n, 1 <= n < blocknum s' ->
            min_block <= Z.of_nat (List.length (block_lines n (wayout s'))).
Proof.
  intros Hwalk Hnum Hout.
  refine (walk_scaffolds_invariant blastdict refdict min_block max_span
            max_distance is_verbose make_gff scaffolds
            (fun st =>
               1 <= blocknum st /\
               Forall (fun l => 1 <= line_block l < blocknum st) (wayout st) /\
               StronglySorted Z.le (map line_block (wayout st)) /\
               forall n, 1 <= n < blocknum st ->
                 min_block <= Z.of_nat (List.length (block_lines n (wayout st))))
            _ _ _ (incl_refl _) _ _ Hwalk _).
  - intros t t' (Hn & _ & Hw). now rewrite Hn, Hw.
  - intros scaffold transdict startingtrans refscaffold t t' _ _ _ Hblock
      (H1 & Hall & Hsorted & Hcount).
    apply write_block_writes in Hblock.
    destruct Hblock as [(Hlen & Hn & _ & parent & lines & Hw & Hparent & Hlines)
                       |(_ & Hn & _ & Hw)]; [|now rewrite Hn, Hw].
    apply pair_lines_shape in Hlines. destruct Hlines as [Hlength Hshape].
    assert (Hnew : Forall (fun l => line_block l = blocknum t) (parent ++ lines)).
    { apply Forall_app. split;
        (eapply Forall_impl; [|eassumption]); simpl; intros l Hl; apply Hl. }
    rewrite Hn, Hw. split; [lia|]. split; [|split].
    + apply Forall_app. split.
      * eapply Forall_impl; [|exact Hall]. simpl. intros l Hl. lia.
      * eapply Forall_impl; [|exact Hnew]. simpl. intros l Hl. lia.
    + rewrite map_app. apply StronglySorted_app_le; [exact Hsorted| |].
      * apply (StronglySorted_constant (blocknum t)).
        apply Forall_map. exact Hnew.
      * intros x y Hx Hy. apply in_map_iff in Hx. apply in_map_iff in Hy.
        destruct Hx as (lx & <- & Hx). destruct Hy as (ly & <- & Hy).
        rewrite Forall_forall in Hall, Hnew.
        specialize (Hall _ Hx). specialize (Hnew _ Hy). lia.
    + intros n Hn'. rewrite !block_lines_app, !length_app.
      destruct (Z.eq_dec n (blocknum t)) as [->|Hne].
      * destruct (pair_lines_all (blocknum t) lines Hshape) as [_ ->]. lia.
      * specialize (Hcount n ltac:(lia)). lia.
  - rewrite Hnum, Hout. simpl. split; [lia|]. split; [constructor|].
    split; [constructor|]. intros n Hn. lia.
Qed.

(** X2.  In the output of a run that ends normally the block numbers run from 1
    to the number of blocks found in ascending order, so that the lines of a
    block stand together, and every block has at least [min_block] lines for
    pairs. *)
Theorem blocks_in_output :
  forall (blastdict : dict (dict Q)) (refdict : dict refgene)
         (min_block max_span max_distance : Z) (is_verbose make_gff : bool)
         (querydict : dict (dict querygene)) (s : wstate),
    synteny_walk blastdict refdict min_block max_span max_distance is_verbose
      make_gff querydict = Normal s ->
    StronglySorted Z.le (map line_block (wayout s)) /\
    (forall l, In l (wayout s) -> 1 <= line_block l <= blocks_found s) /\
    (forall n, 1 <= n <= blocks_found s ->
               min_block <= Z.of_nat (List.length (block_lines n (wayout s)))).
Proof.
  intros blastdict refdict min_block max_span max_distance is_verbose make_gff
    querydict s' Hrun.
  apply synteny_walk_normal in Hrun.
  destruct Hrun as (s & Hwalk & _ & Hn & _ & Hout).
  apply walk_scaffolds_blocks in Hwalk; [|reflexivity|reflexivity].
  destruct Hwalk as (_ & Hall & Hsorted & Hcount).
  unfold blocks_found. rewrite Hout, Hn. split; [exact Hsorted|]. split.
  - intros l Hl. rewrite Forall_forall in Hall. specialize (Hall l Hl). lia.
  - intros n Hn'. apply Hcount. lia.
Qed.

Lemma blocks_in_output_witness :
  2 <= Z.of_nat
         (List.length
            (block_lines 2
               (wayout (final_state
                          (synteny_walk shared_blastdict shared_refdict 2 2 1000
                             false false shared_querydict))))).
Proof.
  apply (proj2 (proj2 (blocks_in_output shared_blastdict shared_refdict 2 2 1000
                         false false shared_querydict
                         (final_state
                            (synteny_walk shared_blastdict shared_refdict 2 2 1000
                               false false shared_querydict))
                         ltac:(vm_compute; reflexivity))) 2).
  vm_compute. split; discriminate.
Defined.

(** The counters kept by the walk: the counts of the histogram add up to the
    number of blocks, and its lengths times counts to the number of pair lines. *)
Lemma walk_scaffolds_counts blastdict refdict min_block max_span max_distance
    is_verbose make_gff scaffolds s s' :
  walk_scaffolds blastdict refdict min_block max_span max_distance is_verbose
    make_gff scaffolds s = Normal s' ->
  blocknum s = 1 -> wayout s = [] -> blocklengths s = [] ->
  1 <= blocknum s' /\
  py_sum (map snd (blocklengths s')) = blocknum s' - 1 /\
  py_sum (map (fun xy => fst xy * snd xy) (blocklengths s'))
  = Z.of_nat (List.length (pair_lines (wayout s'))).
Proof.
  intros Hwalk Hnum Hout Hlen.
  refine (walk_scaffolds_invariant blastdict refdict min_block max_span
            max_distance is_verbose make_gff scaffolds
            (fun st =>
               1 <= blocknum st /\
               py_sum (map snd (blocklengths st)) = blocknum st - 1 /\
               py_sum (map (fun xy => fst xy * snd xy) (blocklengths st))
               = Z.of_nat (List.length (pair_lines (wayout st))))
            _ _ _ (incl_refl _) _ _ Hwalk _).
  - intros t t' (Hn & Hl & Hw). now rewrite Hn, Hl, Hw.
  - intros scaffold transdict startingtrans refscaffold t t' _ _ _ Hblock
      (H1 & Hsum & Htotal).
    apply write_block_writes in Hblock.
    destruct Hblock as [(_ & Hn & Hl & parent & lines & Hw & Hparent & Hlines)
                       |(_ & Hn & Hl & Hw)]; [|now rewrite Hn, Hl, Hw].
    apply pair_lines_shape in Hlines. destruct Hlines as [Hlength Hshape].
    destruct (pair_lines_all _ _ Hshape) as [Hpairs _].
    assert (Hnone : pair_lines parent = []).
    { apply pair_lines_none. eapply Forall_impl; [|exact Hparent].
      simpl. tauto. }
    pose proof (zincr_counts (Z.of_nat (List.length (syntenylist t)))
                  (blocklengths t)) as [Hc1 Hc2].
    rewrite Hn, Hl, Hw, Hc1, Hc2, !pair_lines_app, Hnone, Hpairs, !length_app.
    simpl. lia.
  - rewrite Hnum, Hout, Hlen. simpl. unfold py_sum. simpl. lia.
Qed.

Lemma report_normal (s s' : wstate) :
  report s = Normal s' ->
  py_sum (map snd (blocklengths s)) <> 0 /\
  In (MsgTotalBlocks (py_sum (map snd (blocklengths s)))
        (py_sum (map (fun xy => fst xy * snd xy) (blocklengths s))))
     (stderr s').
Proof.
  unfold report. cbv zeta.
  destruct (py_max (map fst (scaffoldgenecounts (write_err _ s)))) as [most|];
    [|discriminate].
  simpl.
  destruct (Nat.eqb (List.length (blocklengths s)) 0); [discriminate|].
  destruct (Z.eqb_spec (py_sum (map snd (blocklengths s))) 0) as [|Hne];
    [discriminate|].
  destruct (py_max (map fst (blocklengths s))) as [longest|]; [|discriminate].
  intros H; inversion H; subst s'; clear H. split; [exact Hne|].
  apply stderr_histogram. simpl.
  apply in_or_app. left. apply in_or_app. left. apply in_or_app. right.
  now left.
Qed.

(** X3.  A run that ends normally has found at least one block, and the totals
    it reports are those of its output: the number of blocks, and as the number
    of genes the number of pair lines written. *)
Theorem summary_matches_output :
  forall (blastdict : dict (dict Q)) (refdict : dict refgene)
         (min_block max_span max_distance : Z) (is_verbose make_gff : bool)
         (querydict : dict (dict querygene)) (s : wstate),
    synteny_walk blastdict refdict min_block max_span max_distance is_verbose
      make_gff querydict = Normal s ->
    0 < blocks_found s /\
    In (MsgTotalBlocks (blocks_found s)
          (Z.of_nat (List.length (pair_lines (wayout s)))))
       (stderr s).
Proof.
  intros blastdict refdict min_block max_span max_distance is_verbose make_gff
    querydict s' Hrun.
  apply synteny_walk_normal in Hrun.
  destruct Hrun as (s & Hwalk & Hrep & Hn & _ & Hout).
  apply walk_scaffolds_counts in Hwalk; try reflexivity.
  destruct Hwalk as (H1 & Hsum & Htotal).
  apply report_normal in Hrep. destruct Hrep as [Hne Hin].
  unfold blocks_found. rewrite Hout, Hn, <- Hsum, <- Htotal.
  split; [lia|exact Hin].
Qed.

Lemma summary_matches_output_witness :
  In (MsgTotalBlocks 2 4)
     (stderr (final_state
                (synteny_walk shared_blastdict shared_refdict 2 2 1000 false false
                   shared_querydict))).
Proof.
  apply (proj2 (summary_matches_output shared_blastdict shared_refdict 2 2 1000
                  false false shared_querydict
                  (final_state
                     (synteny_walk shared_blastdict shared_refdict 2 2 1000
                        false false shared_querydict))
                  ltac:(vm_compute; reflexivity))).
Defined.

(** X4.  When the walk has gone through a query index that is not empty without
    an exception and has found a block, the summary raises no exception either:
    the run ends normally. *)
Theorem run_with_blocks_ends_normally :
  forall (blastdict : dict (dict Q)) (refdict : dict refgene)
         (min_block max_span max_distance : Z) (is_verbose make_gff : bool)
         (querydict : dict (dict querygene)) (s : wstate),
    querydict <> [] ->
    walk_scaffolds blastdict refdict min_block max_span max_distance is_verbose
      make_gff (sorted by_name querydict)
      (write_err (MsgSearching min_block max_span) initial_state) = Normal s ->
    blocks_found s <> 0 ->
    exists s',
      synteny_walk blastdict refdict min_block max_span max_distance is_verbose
        make_gff querydict = Normal s' /\
      wayout s' = wayout s.
Proof.
  intros blastdict refdict min_block max_span max_distance is_verbose make_gff
    querydict s Hne Hwalk Hfound.
  pose proof (walk_scaffolds_grows _ _ _ _ _ _ _ _ _ _ Hwalk) as [_ Hcount].
  specialize (Hcount (sorted_nonempty by_name querydict Hne)).
  pose proof (walk_scaffolds_counts _ _ _ _ _ _ _ _ _ _ Hwalk
                eq_refl eq_refl eq_refl) as (_ & Hsum & _).
  unfold blocks_found in Hfound.
  pose proof (report_output s) as Hout.
  unfold synteny_walk. rewrite Hwalk. simpl.
  assert (Hrep : exists s', report s = Normal s').
  { unfold report. cbv zeta.
    destruct (py_max_nonempty (map fst (scaffoldgenecounts s))) as [most Hmost].
    { destruct (scaffoldgenecounts s); [congruence|discriminate]. }
    simpl. rewrite Hmost. simpl.
    destruct (blocklengths s) as [|kv rest] eqn:Hl.
    { exfalso. simpl in Hsum. unfold py_sum in Hsum. simpl in Hsum. lia. }
    cbn [List.length Nat.eqb].
    rewrite (proj2 (Z.eqb_neq _ _)) by lia.
    simpl. eauto. }
  destruct Hrep as [s' Hrep]. exists s'. split; [exact Hrep|].
  rewrite Hrep in Hout. destruct Hout as (_ & _ & Hw). exact Hw.
Qed.

Lemma run_with_blocks_ends_normally_witness :
  exists s',
    synteny_walk shared_blastdict shared_refdict 2 2 1000 false false
      shared_querydict = Normal s'.
Proof.
  destruct (run_with_blocks_ends_normally shared_blastdict shared_refdict 2 2 1000
              false false shared_querydict
              (final_state
                 (walk_scaffolds shared_blastdict shared_refdict 2 2 1000 false
                    false (sorted by_name shared_querydict)
                    (write_err (MsgSearching 2 2) initial_state)))
              ltac:(discriminate) ltac:(vm_compute; reflexivity)
              ltac:(vm_compute; discriminate)) as (s' & Hrun & _).
  exists s'. exact Hrun.
Defined.

(** ** Runs that cannot find a block *)

Section NoBudget.
Variable blastdict : dict (dict Q).
Variable refdict : dict refgene.
Variables min_block max_span max_distance : Z.
Variables is_verbose make_gff : bool.
Hypothesis no_span : max_span <= 0.
Hypothesis pairs_needed : 2 <= min_block.

Lemma walk_genes_no_budget scaffold startingtrans blast_refgene refscaffold genes s :
  walksteps s <= 0 ->
  exists s',
    walk_genes blastdict refdict max_span max_distance is_verbose scaffold
      startingtrans blast_refgene refscaffold genes s = Normal s' /\
    syntenylist s' = syntenylist s /\ wayout s' = wayout s /\
    walksteps s' = walksteps s.
Proof.
  intros Hsteps. destruct genes as [|[next_gene info] genes]; simpl.
  - eexists; split; [reflexivity|auto].
  - rewrite (proj2 (Z.ltb_ge 0 (walksteps s)) Hsteps).
    eexists; split; [reflexivity|]. destruct is_verbose; simpl; auto.
Qed.

Lemma try_candidate_no_budget scaffold transdict orderedtranslist i genesonscaff
    startingtrans blast_refgene s :
  walksteps s <= 0 ->
  wayout (final_state
            (try_candidate blastdict refdict min_block max_span max_distance
               is_verbose make_gff scaffold transdict orderedtranslist i
               genesonscaff startingtrans blast_refgene s)) = wayout s /\
  walksteps (final_state
               (try_candidate blastdict refdict min_block max_span max_distance
                  is_verbose make_gff scaffold transdict orderedtranslist i
                  genesonscaff startingtrans blast_refgene s)) = walksteps s.
Proof.
  intros Hsteps. unfold try_candidate. cbv zeta.
  set (s1 := if String.eqb blast_refgene (lastmatch s)
             then set_splitgenes (splitgenes s + 1) s else s).
  assert (H1 : wayout s1 = wayout s /\ walksteps s1 = walksteps s).
  { subst s1. destruct (String.eqb blast_refgene (lastmatch s)); simpl; auto. }
  clearbody s1. destruct H1 as [Hw Hs].
  destruct (existsb (String.eqb startingtrans) (accounted_query_genes s1)).
  { destruct is_verbose; simpl; auto. }
  destruct (Z.of_nat i <? genesonscaff - 1).
  - unfold lookup_or_raise.
    destruct (sget blast_refgene refdict) as [r|].
    2:{ destruct is_verbose; simpl; auto. }
    match goal with
    | |- context [walk_genes _ _ _ _ _ ?a ?b ?c ?d ?gs ?st] =>
        destruct (walk_genes_no_budget a b c d gs st) as (s5 & Hwalk & Hl & Hw5 & Hs5);
          [destruct is_verbose; simpl; lia|]; rewrite Hwalk
    end.
    simpl and_then. unfold write_block. cbv zeta. rewrite Hl.
    replace (syntenylist _) with [(startingtrans, blast_refgene)]
      by (destruct is_verbose; reflexivity).
    simpl List.length.
    rewrite (proj2 (Z.leb_gt min_block (Z.of_nat 1))) by lia.
    simpl. destruct is_verbose; simpl in *; rewrite ?Hw5, ?Hs5; simpl; auto.
  - destruct is_verbose; simpl; auto.
Qed.

Lemma try_candidates_no_budget scaffold transdict orderedtranslist i genesonscaff
    startingtrans hits :
  forall s,
    walksteps s <= 0 ->
    wayout (final_state
              (try_candidates blastdict refdict min_block max_span max_distance
                 is_verbose make_gff scaffold transdict orderedtranslist i
                 genesonscaff startingtrans hits s)) = wayout s.
Proof.
  induction hits as [|[blast_refgene bitscore1] hits IH]; intros s Hsteps; simpl;
    [reflexivity|].
  pose proof (try_candidate_no_budget scaffold transdict orderedtranslist i
                genesonscaff startingtrans blast_refgene s Hsteps) as [Hw Hs].
  destruct (try_candidate blastdict refdict min_block max_span max_distance
              is_verbose make_gff scaffold transdict orderedtranslist i
              genesonscaff startingtrans blast_refgene s) as [s1|e s1];
    simpl in *; [|exact Hw].
  rewrite IH by lia. exact Hw.
Qed.

Lemma walk_anchors_no_budget scaffold transdict orderedtranslist genesonscaff genes :
  forall i s,
    wayout (final_state
              (walk_anchors blastdict refdict min_block max_span max_distance
                 is_verbose make_gff scaffold transdict orderedtranslist
                 genesonscaff i genes s)) = wayout s.
Proof.
  induction genes as [|g genes IH]; intros i s; simpl; [reflexivity|].
  assert (Hanchor :
    wayout (final_state
              (walk_anchor blastdict refdict min_block max_span max_distance
                 is_verbose make_gff scaffold transdict orderedtranslist
                 genesonscaff i g s)) = wayout s).
  { unfold walk_anchor. cbv zeta.
    destruct (sget (fst g) blastdict) as [hits|].
    - rewrite try_candidates_no_budget; [reflexivity|simpl; exact no_span].
    - destruct is_verbose; reflexivity. }
  destruct (walk_anchor blastdict refdict min_block max_span max_distance
              is_verbose make_gff scaffold transdict orderedtranslist
              genesonscaff i g s) as [s1|e s1]; simpl in *; [|exact Hanchor].
  now rewrite IH.
Qed.

Lemma walk_scaffolds_no_budget scaffolds :
  forall s,
    wayout (final_state
              (walk_scaffolds blastdict refdict min_block max_span max_distance
                 is_verbose make_gff scaffolds s)) = wayout s.
Proof.
  induction scaffolds as [|[scaffold transdict] scaffolds IH]; intros s; simpl;
    [reflexivity|].
  assert (Hsc :
    wayout (final_state
              (walk_scaffold blastdict refdict min_block max_span max_distance
                 is_verbose make_gff scaffold transdict s)) = wayout s).
  { unfold walk_scaffold. cbv zeta.
    destruct (Z.of_nat (List.length (sorted by_start transdict)) <? min_block).
    - destruct is_verbose; reflexivity.
    - rewrite walk_anchors_no_budget. destruct is_verbose; reflexivity. }
  destruct (walk_scaffold blastdict refdict min_block max_span max_distance
              is_verbose make_gff scaffold transdict s) as [s1|e s1];
    simpl in *; [|exact Hsc].
  now rewrite IH.
Qed.
End NoBudget.

(** X5.  With a span of 0 or less and a minimum block size of at least 2 nothing
    is ever written to [wayout], whatever the three inputs are and however the
    run ends: every chain stays at its first pair and is dropped. *)
Theorem no_span_no_output :
  forall (blastdict : dict (dict Q)) (refdict : dict refgene)
         (min_block max_span max_distance : Z) (is_verbose make_gff : bool)
         (querydict : dict (dict querygene)),
    max_span <= 0 ->
    2 <= min_block ->
    wayout (final_state
              (synteny_walk blastdict refdict min_block max_span max_distance
                 is_verbose make_gff querydict)) = [].
Proof.
  intros blastdict refdict min_block max_span max_distance is_verbose make_gff
    querydict Hspan Hmin.
  unfold synteny_walk.
  pose proof (walk_scaffolds_no_budget blastdict refdict min_block max_span
                max_distance is_verbose make_gff Hspan Hmin
                (sorted by_name querydict)
                (write_err (MsgSearching min_block max_span) initial_state)) as Hw.
  destruct (walk_scaffolds blastdict refdict min_block max_span max_distance
              is_verbose make_gff (sorted by_name querydict)
              (write_err (MsgSearching min_block max_span) initial_state))
    as [s|e s]; simpl in *; [|exact Hw].
  destruct (report_output s) as (_ & _ & Hout). now rewrite Hout.
Qed.

Lemma no_span_no_output_witness :
  wayout (final_state
            (synteny_walk twin_blastdict twin_refdict 2 0 1000 false false
               twin_querydict)) = [].
Proof.
  apply (no_span_no_output twin_blastdict twin_refdict 2 0 1000 false false
           twin_querydict); lia.
Defined.

Lemma report_without_blocks (s : wstate) :
  blocklengths s = [] -> scaffoldgenecounts s <> [] ->
  exists s', report s = Raised (SystemExit no_synteny_message) s' /\
             wayout s' = wayout s.
Proof.
  intros Hlen Hcount. unfold report. cbv zeta.
  destruct (py_max_nonempty (map fst (scaffoldgenecounts s))) as [most Hmost].
  { destruct (scaffoldgenecounts s); [congruence|discriminate]. }
  simpl. rewrite Hmost. simpl. rewrite Hlen. simpl.
  eexists; split; reflexivity.
Qed.

Lemma small_scaffolds_skipped blastdict refdict min_block max_span max_distance
    is_verbose make_gff scaffolds :
  (forall scaffold transdict,
      In (scaffold, transdict) scaffolds ->
      Z.of_nat (List.length transdict) < min_block) ->
  forall s,
    exists s',
      walk_scaffolds blastdict refdict min_block max_span max_distance is_verbose
        make_gff scaffolds s = Normal s' /\
      same_output s s' /\
      (scaffolds <> [] \/ scaffoldgenecounts s <> [] ->
       scaffoldgenecounts s' <> []).
Proof.
  induction scaffolds as [|[scaffold transdict] scaffolds IH]; intros Hsmall s;
    simpl.
  - exists s. split; [reflexivity|]. split; [apply same_output_refl|].
    intros [H|H]; congruence.
  - unfold walk_scaffold. cbv zeta.
    rewrite (Permutation_length (sorted_perm by_start transdict)).
    rewrite (proj2 (Z.ltb_lt _ _) (Hsmall scaffold transdict (or_introl eq_refl))).
    simpl.
    match goal with
    | |- context [walk_scaffolds _ _ _ _ _ _ _ _ ?st] =>
        destruct (IH (fun sc td H => Hsmall sc td (or_intror H)) st)
          as (s' & Hwalk & Hout & Hcount)
    end.
    exists s'. split; [exact Hwalk|]. split.
    + eapply same_output_trans; [|exact Hout].
      destruct is_verbose; unfold same_output; simpl; auto.
    + intros _. apply Hcount. right.
      destruct is_verbose; simpl; unfold zincr; apply dict_set_nonempty.
Qed.

(** X6.  When the query index is not empty and every scaffold has fewer genes
    than [min_block], every scaffold is passed over: nothing is looked up,
    nothing is written, and the run ends with [sys.exit] and the message about
    the gene ID format parameters. *)
Theorem small_scaffolds_exit :
  forall (blastdict : dict (dict Q)) (refdict : dict refgene)
         (min_block max_span max_distance : Z) (is_verbose make_gff : bool)
         (querydict : dict (dict querygene)),
    querydict <> [] ->
    (forall scaffold transdict,
        In (scaffold, transdict) querydict ->
        Z.of_nat (List.length transdict) < min_block) ->
    exists s,
      synteny_walk blastdict refdict min_block max_span max_distance is_verbose
        make_gff querydict = Raised (SystemExit no_synteny_message) s /\
      wayout s = [].
Proof.
  intros blastdict refdict min_block max_span max_distance is_verbose make_gff
    querydict Hne Hsmall.
  destruct (small_scaffolds_skipped blastdict refdict min_block max_span
              max_distance is_verbose make_gff (sorted by_name querydict)
              (fun sc td H =>
                 Hsmall sc td (Permutation_in _ (sorted_perm by_name querydict) H))
              (write_err (MsgSearching min_block max_span) initial_state))
    as (s & Hwalk & (_ & Hlen & Hout) & Hcount).
  destruct (report_without_blocks s) as (s' & Hrep & Hw).
  - exact Hlen.
  - apply Hcount. left. now apply sorted_nonempty.
  - exists s'. unfold synteny_walk. rewrite Hwalk. simpl.
    split; [exact Hrep|]. now rewrite Hw, Hout.
Qed.

Lemma small_scaffolds_exit_witness :
  exists s,
    synteny_walk twin_blastdict twin_refdict 3 5 1000 false false twin_querydict
    = Raised (SystemExit no_synteny_message) s /\ wayout s = [].
Proof.
  apply (small_scaffolds_exit twin_blastdict twin_refdict 3 5 1000 false false
           twin_querydict).
  - discriminate.
  - intros scaffold transdict [H|[]]. inversion H; subst. simpl. lia.
Defined.

(** ** The hits kept by [parse_tabular_blast] *)

Lemma parse_tabular_blast_ok lines evaluecutoff querydelimiter refdelimiter
    switchquery maxhits d :
  parse_tabular_blast lines evaluecutoff querydelimiter refdelimiter switchquery
    maxhits = Ok d ->
  lines <> [] /\
  exists st,
    parse_blast_lines evaluecutoff querydelimiter refdelimiter switchquery
      maxhits lines blast_init = Ok st /\
    query_to_sub_dict st = d.
Proof.
  unfold parse_tabular_blast.
  destruct (parse_blast_lines evaluecutoff querydelimiter refdelimiter
              switchquery maxhits lines blast_init) as [st|e]; simpl;
    [|discriminate].
  destruct lines; [discriminate|].
  intros H; inversion H; subst d. split; [discriminate|]. eauto.
Qed.

Lemma stored_score_lookup (st : blast_state) (q sbj : string) (v : Q) :
  stored_score st q sbj = Some v <->
  exists hits, sget q (query_to_sub_dict st) = Some hits /\ sget sbj hits = Some v.
Proof.
  assert (Hc : candidates st q
               = match sget q (query_to_sub_dict st) with
                 | Some hits => hits
                 | None => []
                 end) by reflexivity.
  unfold stored_score. rewrite Hc. clear Hc.
  destruct (sget q (query_to_sub_dict st)) as [hits|].
  - split.
    + intros H. exists hits. split; [reflexivity|exact H].
    + intros (hits' & H & Hv). inversion H; subst. exact Hv.
  - simpl. split; [discriminate|]. intros (hits' & H & _). discriminate H.
Qed.

Section BlastLoop.
Variable evaluecutoff : Q.
Variables querydelimiter refdelimiter : string.
Variable switchquery : bool.
Variable maxhits : Z.

(** What one line does to the score stored for a pair and to the count of a
    query. *)
Lemma parse_blast_line_effect ln st st' q sbj :
  parse_blast_line evaluecutoff querydelimiter refdelimiter switchquery maxhits
    ln st = Ok st' ->
  hits_counted st q <= hits_counted st' q <= hits_counted st q + 1 /\
  (hits_counted st q <= maxhits -> hits_counted st' q <= maxhits) /\
  (stored_score st' q sbj = stored_score st q sbj \/
   (names_pair evaluecutoff querydelimiter refdelimiter switchquery q sbj ln /\
    stored_score st' q sbj = Some (b_bitscore ln))) /\
  (names_pair evaluecutoff querydelimiter refdelimiter switchquery q sbj ln ->
   hits_counted st q < maxhits ->
   stored_score st' q sbj = Some (b_bitscore ln)).
Proof.
  unfold parse_blast_line, names_pair, stored_score, candidates, hits_counted.
  destruct (blast_ids querydelimiter refdelimiter switchquery ln)
    as [[queryseq subjectid]|e]; simpl; [|discriminate].
  destruct (Qgtb (b_evalue ln) evaluecutoff) eqn:Hev.
  { intros H; inversion H; subst st'. simpl.
    split; [lia|]. split; [auto|]. split; [left; reflexivity|].
    intros [_ Hf]. discriminate Hf. }
  destruct (Z.leb_spec maxhits
              (dict_get_default String.eqb queryseq 0 (query_hits st)))
    as [Hfull|Hroom].
  { intros H; inversion H; subst st'.
    split; [lia|]. split; [auto|]. split; [left; reflexivity|].
    intros [Hids _] Hlt. inversion Hids; subst. lia. }
  intros H; inversion H; subst st'; clear H. simpl.
  destruct (String.eqb_spec queryseq q) as [->|Hne].
  - rewrite !sget_default_sset_same.
    split; [lia|]. split; [lia|].
    destruct (String.eqb_spec subjectid sbj) as [->|Hs].
    + rewrite sget_sset_same. split; [right; auto|auto].
    + rewrite sget_sset_other by assumption. split; [left; reflexivity|].
      intros [Hids _]. inversion Hids; subst. congruence.
  - rewrite !sget_default_sset_other by assumption.
    split; [lia|]. split; [auto|]. split; [left; reflexivity|].
    intros [Hids _]. inversion Hids; subst. congruence.
Qed.

Lemma parse_blast_lines_cap lines :
  forall st st',
    parse_blast_lines evaluecutoff querydelimiter refdelimiter switchquery maxhits
      lines st = Ok st' ->
    forall q, hits_counted st q <= maxhits -> hits_counted st' q <= maxhits.
Proof.
  induction lines as [|ln lines IH]; intros st st'; simpl.
  - intros H; inversion H; subst; auto.
  - destruct (parse_blast_line evaluecutoff querydelimiter refdelimiter
                switchquery maxhits ln st) as [st1|e] eqn:Hline; simpl;
      [|discriminate].
    intros H q Hq. eapply IH; [exact H|].
    destruct (parse_blast_line_effect ln st st1 q q Hline) as (_ & Hcap & _).
    auto.
Qed.

Lemma parse_blast_lines_sound all lines :
  incl lines all ->
  forall st st' q sbj v,
    parse_blast_lines evaluecutoff querydelimiter refdelimiter switchquery maxhits
      lines st = Ok st' ->
    stored_score st' q sbj = Some v ->
    stored_score st q sbj = Some v \/
    exists ln, In ln all /\ b_bitscore ln = v /\
               names_pair evaluecutoff querydelimiter refdelimiter switchquery
                 q sbj ln.
Proof.
  induction lines as [|ln lines IH]; intros Hincl st st' q sbj v; simpl.
  - intros H; inversion H; subst; auto.
  - destruct (parse_blast_line evaluecutoff querydelimiter refdelimiter
                switchquery maxhits ln st) as [st1|e] eqn:Hline; simpl;
      [|discriminate].
    intros H Hv.
    destruct (IH (fun x Hx => Hincl x (or_intror Hx)) _ _ _ _ _ H Hv)
      as [Hv1|Hex]; [|now right].
    destruct (parse_blast_line_effect ln st st1 q sbj Hline)
      as (_ & _ & [Hsame|[Hnames Hnew]] & _).
    + left. congruence.
    + right. exists ln. split; [apply Hincl; now left|].
      split; [congruence|exact Hnames].
Qed.

Lemma parse_blast_lines_complete lines :
  forall st st',
    parse_blast_lines evaluecutoff querydelimiter refdelimiter switchquery maxhits
      lines st = Ok st' ->
    (forall q, hits_counted st q + Z.of_nat (List.length lines) <= maxhits) ->
    forall ln q sbj,
      In ln lines ->
      names_pair evaluecutoff querydelimiter refdelimiter switchquery q sbj ln ->
      exists v, stored_score st' q sbj = Some v.
Proof.
  induction lines as [|ln0 lines IH]; intros st st'; simpl; [intros _ _ ? ? ? []|].
  destruct (parse_blast_line evaluecutoff querydelimiter refdelimiter
              switchquery maxhits ln0 st) as [st1|e] eqn:Hline; simpl;
    [|discriminate].
  intros H Hroom ln q sbj [<-|Hin] Hnames.
  - destruct (parse_blast_line_effect ln0 st st1 q sbj Hline)
      as (_ & _ & _ & Hkept).
    specialize (Hkept Hnames ltac:(specialize (Hroom q); lia)).
    destruct (parse_blast_lines_keeps _ _ _ _ _ _ _ _ _ _ _ H Hkept) as [Hex _].
    exact Hex.
  - eapply IH; [exact H| |exact Hin|exact Hnames].
    intros q'. destruct (parse_blast_line_effect ln0 st st1 q' q' Hline)
      as (Hstep & _). specialize (Hroom q'). lia.
Qed.
End BlastLoop.

(** X8.  No query gets more than [maxhits] candidates: the number of reference
    genes stored for a query is at most [maxhits] (for a cap that is not
    negative). *)
Theorem blast_candidates_capped :
  forall (lines : list blastline) (evaluecutoff : Q)
         (querydelimiter refdelimiter : string) (switchquery : bool)
         (maxhits : Z) (d : dict (dict Q)),
    0 <= maxhits ->
    parse_tabular_blast lines evaluecutoff querydelimiter refdelimiter
      switchquery maxhits = Ok d ->
    forall q, Z.of_nat (List.length (dict_get_default String.eqb q [] d))
              <= maxhits.
Proof.
  intros lines evaluecutoff querydelimiter refdelimiter switchquery maxhits d
    Hcap Hparse q.
  apply parse_tabular_blast_ok in Hparse.
  destruct Hparse as (_ & st & Hrun & <-).
  pose proof (parse_blast_lines_invariant _ _ _ _ _ _ _ _ Hrun
                stored_le_counted_init q) as Hstored.
  pose proof (parse_blast_lines_cap _ _ _ _ _ _ _ _ Hrun q) as Hcount.
  assert (Hinit : hits_counted blast_init q <= maxhits).
  { unfold hits_counted, dict_get_default. simpl. exact Hcap. }
  specialize (Hcount Hinit). unfold candidates in Hstored. lia.
Qed.

Lemma blast_candidates_capped_witness :
  Z.of_nat (List.length
              (dict_get_default String.eqb "g1" []
                 [("g1", [("r1", 60#1)])])) <= 2.
Proof.
  apply (blast_candidates_capped [first_hit; second_hit; third_hit] (1#10000)
           "." "." false 2 [("g1", [("r1", 60#1)])]).
  - lia.
  - vm_compute. reflexivity.
Defined.

(** X9.  Every score in the candidate map is the bit score of a line of the file
    that names this query and this reference gene after trimming and whose
    e-value is not above the cutoff. *)
Theorem blast_scores_from_file :
  forall (lines : list blastline) (evaluecutoff : Q)
         (querydelimiter refdelimiter : string) (switchquery : bool)
         (maxhits : Z) (d : dict (dict Q)) (q sbj : string) (hits : dict Q)
         (v : Q),
    parse_tabular_blast lines evaluecutoff querydelimiter refdelimiter
      switchquery maxhits = Ok d ->
    sget q d = Some hits ->
    sget sbj hits = Some v ->
    exists ln,
      In ln lines /\ b_bitscore ln = v /\
      blast_ids querydelimiter refdelimiter switchquery ln = Ok (q, sbj) /\
      Qgtb (b_evalue ln) evaluecutoff = false.
Proof.
  intros lines evaluecutoff querydelimiter refdelimiter switchquery maxhits d
    q sbj hits v Hparse Hq Hv.
  apply parse_tabular_blast_ok in Hparse.
  destruct Hparse as (_ & st & Hrun & <-).
  assert (Hstored : stored_score st q sbj = Some v)
    by (apply stored_score_lookup; eauto).
  destruct (parse_blast_lines_sound evaluecutoff querydelimiter refdelimiter
              switchquery maxhits lines lines (incl_refl _) _ _ _ _ _ Hrun Hstored)
    as [Hinit|(ln & Hin & Hscore & Hids & Hev)].
  - discriminate Hinit.
  - exists ln. auto.
Qed.

Lemma blast_scores_from_file_witness :
  exists ln,
    In ln [first_hit; second_hit; third_hit] /\ b_bitscore ln = 60#1 /\
    blast_ids "." "." false ln = Ok ("g1", "r1") /\
    Qgtb (b_evalue ln) (1#10000) = false.
Proof.
  apply (blast_scores_from_file [first_hit; second_hit; third_hit] (1#10000)
           "." "." false 2 [("g1", [("r1", 60#1)])] "g1" "r1" [("r1", 60#1)]);
    vm_compute; reflexivity.
Defined.

(** X10.  In a file with at most [maxhits] lines the cap drops nothing: every
    line whose e-value is not above the cutoff has its trimmed pair in the
    candidate map. *)
Theorem blast_short_file_complete :
  forall (lines : list blastline) (evaluecutoff : Q)
         (querydelimiter refdelimiter : string) (switchquery : bool)
         (maxhits : Z) (d : dict (dict Q)) (ln : blastline) (q sbj : string),
    Z.of_nat (List.length lines) <= maxhits ->
    parse_tabular_blast lines evaluecutoff querydelimiter refdelimiter
      switchquery maxhits = Ok d ->
    In ln lines ->
    blast_ids querydelimiter refdelimiter switchquery ln = Ok (q, sbj) ->
    Qgtb (b_evalue ln) evaluecutoff = false ->
    exists hits v, sget q d = Some hits /\ sget sbj hits = Some v.
Proof.
  intros lines evaluecutoff querydelimiter refdelimiter switchquery maxhits d ln
    q sbj Hshort Hparse Hin Hids Hev.
  apply parse_tabular_blast_ok in Hparse.
  destruct Hparse as (_ & st & Hrun & <-).
  destruct (parse_blast_lines_complete evaluecutoff querydelimiter refdelimiter
              switchquery maxhits lines _ _ Hrun) with (ln := ln) (q := q)
              (sbj := sbj) as [v Hv].
  - intros q'. unfold hits_counted, dict_get_default. simpl. exact Hshort.
  - exact Hin.
  - split; assumption.
  - apply stored_score_lookup in Hv. destruct Hv as (hits & Hq & Hs). eauto.
Qed.

Lemma blast_short_file_complete_witness :
  exists hits v,
    sget "g1" [("g1", [("r1", 60#1); ("r2", 70#1)])] = Some hits /\
    sget "r2" hits = Some v.
Proof.
  apply (blast_short_file_complete [first_hit; second_hit; third_hit] (1#10000)
           "." "." false 3 [("g1", [("r1", 60#1); ("r2", 70#1)])] third_hit
           "g1" "r2").
  - simpl. lia.
  - vm_compute. reflexivity.
  - simpl. auto.
  - vm_compute. reflexivity.
  - vm_compute. reflexivity.
Defined.

Lemma blast_ids_swap querydelimiter refdelimiter ln :
  blast_ids querydelimiter refdelimiter true ln
  = blast_ids refdelimiter querydelimiter false (swap_columns ln).
Proof. reflexivity. Qed.

(** X11.  Reading a hit file with the roles of query and subject switched is
    reading, without the switch, the file with its first two columns exchanged
    and the two delimiters exchanged. *)
Theorem blast_switch_is_column_swap :
  forall (lines : list blastline) (evaluecutoff : Q)
         (querydelimiter refdelimiter : string) (maxhits : Z),
    parse_tabular_blast lines evaluecutoff querydelimiter refdelimiter true
      maxhits
    = parse_tabular_blast (map swap_columns lines) evaluecutoff refdelimiter
        querydelimiter false maxhits.
Proof.
  intros lines evaluecutoff querydelimiter refdelimiter maxhits.
  unfold parse_tabular_blast.
  assert (Hloop : forall st,
    parse_blast_lines evaluecutoff querydelimiter refdelimiter true maxhits
      lines st
    = parse_blast_lines evaluecutoff refdelimiter querydelimiter false maxhits
        (map swap_columns lines) st).
  2:{ rewrite Hloop. destruct lines; reflexivity. }
  induction lines as [|ln lines IH]; intros st; simpl; [reflexivity|].
  assert (Hline :
    parse_blast_line evaluecutoff querydelimiter refdelimiter true maxhits ln st
    = parse_blast_line evaluecutoff refdelimiter querydelimiter false maxhits
        (swap_columns ln) st).
  { unfold parse_blast_line. rewrite blast_ids_swap. reflexivity. }
  rewrite Hline.
  destruct (parse_blast_line evaluecutoff refdelimiter querydelimiter false
              maxhits (swap_columns ln) st); simpl; auto.
Qed.

(** ** The annotation file: gene records *)

Lemma index_len_store isref scaffold gene start end_ strand d :
  index_len isref (store_gene isref scaffold gene start end_ strand d) <> 0%nat.
Proof.
  destruct isref; simpl; intros H; apply length_zero_iff_nil in H;
    revert H; apply dict_set_nonempty.
Qed.

Section GtfLoop.
Variable re_search : pattern -> string -> option string.
Variable excludedict : option (dict bool).
Variable delimiter : option string.
Variable isref : bool.

(** What one line does to the index and to the exon tables. *)
Lemma parse_gtf_line_cases exonstogenes ln genes ex acc' :
  parse_gtf_line re_search exonstogenes excludedict delimiter isref ln (genes, ex)
  = Ok acc' ->
  (gene_record excludedict ln = true /\
   exists id g,
     search_id re_search pat_gene_id pat_ID (g_attributes ln) = Ok id /\
     trim_id delimiter id = Ok g /\
     acc' = (store_gene isref (g_scaffold ln) g (g_start ln) (g_end ln)
               (g_strand ln) genes, ex)) \/
  (gene_record excludedict ln = false /\ fst acc' = genes /\
   (snd acc' = ex \/
    excluded excludedict (g_scaffold ln) = false /\ exonstogenes = true /\
    exists g,
      nametoscaffold (snd acc') = sset g (g_scaffold ln) (nametoscaffold ex))).
Proof.
  unfold parse_gtf_line, gene_record.
  destruct (excluded excludedict (g_scaffold ln)) eqn:Hex; simpl.
  { intros H; inversion H; subst. right. auto. }
  destruct (is_gene_feature (g_feature ln)) eqn:Hfeat; simpl.
  - destruct (search_id re_search pat_gene_id pat_ID (g_attributes ln))
      as [id|e] eqn:Hid; simpl; [|discriminate].
    destruct (trim_id delimiter id) as [g|e] eqn:Hg; simpl; [|discriminate].
    intros H; inversion H; subst. left. split; [reflexivity|].
    exists id, g. auto.
  - destruct (exonstogenes && String.eqb (g_feature ln) "exon") eqn:Hexon.
    + destruct (search_id re_search pat_gene_id pat_name (g_attributes ln))
        as [g|e]; simpl; [|discriminate].
      intros H; inversion H; subst; simpl. right.
      apply andb_true_iff in Hexon. destruct Hexon as [Hg _].
      split; [reflexivity|]. split; [reflexivity|]. right.
      split; [reflexivity|]. split; [assumption|]. exists g. reflexivity.
    + intros H; inversion H; subst. right. auto.
Qed.

(** Without [exonstogenes] a line that is no gene record changes nothing. *)
Lemma parse_gtf_lines_no_records lines acc :
  (forall ln, In ln lines -> gene_record excludedict ln = false) ->
  parse_gtf_lines re_search false excludedict delimiter isref lines acc = Ok acc.
Proof.
  revert acc. induction lines as [|ln lines IH]; intros acc Hno; [reflexivity|].
  cbn [parse_gtf_lines].
  assert (Hline : parse_gtf_line re_search false excludedict delimiter isref ln acc
                  = Ok acc).
  { assert (Hln : gene_record excludedict ln = false) by (apply Hno; left; auto).
    unfold gene_record in Hln. unfold parse_gtf_line. destruct acc as [genes ex].
    destruct (excluded excludedict (g_scaffold ln)); [reflexivity|].
    simpl in Hln. rewrite Hln. reflexivity. }
  rewrite Hline. simpl. apply IH. intros ln' Hin. apply Hno. right. exact Hin.
Qed.

(** Once a gene record has been read the index is not empty. *)
Lemma parse_gtf_lines_nonempty exonstogenes lines genes ex genes' ex' :
  parse_gtf_lines re_search exonstogenes excludedict delimiter isref lines
    (genes, ex) = Ok (genes', ex') ->
  index_len isref genes <> 0%nat \/
  (exists ln, In ln lines /\ gene_record excludedict ln = true) ->
  index_len isref genes' <> 0%nat.
Proof.
  revert genes ex. induction lines as [|ln lines IH]; intros genes ex Hrun Hor.
  - simpl in Hrun. inversion Hrun; subst.
    destruct Hor as [H|(ln & [] & _)]. exact H.
  - cbn [parse_gtf_lines] in Hrun.
    destruct (parse_gtf_line re_search exonstogenes excludedict delimiter isref ln
                (genes, ex)) as [[genes1 ex1]|e] eqn:Hline; simpl in Hrun;
      [|discriminate].
    apply (IH _ _ Hrun).
    destruct (parse_gtf_line_cases _ _ _ _ _ Hline)
      as [(Hrec & id & g & _ & _ & Hacc)|(Hrec & Hfst & _)].
    + inversion Hacc; subst. left. apply index_len_store.
    + simpl in Hfst. subst genes1.
      destruct Hor as [H|(ln' & [Heq|Hin] & Hrec')].
      * left. exact H.
      * subst ln'. congruence.
      * right. exists ln'. auto.
Qed.

(** The entries of the index come from gene records. *)
Lemma parse_gtf_lines_entries exonstogenes lines genes ex genes' ex' :
  parse_gtf_lines re_search exonstogenes excludedict delimiter isref lines
    (genes, ex) = Ok (genes', ex') ->
  forall scaffold gene start end_ strand,
    index_entry isref genes' scaffold gene start end_ strand ->
    index_entry isref genes scaffold gene start end_ strand \/
    exists ln id,
      In ln lines /\ gene_record excludedict ln = true /\
      search_id re_search pat_gene_id pat_ID (g_attributes ln) = Ok id /\
      trim_id delimiter id = Ok gene /\
      g_scaffold ln = scaffold /\ g_start ln = start /\ g_end ln = end_ /\
      g_strand ln = strand.
Proof.
  revert genes ex. induction lines as [|ln lines IH]; intros genes ex Hrun
    scaffold gene start end_ strand Hentry.
  - simpl in Hrun. inversion Hrun; subst. left. exact Hentry.
  - cbn [parse_gtf_lines] in Hrun.
    destruct (parse_gtf_line re_search exonstogenes excludedict delimiter isref ln
                (genes, ex)) as [[genes1 ex1]|e] eqn:Hline; simpl in Hrun;
      [|discriminate].
    destruct (IH _ _ Hrun _ _ _ _ _ Hentry)
      as [Hold|(ln' & id & Hin & Hrest)].
    + destruct (parse_gtf_line_cases _ _ _ _ _ Hline)
        as [(Hrec & id & g & Hid & Hg & Hacc)|(Hrec & Hfst & _)].
      * inversion Hacc; subst.
        apply index_entry_store in Hold.
        destruct Hold as [(-> & -> & -> & -> & ->)|Hold]; [|left; exact Hold].
        right. exists ln, id. simpl. tauto.
      * simpl in Hfst. subst genes1. left. exact Hold.
    + right. exists ln', id. split; [right; exact Hin|exact Hrest].
Qed.

(** The scaffolds kept for the exons are not excluded ones. *)
Lemma parse_gtf_lines_scaffolds exonstogenes lines genes ex genes' ex' :
  parse_gtf_lines re_search exonstogenes excludedict delimiter isref lines
    (genes, ex) = Ok (genes', ex') ->
  (forall g sc, sget g (nametoscaffold ex) = Some sc ->
                excluded excludedict sc = false) ->
  forall g sc, sget g (nametoscaffold ex') = Some sc ->
               excluded excludedict sc = false.
Proof.
  revert genes ex. induction lines as [|ln lines IH]; intros genes ex Hrun Hinv.
  - simpl in Hrun. inversion Hrun; subst. exact Hinv.
  - cbn [parse_gtf_lines] in Hrun.
    destruct (parse_gtf_line re_search exonstogenes excludedict delimiter isref ln
                (genes, ex)) as [[genes1 ex1]|e] eqn:Hline; simpl in Hrun;
      [|discriminate].
    apply (IH _ _ Hrun).
    destruct (parse_gtf_line_cases _ _ _ _ _ Hline)
      as [(Hrec & id & g & _ & _ & Hacc)|(Hrec & _ & [Hsnd|(Hex & _ & g & Hsc)])].
    + inversion Hacc; subst. exact Hinv.
    + simpl in Hsnd. subst ex1. exact Hinv.
    + simpl in Hsc. rewrite Hsc. intros g' sc Hget.
      destruct (String.eqb g' g) eqn:Hg.
      * apply String.eqb_eq in Hg. subst g'.
        rewrite sget_sset_same in Hget. inversion Hget; subst. exact Hex.
      * apply String.eqb_neq in Hg.
        rewrite sget_sset_other in Hget by (intros Heq; apply Hg; auto).
        eapply Hinv; eauto.
Qed.

(** With a gene record in the file the exon lines do not change the index. *)
Lemma parse_gtf_lines_exons_ignored lines genes ex genes' ex' :
  parse_gtf_lines re_search true excludedict delimiter isref lines (genes, ex)
  = Ok (genes', ex') ->
  forall ex0,
    parse_gtf_lines re_search false excludedict delimiter isref lines (genes, ex0)
    = Ok (genes', ex0).
Proof.
  revert genes ex. induction lines as [|ln lines IH]; intros genes ex Hrun ex0.
  - simpl in Hrun. inversion Hrun; subst. reflexivity.
  - cbn [parse_gtf_lines] in Hrun |- *.
    destruct (parse_gtf_line re_search true excludedict delimiter isref ln
                (genes, ex)) as [[genes1 ex1]|e] eqn:Hline; simpl in Hrun;
      [|discriminate].
    assert (Hline0 :
      parse_gtf_line re_search false excludedict delimiter isref ln (genes, ex0)
      = Ok (genes1, ex0)).
    { revert Hline. unfold parse_gtf_line.
      destruct (excluded excludedict (g_scaffold ln)).
      { intros H; inversion H; subst; reflexivity. }
      destruct (is_gene_feature (g_feature ln)).
      - destruct (search_id re_search pat_gene_id pat_ID (g_attributes ln));
          simpl; [|discriminate].
        destruct (trim_id delimiter a); simpl; [|discriminate].
        intros H; inversion H; subst; reflexivity.
      - simpl. destruct (String.eqb (g_feature ln) "exon").
        + destruct (search_id re_search pat_gene_id pat_name (g_attributes ln));
            simpl; [|discriminate].
          intros H; inversion H; subst; reflexivity.
        + intros H; inversion H; subst; reflexivity. }
    rewrite Hline0. simpl. eapply IH. exact Hrun.
Qed.
End GtfLoop.

(** X13.  A file without a gene record, read without [-g]:  [exonboundaries] is
    never bound and reading it on line 112 raises [NameError], whatever else the
    file holds. *)
Theorem gtf_without_gene_records_name_error :
  forall (re_search : pattern -> string -> option string) (lines : list gtfline)
         (excludedict : option (dict bool)) (delimiter : option string)
         (isref : bool),
    (forall ln, In ln lines -> gene_record excludedict ln = false) ->
    parse_gtf re_search lines false excludedict delimiter isref = Err NameError.
Proof.
  intros re_search lines excludedict delimiter isref Hno.
  unfold parse_gtf.
  rewrite (parse_gtf_lines_no_records re_search excludedict delimiter isref
             lines _ Hno).
  simpl. destruct isref; reflexivity.
Qed.

Lemma gtf_without_gene_records_name_error_witness :
  parse_gtf whole_attribute two_exon_lines false None None true = Err NameError.
Proof.
  apply (gtf_without_gene_records_name_error whole_attribute two_exon_lines None
           None true).
  intros ln Hin. simpl in Hin.
  destruct Hin as [<-|[<-|[]]]; reflexivity.
Defined.

(** X14.  No gene of an excluded scaffold is in the index that [parse_gtf]
    returns, with gene records and with genes built from exons alike. *)
Theorem excluded_scaffolds_not_indexed :
  forall (re_search : pattern -> string -> option string) (lines : list gtfline)
         (exonstogenes : bool) (excludedict : option (dict bool))
         (delimiter : option string) (isref : bool) (d : gtf_index isref)
         (scaffold gene : string) (start end_ : Z) (strand : string),
    parse_gtf re_search lines exonstogenes excludedict delimiter isref = Ok d ->
    index_entry isref d scaffold gene start end_ strand ->
    excluded excludedict scaffold = false.
Proof.
  intros re_search lines exonstogenes excludedict delimiter isref d scaffold gene
    start end_ strand Hparse Hentry.
  unfold parse_gtf in Hparse.
  destruct (parse_gtf_lines re_search exonstogenes excludedict delimiter isref
              lines (empty_index isref, no_exons)) as [[genes ex]|e] eqn:Hrun;
    simpl in Hparse; [|discriminate].
  assert (Hgenes : forall scaffold gene start end_ strand,
             index_entry isref genes scaffold gene start end_ strand ->
             excluded excludedict scaffold = false).
  { intros sc g s e str H.
    destruct (parse_gtf_lines_entries _ _ _ _ _ _ _ _ _ _ Hrun _ _ _ _ _ H)
      as [Hempty|(ln & id & _ & Hrec & _ & _ & Hsc & _)].
    - exfalso. exact (index_entry_empty _ _ _ _ _ _ Hempty).
    - subst sc. unfold gene_record in Hrec.
      apply andb_true_iff in Hrec. destruct Hrec as [Hrec _].
      apply negb_true_iff in Hrec. exact Hrec. }
  destruct (0 <? index_len isref genes)%nat.
  { inversion Hparse; subst. eapply Hgenes; eauto. }
  destruct exonstogenes; [|discriminate].
  destruct (genes_from_exons_entries _ _ _ _ _ Hparse _ _ _ _ _ Hentry)
    as [(exons & _ & Hsc & _)|Hold].
  - eapply (parse_gtf_lines_scaffolds _ _ _ _ _ _ _ _ _ _ Hrun); eauto.
    simpl. discriminate.
  - eapply Hgenes; eauto.
Qed.

Lemma excluded_scaffolds_not_indexed_witness :
  excluded (Some [("Y", true)]) "X" = false.
Proof.
  apply (excluded_scaffolds_not_indexed whole_attribute gene_and_exon_lines false
           (Some [("Y", true)]) (Some ".") true [("g1", mk_refgene "X" 5 50 "+")]
           "X" "g1" 5 50 "+").
  - vm_compute. reflexivity.
  - vm_compute. reflexivity.
Defined.

(** X15.  When the file has a gene record, every entry of the index that
    [parse_gtf] returns is a gene record of the file: a line outside the
    excluded scaffolds with feature gene, transcript or mRNA, whose scaffold,
    bounds and strand are those of the entry and whose identifier, cut at the
    delimiter, is its name. *)
Theorem gene_entries_from_gene_records :
  forall (re_search : pattern -> string -> option string) (lines : list gtfline)
         (exonstogenes : bool) (excludedict : option (dict bool))
         (delimiter : option string) (isref : bool) (d : gtf_index isref)
         (scaffold gene : string) (start end_ : Z) (strand : string),
    parse_gtf re_search lines exonstogenes excludedict delimiter isref = Ok d ->
    (exists ln, In ln lines /\ gene_record excludedict ln = true) ->
    index_entry isref d scaffold gene start end_ strand ->
    exists ln id,
      In ln lines /\ gene_record excludedict ln = true /\
      search_id re_search pat_gene_id pat_ID (g_attributes ln) = Ok id /\
      trim_id delimiter id = Ok gene /\
      g_scaffold ln = scaffold /\ g_start ln = start /\ g_end ln = end_ /\
      g_strand ln = strand.
Proof.
  intros re_search lines exonstogenes excludedict delimiter isref d scaffold gene
    start end_ strand Hparse Hrec Hentry.
  unfold parse_gtf in Hparse.
  destruct (parse_gtf_lines re_search exonstogenes excludedict delimiter isref
              lines (empty_index isref, no_exons)) as [[genes ex]|e] eqn:Hrun;
    simpl in Hparse; [|discriminate].
  assert (Hlen : index_len isref genes <> 0%nat).
  { eapply parse_gtf_lines_nonempty; eauto. }
  destruct (0 <? index_len isref genes)%nat eqn:Hpos.
  - inversion Hparse; subst d.
    destruct (parse_gtf_lines_entries _ _ _ _ _ _ _ _ _ _ Hrun _ _ _ _ _ Hentry)
      as [Hempty|Hfound].
    + exfalso. exact (index_entry_empty _ _ _ _ _ _ Hempty).
    + exact Hfound.
  - apply Nat.ltb_ge in Hpos. lia.
Qed.

Lemma gene_entries_from_gene_records_witness :
  exists ln id,
    In ln gene_and_exon_lines /\ gene_record None ln = true /\
    search_id whole_attribute pat_gene_id pat_ID (g_attributes ln) = Ok id /\
    trim_id (Some ".") id = Ok "g2" /\
    g_scaffold ln = "Y" /\ g_start ln = 7 /\ g_end ln = 90 /\ g_strand ln = "-".
Proof.
  apply (gene_entries_from_gene_records whole_attribute gene_and_exon_lines true
           None (Some ".") true
           [("g1", mk_refgene "X" 5 50 "+"); ("g2", mk_refgene "Y" 7 90 "-")]).
  - vm_compute. reflexivity.
  - exists (mk_gtfline "X" "gene" 5 50 "+" "g1.t1"). split.
    + simpl. auto.
    + vm_compute. reflexivity.
  - vm_compute. reflexivity.
Defined.

(** X16.  When the file has a gene record, [-g] adds nothing: an index returned
    with [exonstogenes] is the index returned without it, the exon lines of the
    file having no part in it. *)
Theorem gene_records_override_exons :
  forall (re_search : pattern -> string -> option string) (lines : list gtfline)
         (excludedict : option (dict bool)) (delimiter : option string)
         (isref : bool) (d : gtf_index isref),
    parse_gtf re_search lines true excludedict delimiter isref = Ok d ->
    (exists ln, In ln lines /\ gene_record excludedict ln = true) ->
    parse_gtf re_search lines false excludedict delimiter isref = Ok d.
Proof.
  intros re_search lines excludedict delimiter isref d Hparse Hrec.
  unfold parse_gtf in Hparse |- *.
  destruct (parse_gtf_lines re_search true excludedict delimiter isref
              lines (empty_index isref, no_exons)) as [[genes ex]|e] eqn:Hrun;
    simpl in Hparse; [|discriminate].
  rewrite (parse_gtf_lines_exons_ignored _ _ _ _ _ _ _ _ _ Hrun no_exons).
  simpl.
  assert (Hlen : index_len isref genes <> 0%nat).
  { eapply parse_gtf_lines_nonempty; eauto. }
  destruct (0 <? index_len isref genes)%nat eqn:Hpos.
  - exact Hparse.
  - apply Nat.ltb_ge in Hpos. lia.
Qed.

Lemma gene_records_override_exons_witness :
  parse_gtf whole_attribute gene_and_exon_lines false None (Some ".") false
  = Ok [("X", [("g1", mk_querygene 5 50 "+")]);
        ("Y", [("g2", mk_querygene 7 90 "-")])].
Proof.
  apply (gene_records_override_exons whole_attribute gene_and_exon_lines None
           (Some ".") false).
  - vm_compute. reflexivity.
  - exists (mk_gtfline "X" "gene" 5 50 "+" "g1.t1"). split.
    + simpl. auto.
    + vm_compute. reflexivity.
Defined.

(** ** Identifiers and delimiters *)

Lemma prefix_append (s t : string) : String.prefix s (s ++ t)%string = true.
Proof.
  induction s as [|c s IH]; simpl.
  - destruct t; reflexivity.
  - destruct (ascii_dec c c) as [_|Hne]; [exact IH|congruence].
Qed.

Lemma rfind_head_absent (sep s : string) :
  occurs sep s = false -> rfind_head sep s = None.
Proof.
  induction s as [|c s IH]; [reflexivity|].
  cbn [occurs rfind_head]. intros H.
  apply orb_false_iff in H. destruct H as [Hpre Hocc].
  rewrite (IH Hocc), Hpre. reflexivity.
Qed.

Lemma rfind_head_last (c : ascii) (sep' h t : string) :
  occurs (String c sep') (sep' ++ t)%string = false ->
  rfind_head (String c sep') (h ++ String c sep' ++ t)%string = Some h.
Proof.
  intros Hocc. induction h as [|a h IH].
  - change (rfind_head (String c sep') (String c (sep' ++ t)%string) = Some "").
    cbn [rfind_head]. rewrite (rfind_head_absent _ _ Hocc).
    change (String c (sep' ++ t)%string) with (String c sep' ++ t)%string.
    rewrite prefix_append. reflexivity.
  - change (rfind_head (String c sep')
              (String a (h ++ String c sep' ++ t)%string) = Some (String a h)).
    cbn [rfind_head]. rewrite IH. reflexivity.
Qed.

(** X17.  An identifier is cut at the last occurrence of the delimiter: when the
    delimiter does not occur again further to the right, [parse_gtf] keeps the
    text in front of it. *)
Theorem trim_id_cuts_last_delimiter :
  forall (c : ascii) (sep' h t : string),
    occurs (String c sep') (sep' ++ t)%string = false ->
    trim_id (Some (String c sep')) (h ++ String c sep' ++ t)%string = Ok h.
Proof.
  intros c sep' h t Hocc. unfold trim_id, rsplit1_head.
  rewrite (rfind_head_last c sep' h t Hocc). reflexivity.
Qed.

Lemma trim_id_cuts_last_delimiter_witness :
  trim_id (Some ".") ("g1.a" ++ "." ++ "t1")%string = Ok "g1.a".
Proof.
  apply (trim_id_cuts_last_delimiter "." "" "g1.a" "t1").
  vm_compute. reflexivity.
Defined.

(** X18.  An identifier is kept as it is when no delimiter is given, when the
    delimiter is the empty string, and when the delimiter does not occur in
    it. *)
Theorem trim_id_keeps_plain_names :
  forall (delimiter : option string) (geneid : string),
    (forall sep, delimiter = Some sep ->
                 sep = EmptyString \/ occurs sep geneid = false) ->
    trim_id delimiter geneid = Ok geneid.
Proof.
  intros [sep|] geneid Hocc; [|reflexivity].
  destruct sep as [|c sep']; [reflexivity|].
  unfold trim_id, rsplit1_head.
  destruct (Hocc _ eq_refl) as [Hempty|Habsent]; [discriminate|].
  rewrite (rfind_head_absent _ _ Habsent). reflexivity.
Qed.

Lemma trim_id_keeps_plain_names_witness :
  trim_id None "g1.t1" = Ok "g1.t1" /\
  trim_id (Some EmptyString) "g1.t1" = Ok "g1.t1" /\
  trim_id (Some ".") "g1_t1" = Ok "g1_t1".
Proof.
  split; [|split].
  - apply (trim_id_keeps_plain_names None "g1.t1").
    intros sep Hsep. discriminate Hsep.
  - apply (trim_id_keeps_plain_names (Some EmptyString) "g1.t1").
    intros sep Hsep. inversion Hsep; subst sep. left. reflexivity.
  - apply (trim_id_keeps_plain_names (Some ".") "g1_t1").
    intros sep Hsep. inversion Hsep; subst sep. right. vm_compute. reflexivity.
Defined.

(** X12.  An empty delimiter for the hit file is not passed over as in
    [parse_gtf]:  [rsplit] raises [ValueError] on the first line. *)
Theorem blast_empty_delimiter_value_error :
  forall (lines : list blastline) (evaluecutoff : Q)
         (querydelimiter refdelimiter : string) (switchquery : bool)
         (maxhits : Z),
    lines <> [] ->
    querydelimiter = "" \/ refdelimiter = "" ->
    parse_tabular_blast lines evaluecutoff querydelimiter refdelimiter
      switchquery maxhits = Err ValueError.
Proof.
  intros lines evaluecutoff querydelimiter refdelimiter switchquery maxhits
    Hlines Hempty.
  destruct lines as [|ln lines]; [congruence|].
  unfold parse_tabular_blast. cbn [parse_blast_lines].
  assert (Hids : blast_ids querydelimiter refdelimiter switchquery ln
                 = Err ValueError).
  { unfold blast_ids, rsplit1_head.
    destruct switchquery, Hempty as [-> | ->]; simpl;
      try reflexivity.
    - destruct refdelimiter; [reflexivity|].
      destruct (rfind_head _ _); reflexivity.
    - destruct querydelimiter; [reflexivity|].
      destruct (rfind_head _ _); reflexivity. }
  unfold parse_blast_line. rewrite Hids. reflexivity.
Qed.

Lemma blast_empty_delimiter_value_error_witness :
  parse_tabular_blast [first_hit] (1#10000) "|" "" false 100 = Err ValueError.
Proof.
  apply (blast_empty_delimiter_value_error [first_hit] (1#10000) "|" "" false 100).
  - discriminate.
  - right. reflexivity.
Defined.

(** ** The exclusion list *)

Lemma read_exclusions_lookup terms :
  forall d0 d,
    read_exclusions terms d0 = Ok d ->
    forall scaffold,
      dict_get_default String.eqb scaffold false d = true <->
      In scaffold (map unmarked terms) \/
      dict_get_default String.eqb scaffold false d0 = true.
Proof.
  induction terms as [|term terms IH]; intros d0 d Hread scaffold.
  - simpl in Hread. inversion Hread; subst. simpl. tauto.
  - cbn [read_exclusions] in Hread.
    destruct term as [|c rest]; [discriminate|].
    assert (Hterm : (if Ascii.eqb c ">" then rest else String c rest)
                    = unmarked (String c rest)).
    { unfold unmarked. destruct (Ascii.eqb c ">") eqn:Hc.
      - apply Ascii.eqb_eq in Hc. subst c. reflexivity.
      - apply Ascii.eqb_neq in Hc.
        destruct c as [[] [] [] [] [] [] [] []]; try reflexivity.
        exfalso. apply Hc. reflexivity. }
    rewrite Hterm in Hread.
    rewrite (IH _ _ Hread scaffold). cbn [map In].
    destruct (String.eqb (unmarked (String c rest)) scaffold) eqn:Heq.
    + apply String.eqb_eq in Heq. rewrite <- Heq.
      rewrite sget_default_sset_same. tauto.
    + apply String.eqb_neq in Heq.
      rewrite sget_default_sset_other by exact Heq. tauto.
Qed.

Lemma read_exclusions_blank terms :
  In "" terms -> forall d0, read_exclusions terms d0 = Err IndexError.
Proof.
  induction terms as [|term terms IH]; intros Hin d0; [destruct Hin|].
  cbn [read_exclusions]. destruct term as [|c rest]; [reflexivity|].
  destruct Hin as [Heq|Hin]; [discriminate|]. apply IH. exact Hin.
Qed.

(** X19.  The scaffolds that [parse_gtf] passes over are the lines of the
    exclusion list, each without a leading [>] if it has one. *)
Theorem exclusion_list_lookup :
  forall (a : invocation) (terms : list string) (exclusionDict : option (dict bool)),
    exclude a = Some terms ->
    load_exclusions a = Ok exclusionDict ->
    forall scaffold,
      excluded exclusionDict scaffold = true <-> In scaffold (map unmarked terms).
Proof.
  intros a terms exclusionDict Hex Hload scaffold.
  unfold load_exclusions in Hload. rewrite Hex in Hload.
  destruct (read_exclusions terms []) as [d|e] eqn:Hread; simpl in Hload;
    [|discriminate].
  inversion Hload; subst exclusionDict. simpl.
  rewrite (read_exclusions_lookup _ _ _ Hread scaffold).
  unfold dict_get_default. simpl. intuition discriminate.
Qed.

Lemma exclusion_list_lookup_witness :
  excluded (Some [("S9", true); ("S8", true)]) "S9" = true <->
  In "S9" (map unmarked [">S9"; "S8"]).
Proof.
  apply (exclusion_list_lookup excluding_invocation [">S9"; "S8"]
           (Some [("S9", true); ("S8", true)])).
  - reflexivity.
  - vm_compute. reflexivity.
Defined.

(** X20.  A blank line in the exclusion list ends the run with [IndexError] on
    line 385, before any file is parsed. *)
Theorem exclusion_blank_line_index_error :
  forall (re_search : pattern -> string -> option string)
         (shuffle : list string -> list string) (a : invocation)
         (terms : list string),
    exclude a = Some terms ->
    In "" terms ->
    main re_search shuffle a = Raised IndexError initial_state.
Proof.
  intros re_search shuffle a terms Hex Hin.
  unfold main, load_exclusions. rewrite Hex.
  rewrite (read_exclusions_blank terms Hin). reflexivity.
Qed.

Lemma exclusion_blank_line_index_error_witness :
  main whole_attribute (fun l => l) blank_line_invocation
  = Raised IndexError initial_state.
Proof.
  apply (exclusion_blank_line_index_error whole_attribute (fun l => l)
           blank_line_invocation ["S9"; ""]).
  - reflexivity.
  - simpl. auto.
Defined.

(** X21.  Whatever [-m] is given, every block in the output of a run of [main]
    that ends normally has at least two pairs, and at least [-m] of them. *)
Theorem main_blocks_have_two_pairs :
  forall (re_search : pattern -> string -> option string)
         (shuffle : list string -> list string) (a : invocation) (s : wstate),
    main re_search shuffle a = Normal s ->
    forall n, 1 <= n <= blocks_found s ->
              Z.max 2 (minimum a)
              <= Z.of_nat (List.length (block_lines n (wayout s))).
Proof.
  intros re_search shuffle a s Hmain n Hn.
  unfold main in Hmain. cbv zeta in Hmain.
  match type of Hmain with
  | match ?p with _ => _ end = _ => destruct p as [[[querydict refdict] blastdict]|e]
  end; [|discriminate].
  destruct (items querydict) as [d|e]; [|discriminate].
  apply synteny_walk_normal in Hmain.
  destruct Hmain as (s0 & Hwalk & _ & (Hnum & _ & Hout)).
  apply walk_scaffolds_blocks in Hwalk; [|reflexivity|reflexivity].
  destruct Hwalk as (_ & _ & _ & Hblocks).
  unfold blocks_found in Hn. rewrite Hout.
  assert (Hmin : (if minimum a <? 2 then 2 else minimum a) = Z.max 2 (minimum a)).
  { destruct (Z.ltb_spec (minimum a) 2); lia. }
  rewrite <- Hmin. apply Hblocks. lia.
Qed.

Lemma main_blocks_have_two_pairs_witness :
  Z.max 2 (minimum excluding_invocation)
  <= Z.of_nat
       (List.length
          (block_lines 1
             (wayout (final_state
                        (main whole_attribute (fun l => l) excluding_invocation))))).
Proof.
  apply (main_blocks_have_two_pairs whole_attribute (fun l => l)
           excluding_invocation
           (final_state (main whole_attribute (fun l => l) excluding_invocation))).
  - vm_compute. reflexivity.
  - vm_compute. split; discriminate.
Defined.

(** ** Randomized gene names *)

Lemma sset_absent {V : Type} k (v : V) d :
  ~ In k (map fst d) -> sset k v d = d ++ [(k, v)].
Proof.
  unfold sset. induction d as [|[k' v'] d IH]; simpl; intros Hnot; [reflexivity|].
  destruct (String.eqb k k') eqn:Heq.
  - apply String.eqb_eq in Heq. subst. exfalso. apply Hnot. left. reflexivity.
  - rewrite IH; [reflexivity|]. intros Hin. apply Hnot. right. exact Hin.
Qed.

Lemma sset_last {V : Type} k (v v0 : V) d :
  ~ In k (map fst d) -> sset k v (d ++ [(k, v0)]) = d ++ [(k, v)].
Proof.
  unfold sset. induction d as [|[k' v'] d IH]; simpl; intros Hnot.
  - rewrite String.eqb_refl. reflexivity.
  - destruct (String.eqb k k') eqn:Heq.
    + apply String.eqb_eq in Heq. subst. exfalso. apply Hnot. left. reflexivity.
    + rewrite IH; [reflexivity|]. intros Hin. apply Hnot. right. exact Hin.
Qed.

Lemma get_default_absent {V : Type} k (dflt : V) (d : dict V) :
  ~ In k (map fst d) -> dict_get_default String.eqb k dflt d = dflt.
Proof.
  intros Hnot. apply sget_None_keys in Hnot.
  unfold dict_get_default. unfold sget in Hnot. rewrite Hnot. reflexivity.
Qed.

Lemma get_default_last {V : Type} k (dflt v : V) (d : dict V) :
  ~ In k (map fst d) -> dict_get_default String.eqb k dflt (d ++ [(k, v)]) = v.
Proof.
  unfold dict_get_default.
  induction d as [|[k' v'] d IH]; simpl; intros Hnot.
  - rewrite String.eqb_refl. reflexivity.
  - destruct (String.eqb k k') eqn:Heq.
    + apply String.eqb_eq in Heq. subst. exfalso. apply Hnot. left. reflexivity.
    + apply IH. intros Hin. apply Hnot. right. exact Hin.
Qed.

(** The first pass. *)
Lemma collect_fold (genedict : dict querygene) :
  forall acc : list string * dict querygene,
    fold_left (fun a kv => (fst a ++ [fst kv], sset (fst kv) (snd kv) (snd a)))
      genedict acc
    = (fst acc ++ map fst genedict,
       fold_left (fun p kv => sset (fst kv) (snd kv) p) genedict (snd acc)).
Proof.
  induction genedict as [|[n p] genedict IH]; intros [names pos]; simpl.
  - rewrite app_nil_r. reflexivity.
  - rewrite IH. simpl. rewrite <- app_assoc. reflexivity.
Qed.

Lemma collect_genes_names refdict :
  forall acc, fst (collect_genes refdict acc) = fst acc ++ all_names refdict.
Proof.
  induction refdict as [|[scaffold genedict] refdict IH]; intros acc; simpl.
  - unfold all_names. simpl. rewrite app_nil_r. reflexivity.
  - rewrite IH, collect_fold. unfold all_names. simpl.
    rewrite app_assoc. reflexivity.
Qed.

Lemma fold_sset_other (genedict : dict querygene) :
  forall (pos : dict querygene) n,
    ~ In n (map fst genedict) ->
    sget n (fold_left (fun p kv => sset (fst kv) (snd kv) p) genedict pos)
    = sget n pos.
Proof.
  induction genedict as [|[n' p'] genedict IH]; intros pos n Hnot; simpl;
    [reflexivity|].
  rewrite IH.
  - apply sget_sset_other. intros Heq. apply Hnot. left. exact Heq.
  - intros Hin. apply Hnot. right. exact Hin.
Qed.

Lemma fold_sset_keys (genedict : dict querygene) :
  forall (pos : dict querygene) n,
    In n (map fst genedict) \/ In n (map fst pos) ->
    In n (map fst (fold_left (fun p kv => sset (fst kv) (snd kv) p) genedict pos)).
Proof.
  induction genedict as [|[n' p'] genedict IH]; intros pos n Hin; simpl.
  - destruct Hin as [[]|Hin]. exact Hin.
  - apply IH. simpl in Hin. rewrite sset_keys. simpl. intuition.
Qed.

Lemma fold_sset_same (genedict : dict querygene) :
  forall (pos : dict querygene) n p,
    NoDup (map fst genedict) ->
    In (n, p) genedict ->
    sget n (fold_left (fun p kv => sset (fst kv) (snd kv) p) genedict pos)
    = Some p.
Proof.
  induction genedict as [|[n' p'] genedict IH]; intros pos n p Hnd Hin; simpl;
    [destruct Hin|].
  simpl in Hnd. inversion Hnd as [|? ? Hnot Hnd']; subst.
  destruct Hin as [Heq|Hin].
  - inversion Heq; subst. rewrite fold_sset_other by exact Hnot.
    apply sget_sset_same.
  - apply IH; assumption.
Qed.

Lemma collect_genes_keys refdict :
  forall (acc : list string * dict querygene) n,
    In n (all_names refdict) \/ In n (map fst (snd acc)) ->
    In n (map fst (snd (collect_genes refdict acc))).
Proof.
  induction refdict as [|[scaffold genedict] refdict IH]; intros acc n Hin; simpl.
  - destruct Hin as [[]|Hin]. exact Hin.
  - apply IH. rewrite collect_fold. simpl.
    unfold all_names in Hin. simpl in Hin. rewrite in_app_iff in Hin.
    destruct Hin as [[Hin|Hin]|Hin].
    + right. apply fold_sset_keys. left. exact Hin.
    + left. exact Hin.
    + right. apply fold_sset_keys. right. exact Hin.
Qed.

Lemma collect_genes_positions refdict :
  forall (acc : list string * dict querygene),
    NoDup (all_names refdict) ->
    forall scaffold genedict n p,
      In (scaffold, genedict) refdict ->
      In (n, p) genedict ->
      sget n (snd (collect_genes refdict acc)) = Some p.
Proof.
  assert (Hkeep : forall rest (acc : list string * dict querygene) n,
             ~ In n (all_names rest) ->
             sget n (snd (collect_genes rest acc)) = sget n (snd acc)).
  { induction rest as [|[sc gd] rest IH]; intros acc n Hnot; simpl;
      [reflexivity|].
    unfold all_names in Hnot. simpl in Hnot. rewrite in_app_iff in Hnot.
    rewrite IH by (intros Hin; apply Hnot; right; exact Hin).
    rewrite collect_fold. simpl. apply fold_sset_other.
    intros Hin. apply Hnot. left. exact Hin. }
  induction refdict as [|[sc gd] refdict IH];
    intros acc Hnd scaffold genedict n p Hsc Hin; [destruct Hsc|].
  unfold all_names in Hnd. simpl in Hnd.
  destruct Hsc as [Heq|Hsc].
  - inversion Heq; subst sc gd. simpl.
    rewrite Hkeep.
    + rewrite collect_fold. simpl. apply fold_sset_same; [|exact Hin].
      apply NoDup_app_remove_r in Hnd. exact Hnd.
    + intros Hlater.
      assert (Hn : In n (map fst genedict)).
      { apply in_map_iff. exists (n, p). auto. }
      clear - Hnd Hlater Hn.
      induction (map fst genedict) as [|x l IHl]; [destruct Hn|].
      simpl in Hnd. inversion Hnd as [|? ? Hx Hnd']; subst.
      destruct Hn as [->|Hn].
      * apply Hx. apply in_or_app. right. exact Hlater.
      * apply IHl; assumption.
  - simpl. eapply IH; eauto.
    apply NoDup_app_remove_l in Hnd. exact Hnd.
Qed.

(** The second pass. *)
Lemma with_scaffold_step done scaffold cur r (p : querygene) :
  ~ In scaffold (map fst done) ->
  ~ In r (map fst cur) ->
  sset scaffold
    (sset r p (dict_get_default String.eqb scaffold [] (with_scaffold done scaffold cur)))
    (with_scaffold done scaffold cur)
  = with_scaffold done scaffold (cur ++ [(r, p)]).
Proof.
  intros Hsc Hr.
  assert (Hnew : with_scaffold done scaffold (cur ++ [(r, p)])
                 = done ++ [(scaffold, cur ++ [(r, p)])]).
  { unfold with_scaffold. destruct cur; reflexivity. }
  rewrite Hnew. destruct cur as [|c cur].
  - unfold with_scaffold. rewrite (get_default_absent _ _ _ Hsc).
    rewrite (sset_absent scaffold _ done Hsc). reflexivity.
  - unfold with_scaffold. rewrite (get_default_last _ _ _ _ Hsc).
    rewrite (sset_absent r p (c :: cur) Hr).
    apply sset_last. exact Hsc.
Qed.

Lemma with_scaffold_app done scaffold cur :
  with_scaffold done scaffold cur = done ++ with_scaffold [] scaffold cur.
Proof.
  unfold with_scaffold. destruct cur; [rewrite app_nil_r|]; reflexivity.
Qed.

Lemma reassign_scaffold_run genepositions scaffold done :
  ~ In scaffold (map fst done) ->
  forall genedict rs cur pre post,
    List.length rs = List.length genedict ->
    NoDup (map fst cur ++ rs) ->
    (forall n p, In (n, p) genedict -> sget n genepositions = Some p) ->
    reassign_scaffold (pre ++ rs ++ post) genepositions scaffold genedict
      (with_scaffold done scaffold cur, List.length pre)
    = Ok (with_scaffold done scaffold (cur ++ combine rs (map snd genedict)),
          (List.length pre + List.length rs)%nat).
Proof.
  intros Hsc.
  induction genedict as [|[n p] genedict IH]; intros rs cur pre post Hlen Hnd Hpos.
  - destruct rs; [|discriminate]. simpl.
    rewrite app_nil_r, Nat.add_0_r. reflexivity.
  - destruct rs as [|r rs]; [discriminate|].
    cbn [reassign_scaffold].
    assert (Hnth : nth_error (pre ++ (r :: rs) ++ post) (List.length pre) = Some r).
    { rewrite nth_error_app2 by lia. rewrite Nat.sub_diag. reflexivity. }
    rewrite Hnth.
    assert (Hget : sindex n genepositions = Ok p).
    { unfold sindex. rewrite (Hpos n p (or_introl eq_refl)). reflexivity. }
    rewrite Hget. cbn [bind].
    assert (Hr : ~ In r (map fst cur)).
    { intros Hin. apply NoDup_remove_2 in Hnd. apply Hnd.
      apply in_or_app. left. exact Hin. }
    rewrite (with_scaffold_step done scaffold cur r p Hsc Hr).
    assert (Hlist : pre ++ (r :: rs) ++ post = (pre ++ [r]) ++ rs ++ post).
    { rewrite <- app_assoc. reflexivity. }
    assert (Hcount : S (List.length pre) = List.length (pre ++ [r])).
    { rewrite length_app. simpl. lia. }
    rewrite Hlist, Hcount.
    rewrite (IH rs (cur ++ [(r, p)]) (pre ++ [r]) post).
    + simpl. rewrite <- app_assoc. simpl. rewrite length_app. simpl.
      do 2 f_equal. lia.
    + simpl in Hlen. lia.
    + rewrite map_app. simpl. rewrite <- app_assoc. exact Hnd.
    + intros n' p' Hin. apply Hpos. right. exact Hin.
Qed.

Lemma reassign_genes_run genepositions :
  forall refdict rs done pre post,
    NoDup (map fst done ++ map fst refdict) ->
    NoDup rs ->
    List.length rs = List.length (all_names refdict) ->
    (forall scaffold genedict n p,
        In (scaffold, genedict) refdict -> In (n, p) genedict ->
        sget n genepositions = Some p) ->
    reassign_genes (pre ++ rs ++ post) genepositions refdict
      (done, List.length pre)
    = Ok (done ++ relabel rs refdict, (List.length pre + List.length rs)%nat).
Proof.
  induction refdict as [|[scaffold genedict] refdict IH];
    intros rs done pre post Hkeys Hnd Hlen Hpos.
  - destruct rs; [|discriminate]. simpl.
    rewrite app_nil_r, Nat.add_0_r. reflexivity.
  - cbn [reassign_genes relabel].
    unfold all_names in Hlen. simpl in Hlen.
    rewrite length_app, length_map in Hlen.
    fold (all_names refdict) in Hlen.
    set (k := List.length genedict) in *.
    assert (Hsplit : rs = firstn k rs ++ skipn k rs)
      by (symmetry; apply firstn_skipn).
    assert (Hk : List.length (firstn k rs) = k)
      by (rewrite length_firstn; lia).
    assert (Hsc : ~ In scaffold (map fst done)).
    { intros Hin. simpl in Hkeys. apply NoDup_remove_2 in Hkeys. apply Hkeys.
      apply in_or_app. left. exact Hin. }
    assert (Hnd' : NoDup (firstn k rs) /\ NoDup (skipn k rs)).
    { rewrite Hsplit in Hnd. split.
      - apply NoDup_app_remove_r in Hnd. exact Hnd.
      - apply NoDup_app_remove_l in Hnd. exact Hnd. }
    assert (Hrun :
      reassign_scaffold (pre ++ rs ++ post) genepositions scaffold genedict
        (done, List.length pre)
      = Ok (with_scaffold done scaffold
              (combine (firstn k rs) (map snd genedict)),
            (List.length pre + k)%nat)).
    { assert (Hlist : pre ++ rs ++ post
                      = pre ++ firstn k rs ++ (skipn k rs ++ post)).
      { rewrite (app_assoc (firstn k rs)). rewrite <- Hsplit. reflexivity. }
      rewrite Hlist.
      pose proof (reassign_scaffold_run genepositions scaffold done Hsc genedict
                    (firstn k rs) [] pre (skipn k rs ++ post)) as H.
      change (with_scaffold done scaffold []) with done in H.
      rewrite app_nil_l in H. rewrite Hk in H. apply H.
      - reflexivity.
      - simpl. apply Hnd'.
      - intros n p Hin. eapply Hpos; [left; reflexivity|exact Hin]. }
    rewrite Hrun. cbn [bind].
    assert (Hlist : pre ++ rs ++ post
                    = (pre ++ firstn k rs) ++ skipn k rs ++ post).
    { rewrite <- app_assoc. rewrite (app_assoc (firstn k rs)).
      rewrite <- Hsplit. reflexivity. }
    assert (Hcount : (List.length pre + k)%nat = List.length (pre ++ firstn k rs)).
    { rewrite length_app. lia. }
    rewrite Hlist, Hcount.
    etransitivity.
    { apply (IH (skipn k rs)
               (with_scaffold done scaffold
                  (combine (firstn k rs) (map snd genedict)))
               (pre ++ firstn k rs) post).
      - simpl in Hkeys. unfold with_scaffold.
        destruct (combine (firstn k rs) (map snd genedict)).
        + apply NoDup_remove_1 in Hkeys. exact Hkeys.
        + rewrite map_app. simpl. rewrite <- app_assoc. exact Hkeys.
      - apply Hnd'.
      - rewrite length_skipn. lia.
      - intros sc gd n p Hin1 Hin2.
        eapply Hpos; [right; exact Hin1|exact Hin2]. }
    rewrite (with_scaffold_app done). rewrite <- app_assoc.
    rewrite !length_app, length_skipn. do 2 f_equal. lia.
Qed.

Lemma map_fst_combine {A B : Type} (l : list A) :
  forall l' : list B,
    List.length l = List.length l' -> map fst (combine l l') = l.
Proof.
  induction l as [|a l IH]; intros [|b l'] Hlen; simpl in *;
    try reflexivity; try discriminate.
  rewrite IH; [reflexivity|lia].
Qed.

Lemma map_snd_combine {A B : Type} (l : list A) :
  forall l' : list B,
    List.length l = List.length l' -> map snd (combine l l') = l'.
Proof.
  induction l as [|a l IH]; intros [|b l'] Hlen; simpl in *;
    try reflexivity; try discriminate.
  rewrite IH; [reflexivity|lia].
Qed.

Lemma all_names_app a b : all_names (a ++ b) = all_names a ++ all_names b.
Proof. unfold all_names. rewrite map_app, concat_app. reflexivity. Qed.

Lemma positions_app a b : positions (a ++ b) = positions a ++ positions b.
Proof. unfold positions. rewrite filter_app, map_app. reflexivity. Qed.

Lemma relabel_names :
  forall refdict rs,
    List.length rs = List.length (all_names refdict) ->
    all_names (relabel rs refdict) = rs.
Proof.
  induction refdict as [|[scaffold genedict] refdict IH]; intros rs Hlen.
  - destruct rs; [reflexivity|discriminate].
  - cbn [relabel]. unfold all_names in Hlen. simpl in Hlen.
    rewrite length_app, length_map in Hlen. fold (all_names refdict) in Hlen.
    rewrite all_names_app, IH by (rewrite length_skipn; lia).
    assert (Hcur : all_names
                     (with_scaffold [] scaffold
                        (combine (firstn (List.length genedict) rs)
                           (map snd genedict)))
                   = firstn (List.length genedict) rs).
    { assert (Hmap : map fst (combine (firstn (List.length genedict) rs)
                                (map snd genedict))
                     = firstn (List.length genedict) rs).
      { apply map_fst_combine.
        rewrite length_firstn, length_map. lia. }
      unfold with_scaffold.
      destruct (combine (firstn (List.length genedict) rs) (map snd genedict))
        eqn:Hc.
      - simpl in Hmap. rewrite <- Hmap. reflexivity.
      - unfold all_names. simpl. rewrite app_nil_r. exact Hmap. }
    rewrite Hcur. apply firstn_skipn.
Qed.

Lemma relabel_positions :
  forall refdict rs,
    List.length rs = List.length (all_names refdict) ->
    positions (relabel rs refdict) = positions refdict.
Proof.
  induction refdict as [|[scaffold genedict] refdict IH]; intros rs Hlen.
  - reflexivity.
  - cbn [relabel]. unfold all_names in Hlen. simpl in Hlen.
    rewrite length_app, length_map in Hlen. fold (all_names refdict) in Hlen.
    rewrite positions_app, IH by (rewrite length_skipn; lia).
    change ((scaffold, genedict) :: refdict)
      with ([(scaffold, genedict)] ++ refdict).
    rewrite positions_app. f_equal.
    assert (Hmap : map snd (combine (firstn (List.length genedict) rs)
                              (map snd genedict))
                   = map snd genedict).
    { apply map_snd_combine.
      rewrite length_firstn, length_map. lia. }
    unfold with_scaffold.
    destruct (combine (firstn (List.length genedict) rs) (map snd genedict))
      eqn:Hc.
    + destruct genedict; [reflexivity|discriminate].
    + destruct genedict; [discriminate|].
      unfold positions. simpl. simpl in Hmap. rewrite Hmap. reflexivity.
Qed.

(** X22.  Randomizing a query index with a shuffle that rearranges the names:
    the genes get the shuffled names in the order of iteration, and every
    scaffold keeps the positions of its genes in their order.  The names are
    assumed distinct over the whole index. *)
Theorem randomize_keeps_positions :
  forall (shuffle : list string -> list string) (refdict : dict (dict querygene)),
    NoDup (map fst refdict) ->
    NoDup (all_names refdict) ->
    Permutation (all_names refdict) (shuffle (all_names refdict)) ->
    exists d,
      randomize_genes shuffle refdict = Ok d /\
      all_names d = shuffle (all_names refdict) /\
      positions d = positions refdict.
Proof.
  intros shuffle refdict Hkeys Hnames Hperm.
  unfold randomize_genes.
  destruct (collect_genes refdict ([], [])) as [names genepositions] eqn:Hcol.
  assert (Hn : names = all_names refdict).
  { pose proof (collect_genes_names refdict ([], [])) as H.
    rewrite Hcol in H. exact H. }
  assert (Hpos : forall scaffold genedict n p,
             In (scaffold, genedict) refdict -> In (n, p) genedict ->
             sget n genepositions = Some p).
  { intros sc gd n p H1 H2.
    pose proof (collect_genes_positions refdict ([], []) Hnames sc gd n p H1 H2)
      as H.
    rewrite Hcol in H. exact H. }
  subst names.
  set (rs := shuffle (all_names refdict)) in *.
  assert (Hlen : List.length rs = List.length (all_names refdict)).
  { symmetry. apply Permutation_length. exact Hperm. }
  assert (Hnd : NoDup rs).
  { eapply Permutation_NoDup; eauto. }
  pose proof (reassign_genes_run genepositions refdict rs [] [] []) as Hrun.
  simpl in Hrun. rewrite app_nil_r in Hrun.
  rewrite Hrun; auto.
  simpl. eexists. split; [reflexivity|]. split.
  - apply relabel_names. exact Hlen.
  - apply relabel_positions. exact Hlen.
Qed.

Lemma randomize_keeps_positions_witness :
  exists d,
    randomize_genes (@rev string) two_scaffold_index = Ok d /\
    all_names d = rev (all_names two_scaffold_index) /\
    positions d = positions two_scaffold_index.
Proof.
  apply (randomize_keeps_positions (@rev string) two_scaffold_index).
  - simpl. repeat constructor; simpl; intuition discriminate.
  - simpl. repeat constructor; simpl; intuition discriminate.
  - apply Permutation_rev.
Defined.

(** ** A starting gene that is already accounted for *)

Lemma accounted_gene_starts_no_walk_witness :
  exists s',
    try_candidates shared_blastdict shared_refdict 2 2 1000 true false "X"
      [("g1", gene 1 100); ("g2", gene 200 300); ("g3", gene 400 500)]
      [("g1", gene 1 100); ("g2", gene 200 300); ("g3", gene 400 500)]
      1 3 "g2" [("r2", 50#1); ("r1", 40#1)]
      (set_accounted_query_genes ["g2"] initial_state) = Normal s' /\
    walks_started (stderr s')
    = walks_started (stderr (set_accounted_query_genes ["g2"] initial_state)) /\
    wayout s' = wayout (set_accounted_query_genes ["g2"] initial_state) /\
    blocknum s' = blocknum (set_accounted_query_genes ["g2"] initial_state) /\
    accounted_query_genes s'
    = accounted_query_genes (set_accounted_query_genes ["g2"] initial_state).
Proof.
  apply (accounted_gene_starts_no_walk shared_blastdict shared_refdict 2 2 1000
           true false "X"
           [("g1", gene 1 100); ("g2", gene 200 300); ("g3", gene 400 500)]
           [("g1", gene 1 100); ("g2", gene 200 300); ("g3", gene 400 500)]
           1 3 "g2" [("r2", 50#1); ("r1", 40#1)]
           (set_accounted_query_genes ["g2"] initial_state)).
  simpl. auto.
Defined.

(** ** A block lies on one pair of scaffolds, in the order of the query *)

Lemma block_lines_none (n : Z) (out : list outline) :
  Forall (fun l => line_block l <> n) out -> block_lines n out = [].
Proof.
  unfold block_lines, pair_lines.
  induction 1 as [|l out Hl _ IH]; simpl; [reflexivity|].
  destruct (is_pair_line l); simpl; [|exact IH].
  apply Z.eqb_neq in Hl. rewrite Hl. exact IH.
Qed.

Lemma block_lines_parent (n : Z) (parent : list outline) :
  Forall (fun l => is_pair_line l = false) parent -> block_lines n parent = [].
Proof.
  intros H. unfold block_lines. fold (pair_lines parent).
  rewrite (pair_lines_none parent H). reflexivity.
Qed.

Lemma pair_line_scaffolds blastdict refdict scaffold refscaffold transdict n p l :
  pair_line blastdict refdict scaffold refscaffold transdict n p l ->
  line_block l = n /\ line_scaffold l = scaffold /\
  forall a, line_refscaffold l = Some a -> a = refscaffold.
Proof.
  intros (q & r & hits & score & _ & _ & _ & _ & [->|[j ->]]); simpl.
  - split; [reflexivity|]. split; [reflexivity|]. intros a H. congruence.
  - split; [reflexivity|]. split; [reflexivity|]. intros a H. discriminate.
Qed.

Lemma pair_lines_scaffolds blastdict refdict scaffold refscaffold transdict n
    pairs lines :
  Forall2 (pair_line blastdict refdict scaffold refscaffold transdict n)
    pairs lines ->
  Forall (fun l => line_block l = n /\ line_scaffold l = scaffold /\
                   forall a, line_refscaffold l = Some a -> a = refscaffold)
    lines.
Proof.
  induction 1 as [|p l pairs lines Hpl _ IH]; constructor; [|exact IH].
  eapply pair_line_scaffolds; eauto.
Qed.

Lemma walk_scaffolds_scaffolds blastdict refdict min_block max_span max_distance
    is_verbose make_gff scaffolds s s' :
  walk_scaffolds blastdict refdict min_block max_span max_distance is_verbose
    make_gff scaffolds s = Normal s' ->
  wayout s = [] ->
  forall l l',
    In l (wayout s') -> In l' (wayout s') -> line_block l = line_block l' ->
    line_scaffold l = line_scaffold l' /\
    forall a b, line_refscaffold l = Some a -> line_refscaffold l' = Some b ->
                a = b.
Proof.
  intros Hwalk Hout.
  refine (proj2
    (walk_scaffolds_invariant blastdict refdict min_block max_span
       max_distance is_verbose make_gff scaffolds
       (fun st =>
          Forall (fun l => line_block l < blocknum st) (wayout st) /\
          forall l l',
            In l (wayout st) -> In l' (wayout st) ->
            line_block l = line_block l' ->
            line_scaffold l = line_scaffold l' /\
            forall a b, line_refscaffold l = Some a ->
                        line_refscaffold l' = Some b -> a = b)
       _ _ _ (incl_refl _) _ _ Hwalk _)).
  - intros t t' (Hn & _ & Hw). now rewrite Hn, Hw.
  - intros scaffold transdict startingtrans refscaffold t t' _ _ _ Hblock
      (Hall & Hsame).
    apply write_block_writes in Hblock.
    destruct Hblock as [(_ & Hn & _ & parent & lines & Hw & Hparent & Hlines)
                       |(_ & Hn & _ & Hw)]; [|now rewrite Hn, Hw].
    apply pair_lines_scaffolds in Hlines.
    assert (Hnew : Forall (fun l => line_block l = blocknum t /\
                                    line_scaffold l = scaffold /\
                                    forall a, line_refscaffold l = Some a ->
                                              a = refscaffold)
                     (parent ++ lines)).
    { apply Forall_app. split; [|exact Hlines].
      eapply Forall_impl; [|exact Hparent]. simpl.
      intros l (_ & Hb & Hsc & Href). split; [exact Hb|]. split; [exact Hsc|].
      intros a Ha. congruence. }
    clear Hparent Hlines.
    rewrite Forall_forall in Hall, Hnew.
    rewrite Hn, Hw. split.
    + apply Forall_forall. intros l Hl. apply in_app_or in Hl.
      destruct Hl as [Hl|Hl].
      * specialize (Hall _ Hl). lia.
      * destruct (Hnew _ Hl) as [Hb _]. lia.
    + intros l l' Hl Hl' Hblk.
      apply in_app_or in Hl. apply in_app_or in Hl'.
      destruct Hl as [Hl|Hl], Hl' as [Hl'|Hl'].
      * apply Hsame; assumption.
      * specialize (Hall _ Hl). destruct (Hnew _ Hl') as [Hb _]. lia.
      * specialize (Hall _ Hl'). destruct (Hnew _ Hl) as [Hb _]. lia.
      * destruct (Hnew _ Hl) as (_ & Hsc & Href).
        destruct (Hnew _ Hl') as (_ & Hsc' & Href').
        split; [congruence|]. intros a b Ha Hb.
        rewrite (Href _ Ha), (Href' _ Hb). reflexivity.
  - rewrite Hout. split; [constructor|]. intros l l' [].
Qed.

(** X23.  All lines of a block in the output of a run that ends normally name
    the same query scaffold, and those that name a reference scaffold name the
    same one. *)
Theorem block_on_one_scaffold_pair :
  forall (blastdict : dict (dict Q)) (refdict : dict refgene)
         (min_block max_span max_distance : Z) (is_verbose make_gff : bool)
         (querydict : dict (dict querygene)) (s : wstate) (l l' : outline),
    synteny_walk blastdict refdict min_block max_span max_distance is_verbose
      make_gff querydict = Normal s ->
    In l (wayout s) -> In l' (wayout s) ->
    line_block l = line_block l' ->
    line_scaffold l = line_scaffold l' /\
    forall a b, line_refscaffold l = Some a -> line_refscaffold l' = Some b ->
                a = b.
Proof.
  intros blastdict refdict min_block max_span max_distance is_verbose make_gff
    querydict s l l' Hrun Hl Hl' Hblk.
  apply synteny_walk_normal in Hrun.
  destruct Hrun as (s0 & Hwalk & _ & (_ & _ & Hout)).
  rewrite Hout in Hl, Hl'.
  eapply walk_scaffolds_scaffolds; eauto.
Qed.

Lemma block_on_one_scaffold_pair_witness :
  line_scaffold (TabLine "X" "S2" 2 "g2" 200 300 "+" "q2" 100 200 "+" (50#1))
  = line_scaffold (TabLine "X" "S2" 2 "g3" 400 500 "+" "q3" 300 400 "+" (40#1)) /\
  forall a b,
    line_refscaffold
      (TabLine "X" "S2" 2 "g2" 200 300 "+" "q2" 100 200 "+" (50#1)) = Some a ->
    line_refscaffold
      (TabLine "X" "S2" 2 "g3" 400 500 "+" "q3" 300 400 "+" (40#1)) = Some b ->
    a = b.
Proof.
  apply (block_on_one_scaffold_pair shared_blastdict shared_refdict 2 2 1000
           false false shared_querydict
           (final_state
              (synteny_walk shared_blastdict shared_refdict 2 2 1000 false false
                 shared_querydict))).
  - vm_compute. reflexivity.
  - vm_compute. auto.
  - vm_compute. auto.
  - reflexivity.
Defined.

(** The genes of a scaffold in the order of the walk: ascending by start. *)
Lemma sorted_by_start (transdict : dict querygene) :
  StronglySorted (fun a b => qstart (snd a) <= qstart (snd b))
    (sorted by_start transdict).
Proof.
  assert (Hs : Sorted (fun a b : string * querygene => by_start b a = false)
                 (sorted by_start transdict)).
  { apply sorted_Sorted. intros x y H. unfold by_start in *.
    apply Z.ltb_lt in H. apply Z.ltb_ge. lia. }
  apply Sorted_StronglySorted in Hs.
  - induction Hs as [|a l _ IH Hall]; constructor; [exact IH|].
    eapply Forall_impl; [|exact Hall]. simpl. intros b Hb.
    unfold by_start in Hb. apply Z.ltb_ge in Hb. exact Hb.
  - intros a b c Hab Hbc. unfold by_start in *.
    apply Z.ltb_ge in Hab, Hbc. apply Z.ltb_ge. lia.
Qed.

Lemma StronglySorted_map_le {A : Type} (f : A -> Z) (l : list A) :
  StronglySorted (fun a b => f a <= f b) l -> StronglySorted Z.le (map f l).
Proof.
  induction 1 as [|a l _ IH Hall]; simpl; constructor; [exact IH|].
  apply Forall_map. exact Hall.
Qed.

Lemma pair_lines_starts blastdict refdict scaffold refscaffold transdict n
    pairs lines :
  Forall2 (pair_line blastdict refdict scaffold refscaffold transdict n)
    pairs lines ->
  forall sub : list (string * querygene),
    map fst sub = map fst pairs ->
    (forall x, In x sub -> sget (fst x) transdict = Some (snd x)) ->
    map line_qstart lines = map (fun x => qstart (snd x)) sub.
Proof.
  induction 1 as [|p l pairs lines Hpl _ IH]; intros sub Hmap Hget.
  - destruct sub; [reflexivity|discriminate].
  - destruct sub as [|x sub]; [discriminate|].
    simpl in Hmap. inversion Hmap as [[Hx Hrest]].
    simpl. f_equal.
    + destruct Hpl as (q & r & hits & score & Hq & _ & _ & _ & Hl).
      rewrite <- Hx in Hq. rewrite (Hget x (or_introl eq_refl)) in Hq.
      inversion Hq; subst q.
      destruct Hl as [->|[j ->]]; reflexivity.
    + apply IH; [exact Hrest|]. intros y Hy. apply Hget. right. exact Hy.
Qed.

Lemma chain_lines_sorted blastdict refdict scaffold refscaffold transdict n
    chain lines :
  NoDup (map fst transdict) ->
  subseq (map fst chain) (map fst (sorted by_start transdict)) ->
  Forall2 (pair_line blastdict refdict scaffold refscaffold transdict n)
    chain lines ->
  StronglySorted Z.le (map line_qstart lines).
Proof.
  intros Hnd Hsub Hlines.
  apply subseq_map_fst in Hsub. destruct Hsub as (sub & Hsub & Hmap).
  rewrite (pair_lines_starts _ _ _ _ _ _ _ _ Hlines sub Hmap).
  - apply StronglySorted_map_le.
    eapply subseq_StronglySorted; [exact Hsub|apply sorted_by_start].
  - intros x Hx. apply In_sget; [exact Hnd|].
    rewrite <- surjective_pairing.
    eapply Permutation_in; [apply sorted_perm|].
    eapply subseq_In; eauto.
Qed.

Lemma walk_scaffolds_order blastdict refdict min_block max_span max_distance
    is_verbose make_gff scaffolds s s' :
  (forall scaffold transdict,
      In (scaffold, transdict) scaffolds -> NoDup (map fst transdict)) ->
  walk_scaffolds blastdict refdict min_block max_span max_distance is_verbose
    make_gff scaffolds s = Normal s' ->
  wayout s = [] ->
  forall n, StronglySorted Z.le (map line_qstart (block_lines n (wayout s'))).
Proof.
  intros Hnd Hwalk Hout.
  refine (proj2
    (walk_scaffolds_invariant blastdict refdict min_block max_span
       max_distance is_verbose make_gff scaffolds
       (fun st =>
          Forall (fun l => line_block l < blocknum st) (wayout st) /\
          forall n,
            StronglySorted Z.le (map line_qstart (block_lines n (wayout st))))
       _ _ _ (incl_refl _) _ _ Hwalk _)).
  - intros t t' (Hn & _ & Hw). now rewrite Hn, Hw.
  - intros scaffold transdict startingtrans refscaffold t t' Hin _ Hsub Hblock
      (Hall & Hsorted).
    apply write_block_writes in Hblock.
    destruct Hblock as [(_ & Hn & _ & parent & lines & Hw & Hparent & Hlines)
                       |(_ & Hn & _ & Hw)]; [|now rewrite Hn, Hw].
    pose proof (chain_lines_sorted _ _ _ _ _ _ _ _ (Hnd _ _ Hin) Hsub Hlines)
      as Hstarts.
    apply pair_lines_shape in Hlines. destruct Hlines as [_ Hshape].
    assert (Hnone : forall n, block_lines n parent = []).
    { intros n. apply block_lines_parent.
      eapply Forall_impl; [|exact Hparent]. simpl. tauto. }
    rewrite Hn, Hw. split.
    + apply Forall_app. split.
      * eapply Forall_impl; [|exact Hall]. simpl. intros l Hl. lia.
      * apply Forall_app. split.
        -- eapply Forall_impl; [|exact Hparent]. simpl. intros l (_ & Hl & _). lia.
        -- eapply Forall_impl; [|exact Hshape]. simpl. intros l [_ Hl]. lia.
    + intros n. rewrite !block_lines_app, Hnone. simpl.
      destruct (Z.eq_dec n (blocknum t)) as [->|Hne].
      * rewrite (block_lines_none (blocknum t) (wayout t)).
        -- destruct (pair_lines_all _ _ Hshape) as [_ ->]. exact Hstarts.
        -- eapply Forall_impl; [|exact Hall]. simpl. intros l Hl. lia.
      * rewrite (block_lines_none n lines).
        -- rewrite app_nil_r. apply Hsorted.
        -- eapply Forall_impl; [|exact Hshape]. simpl. intros l [_ Hl]. lia.
  - rewrite Hout. split; [constructor|]. intros n. constructor.
Qed.

(** X24.  Within every block of the output of a run that ends normally the pairs
    are listed by ascending start of the query gene.  The query index is assumed
    to hold no gene name twice on a scaffold. *)
Theorem block_in_query_order :
  forall (blastdict : dict (dict Q)) (refdict : dict refgene)
         (min_block max_span max_distance : Z) (is_verbose make_gff : bool)
         (querydict : dict (dict querygene)) (s : wstate) (n : Z),
    (forall scaffold transdict,
        In (scaffold, transdict) querydict -> NoDup (map fst transdict)) ->
    synteny_walk blastdict refdict min_block max_span max_distance is_verbose
      make_gff querydict = Normal s ->
    StronglySorted Z.le (map line_qstart (block_lines n (wayout s))).
Proof.
  intros blastdict refdict min_block max_span max_distance is_verbose make_gff
    querydict s n Hnd Hrun.
  apply synteny_walk_normal in Hrun.
  destruct Hrun as (s0 & Hwalk & _ & (_ & _ & Hout)).
  rewrite Hout.
  eapply walk_scaffolds_order; [|exact Hwalk|reflexivity].
  intros scaffold transdict Hin. apply (Hnd scaffold).
  eapply Permutation_in; [apply sorted_perm|exact Hin].
Qed.

Lemma block_in_query_order_witness :
  StronglySorted Z.le
    (map line_qstart
       (block_lines 2
          (wayout (final_state
                     (synteny_walk shared_blastdict shared_refdict 2 2 1000 false
                        true shared_querydict))))).
Proof.
  apply (block_in_query_order shared_blastdict shared_refdict 2 2 1000 false true
           shared_querydict
           (final_state
              (synteny_walk shared_blastdict shared_refdict 2 2 1000 false true
                 shared_querydict)) 2).
  - intros scaffold transdict Hin. simpl in Hin.
    destruct Hin as [Heq|[]]. inversion Heq; subst. simpl.
    repeat constructor; simpl; intuition discriminate.
  - vm_compute. reflexivity.
Defined.

(** ** The annotation file: exceptions *)

Lemma trim_id_total delimiter geneid : exists g, trim_id delimiter geneid = Ok g.
Proof.
  unfold trim_id, rsplit1_head. destruct delimiter as [[|c sep]|]; eauto.
  destruct (rfind_head (String c sep) geneid); eauto.
Qed.

Lemma parse_gtf_line_error re_search exonstogenes excludedict delimiter isref ln
    acc e :
  parse_gtf_line re_search exonstogenes excludedict delimiter isref ln acc
  = Err e ->
  e = AttributeError.
Proof.
  unfold parse_gtf_line, search_id. destruct acc as [genes ex].
  destruct (excluded excludedict (g_scaffold ln)); [discriminate|].
  destruct (is_gene_feature (g_feature ln)).
  - destruct (re_search pat_gene_id (g_attributes ln)) as [id|].
    + simpl. destruct (trim_id_total delimiter id) as [g ->]. discriminate.
    + destruct (re_search pat_ID (g_attributes ln)) as [id|].
      * simpl. destruct (trim_id_total delimiter id) as [g ->]. discriminate.
      * simpl. intros H; inversion H; reflexivity.
  - destruct (exonstogenes && String.eqb (g_feature ln) "exon"); [|discriminate].
    destruct (re_search pat_gene_id (g_attributes ln)) as [id|];
      [discriminate|].
    destruct (re_search pat_name (g_attributes ln)) as [id|]; [discriminate|].
    simpl. intros H; inversion H; reflexivity.
Qed.

Lemma parse_gtf_lines_error re_search exonstogenes excludedict delimiter isref
    lines :
  forall acc e,
    parse_gtf_lines re_search exonstogenes excludedict delimiter isref lines acc
    = Err e ->
    e = AttributeError.
Proof.
  induction lines as [|ln lines IH]; intros acc e; cbn [parse_gtf_lines];
    [discriminate|].
  destruct (parse_gtf_line re_search exonstogenes excludedict delimiter isref ln
              acc) as [acc1|e1] eqn:Hline; simpl.
  - apply IH.
  - intros H; inversion H; subst e1. eapply parse_gtf_line_error; eauto.
Qed.

Lemma parse_gtf_lines_unnamed re_search exonstogenes excludedict delimiter isref
    lines ln :
  In ln lines ->
  gene_record excludedict ln = true ->
  search_id re_search pat_gene_id pat_ID (g_attributes ln) = Err AttributeError ->
  forall acc,
    parse_gtf_lines re_search exonstogenes excludedict delimiter isref lines acc
    = Err AttributeError.
Proof.
  intros Hin Hrec Hid.
  induction lines as [|ln' lines IH]; intros acc; [destruct Hin|].
  cbn [parse_gtf_lines].
  destruct (parse_gtf_line re_search exonstogenes excludedict delimiter isref ln'
              acc) as [acc1|e1] eqn:Hline; simpl.
  - destruct Hin as [->|Hin]; [|apply IH; exact Hin].
    exfalso. revert Hline. unfold parse_gtf_line, gene_record in *.
    destruct acc as [genes ex].
    apply andb_true_iff in Hrec. destruct Hrec as [Hex Hfeat].
    apply negb_true_iff in Hex. rewrite Hex, Hfeat, Hid. discriminate.
  - apply parse_gtf_line_error in Hline. subst e1. reflexivity.
Qed.

(** X25.  A gene, transcript or mRNA record outside the excluded scaffolds whose
    attributes match neither the gene_id nor the ID pattern ends [parse_gtf]
    with [AttributeError], wherever it stands in the file. *)
Theorem gtf_unnamed_record_attribute_error :
  forall (re_search : pattern -> string -> option string) (lines : list gtfline)
         (exonstogenes : bool) (excludedict : option (dict bool))
         (delimiter : option string) (isref : bool) (ln : gtfline),
    In ln lines ->
    gene_record excludedict ln = true ->
    re_search pat_gene_id (g_attributes ln) = None ->
    re_search pat_ID (g_attributes ln) = None ->
    parse_gtf re_search lines exonstogenes excludedict delimiter isref
    = Err AttributeError.
Proof.
  intros re_search lines exonstogenes excludedict delimiter isref ln Hin Hrec
    H1 H2.
  unfold parse_gtf.
  rewrite (parse_gtf_lines_unnamed re_search exonstogenes excludedict delimiter
             isref lines ln Hin Hrec).
  - reflexivity.
  - unfold search_id. rewrite H1, H2. reflexivity.
Qed.

Lemma gtf_unnamed_record_attribute_error_witness :
  parse_gtf (fun _ _ => None) gene_and_exon_lines false None None true
  = Err AttributeError.
Proof.
  apply (gtf_unnamed_record_attribute_error (fun _ _ => None) gene_and_exon_lines
           false None None true (mk_gtfline "Y" "mRNA" 7 90 "-" "g2.t1")).
  - simpl. auto.
  - reflexivity.
  - reflexivity.
  - reflexivity.
Defined.

Lemma parse_gtf_lines_no_index re_search exonstogenes excludedict delimiter isref
    lines genes ex :
  parse_gtf_lines re_search exonstogenes excludedict delimiter isref lines
    (empty_index isref, no_exons) = Ok (genes, ex) ->
  index_len isref genes = 0%nat ->
  forall ln, In ln lines -> gene_record excludedict ln = false.
Proof.
  intros Hrun Hlen ln Hin.
  destruct (gene_record excludedict ln) eqn:Hrec; [|reflexivity].
  exfalso.
  apply (parse_gtf_lines_nonempty _ _ _ _ _ _ _ _ _ _ Hrun); [|exact Hlen].
  right. exists ln. auto.
Qed.

Lemma exon_gene_fields_total isref ex gene exons :
  exons <> [] ->
  sget gene (nametoscaffold ex) <> None ->
  sget gene (nametostrand ex) <> None ->
  exists fields, exon_gene_fields isref ex gene exons = Ok fields.
Proof.
  intros Hne Hsc Hstr. unfold exon_gene_fields, sindex, value_or_error.
  destruct (sget gene (nametoscaffold ex)) as [sc|]; [|congruence].
  destruct (sget gene (nametostrand ex)) as [str|]; [|congruence].
  destruct exons as [|x exons]; [congruence|].
  destruct isref; simpl; eauto.
Qed.

Lemma genes_from_exons_total isref ex items :
  (forall gene exons, In (gene, exons) items ->
     exons <> [] /\ sget gene (nametoscaffold ex) <> None /\
     sget gene (nametostrand ex) <> None) ->
  forall acc, exists d, genes_from_exons isref ex items acc = Ok d.
Proof.
  induction items as [|[gene exons] items IH]; intros Hall acc; simpl; [eauto|].
  destruct (Hall gene exons (or_introl eq_refl)) as (Hne & Hsc & Hstr).
  destruct (exon_gene_fields_total isref ex gene exons Hne Hsc Hstr)
    as ([[[sc lo] hi] str] & ->).
  simpl. apply IH. intros g e Hin. apply Hall. right. exact Hin.
Qed.

(** X26.  With [-g], once the loop over the lines has ended without an
    exception, [parse_gtf] returns an index: building the genes from the exons
    on lines 113-119 raises neither [KeyError] nor [ValueError]. *)
Theorem exon_inference_never_raises :
  forall (re_search : pattern -> string -> option string) (lines : list gtfline)
         (excludedict : option (dict bool)) (delimiter : option string)
         (isref : bool) (acc : gtf_index isref * exon_tables),
    parse_gtf_lines re_search true excludedict delimiter isref lines
      (empty_index isref, no_exons) = Ok acc ->
    exists d, parse_gtf re_search lines true excludedict delimiter isref = Ok d.
Proof.
  intros re_search lines excludedict delimiter isref [genes ex] Hrun.
  unfold parse_gtf. rewrite Hrun. simpl.
  destruct (0 <? index_len isref genes)%nat eqn:Hpos; [eauto|].
  apply Nat.ltb_ge in Hpos.
  assert (Hlen : index_len isref genes = 0%nat) by lia.
  pose proof (parse_gtf_lines_no_index _ _ _ _ _ _ _ _ Hrun Hlen) as Hno.
  apply (parse_gtf_lines_tables re_search excludedict delimiter isref lines [])
    in Hrun; auto using tables_hold_init.
  destruct Hrun as [_ [Hnd Hall]]. simpl in Hnd, Hall.
  apply genes_from_exons_total.
  intros gene exons Hin.
  apply (In_sget _ _ _ Hnd) in Hin.
  specialize (Hall gene).
  destruct (last_error (exon_records re_search excludedict lines gene))
    as [final|] eqn:Hlast; [|congruence].
  destruct Hall as (Hb & Hs & Hc).
  rewrite Hb in Hin. inversion Hin; subst exons; clear Hin.
  split; [|split; congruence].
  destruct (exon_records re_search excludedict lines gene);
    [discriminate|simpl; discriminate].
Qed.

Lemma exon_inference_never_raises_witness :
  exists d, parse_gtf whole_attribute two_exon_lines true None None false = Ok d.
Proof.
  apply (exon_inference_never_raises whole_attribute two_exon_lines None None
           false
           ([], mk_exon_tables [("g1", "X")] [("g1", "-")]
                  [("g1", [(10, 50); (5, 20)])])).
  vm_compute. reflexivity.
Defined.
